(** * sensorDataAnalyzer: the gas-profile and sensor-signal pipeline

    A shallow embedding of [src/utils/gasCalculations.js]
    ([calculateGasConcVsTime], [identifyGasExposureEvents],
    [interpolateGasConcentration]) and of the per-file part of
    [src/services/timeSeriesAnalysisService.js]
    ([processAllTimeSeriesFiles]), with the properties the specification
    states about them.

    JavaScript numbers are modelled by [num]: a rational, the two
    infinities, or NaN.  Arithmetic on finite values is exact (binary64
    rounding, overflow and the sign of zero are not modelled); the
    comparisons follow IEEE-754: every ordered comparison with NaN is false,
    [===] with NaN is false, [!==] with NaN is true.

    Where a property of the profile builder turns on what the arithmetic
    returns, the builder is taken with its three operations as parameters
    ([ProfileWith]) and the property is proved for every choice of them;
    [Binary64] gives the operations in double precision. *)

From Stdlib Require Import List Bool ZArith QArith Qreduction Qabs Lia Lqa String.
From Stdlib Require Import Sorting.Sorted Relations.Relation_Definitions.
From Stdlib Require Import Ascii.
From Stdlib Require SpecFloat.
Import ListNotations.

Set Implicit Arguments.

(* ================================================================== *)
(** ** JavaScript numbers *)

Module JsNum.

Inductive num : Type :=
| NaN
| PInf
| NInf
| Fin (q : Q).

Definition Qlt_bool (x y : Q) : bool := negb (Qle_bool y x).

(** [isNaN(x)] *)
Definition isNaN (x : num) : bool :=
  match x with NaN => true | _ => false end.

(** [x < y] *)
Definition lt (x y : num) : bool :=
  match x, y with
  | Fin a, Fin b => Qlt_bool a b
  | NInf, Fin _ | NInf, PInf | Fin _, PInf => true
  | _, _ => false
  end.

(** [x === y] on numbers *)
Definition eq (x y : num) : bool :=
  match x, y with
  | Fin a, Fin b => Qeq_bool a b
  | PInf, PInf | NInf, NInf => true
  | _, _ => false
  end.

(** [x !== y] *)
Definition ne (x y : num) : bool := negb (eq x y).

(** [x <= y] *)
Definition le (x y : num) : bool :=
  match x, y with
  | Fin a, Fin b => Qle_bool a b
  | NInf, Fin _ | NInf, PInf | Fin _, PInf => true
  | PInf, PInf | NInf, NInf => true
  | _, _ => false
  end.

(** [x > y] *)
Definition gt (x y : num) : bool := lt y x.

Definition neg (x : num) : num :=
  match x with
  | NaN => NaN
  | PInf => NInf
  | NInf => PInf
  | Fin a => Fin (Qred (- a))
  end.

(** [x + y] *)
Definition add (x y : num) : num :=
  match x, y with
  | NaN, _ | _, NaN => NaN
  | PInf, NInf | NInf, PInf => NaN
  | PInf, _ | _, PInf => PInf
  | NInf, _ | _, NInf => NInf
  | Fin a, Fin b => Fin (Qred (a + b))
  end.

(** [x - y] *)
Definition sub (x y : num) : num := add x (neg y).

(** the infinity carrying the sign of a non-zero rational *)
Definition inf_of_sign (a : Q) : num :=
  if Qlt_bool 0 a then PInf else NInf.

(** [x * y] *)
Definition mul (x y : num) : num :=
  match x, y with
  | NaN, _ | _, NaN => NaN
  | Fin a, Fin b => Fin (Qred (a * b))
  | PInf, PInf | NInf, NInf => PInf
  | PInf, NInf | NInf, PInf => NInf
  | PInf, Fin a | Fin a, PInf =>
      if Qeq_bool a 0 then NaN else inf_of_sign a
  | NInf, Fin a | Fin a, NInf =>
      if Qeq_bool a 0 then NaN else inf_of_sign (- a)
  end.

(** [x / y] *)
Definition div (x y : num) : num :=
  match x, y with
  | NaN, _ | _, NaN => NaN
  | Fin a, Fin b =>
      if Qeq_bool b 0
      then (if Qeq_bool a 0 then NaN else inf_of_sign a)
      else Fin (Qred (a / b))
  | Fin _, PInf | Fin _, NInf => Fin 0
  | PInf, Fin b => if Qlt_bool b 0 then NInf else PInf
  | NInf, Fin b => if Qlt_bool b 0 then PInf else NInf
  | _, _ => NaN
  end.

(** [Math.abs(x)] *)
Definition abs (x : num) : num :=
  match x with
  | NaN => NaN
  | PInf | NInf => PInf
  | Fin a => Fin (Qred (Qabs a))
  end.

Definition of_Z (z : Z) : num := Fin (inject_Z z).

End JsNum.

Import JsNum.

Declare Scope js_scope.
Delimit Scope js_scope with js.
Bind Scope js_scope with num.
Notation "x <? y" := (JsNum.lt x y) : js_scope.
Notation "x <=? y" := (JsNum.le x y) : js_scope.
Notation "x >? y" := (JsNum.gt x y) : js_scope.
Notation "x === y" := (JsNum.eq x y) (at level 70, no associativity) : js_scope.
Notation "x !== y" := (JsNum.ne x y) (at level 70, no associativity) : js_scope.
Notation "x + y" := (JsNum.add x y) : js_scope.
Notation "x - y" := (JsNum.sub x y) : js_scope.
Notation "x * y" := (JsNum.mul x y) : js_scope.
Notation "x / y" := (JsNum.div x y) : js_scope.

(** numeric literals of the source *)
Definition n0 : num := Fin 0.
Definition n1 : num := Fin 1.
Definition n60 : num := Fin 60.
Definition n100 : num := Fin 100.
Definition n500 : num := Fin 500.
Definition n1000 : num := Fin 1000.
Definition n1e4 : num := Fin 10000.
Definition n1e12 : num := Fin 1000000000000.

(* ================================================================== *)
(** ** Data model *)

(** [{ time_min, conc }] *)
Record Point : Type := mkPoint { time_min : num; conc : num }.

(** [{ targetGasFlow, durationSeconds }] *)
Record FlowStep : Type :=
  mkFlowStep { targetGasFlow : num; durationSeconds : num }.

(** [{ startTime, concentration, endTime }] *)
Record Event : Type :=
  mkEvent { startTime : num; concentration : num; endTime : num }.

(* ================================================================== *)
(** ** identifyGasExposureEvents *)

Module Events.

(** The loop variables: the [events] array and [activeEvent] ([None] is
    [null]). *)
Record State : Type := mkState { events : list Event; activeEvent : option Event }.

Definition startEvent (point : Point) : Event :=
  mkEvent (time_min point) (conc point) (time_min point).

(** the [if (activeEvent.endTime > activeEvent.startTime) events.push(...)] *)
Definition pushIfDuration (evs : list Event) (a : Event) : list Event :=
  if (endTime a >? startTime a)%js then evs ++ [a] else evs.

(** One iteration of the [for] loop over the profile. *)
Definition step (st : State) (point : Point) : State :=
  match activeEvent st with
  | None =>
      if (conc point >? n0)%js
      then mkState (events st) (Some (startEvent point))
      else st
  | Some a =>
      if ((conc point === concentration a) && (time_min point >? endTime a))%js
      then mkState (events st)
             (Some (mkEvent (startTime a) (concentration a) (time_min point)))
      else if ((conc point !== concentration a) || (time_min point <=? endTime a))%js
      then mkState (pushIfDuration (events st) a)
             (if (conc point >? n0)%js then Some (startEvent point) else None)
      else st
  end.

Definition sameEvent (x y : Event) : bool :=
  ((startTime x === startTime y) && (concentration x === concentration y)
   && (endTime x === endTime y))%js.

(** The code after the loop: push the still active event unless it has no
    duration or equals the last pushed one. *)
Definition finish (st : State) : list Event :=
  match activeEvent st with
  | Some a =>
      if (endTime a >? startTime a)%js then
        let alreadyAdded :=
          match rev (events st) with
          | lastPushedEvent :: _ => sameEvent lastPushedEvent a
          | [] => false
          end in
        if alreadyAdded then events st else events st ++ [a]
      else events st
  | None => events st
  end.

Definition identifyGasExposureEvents (gasConcProfile : list Point) : list Event :=
  match gasConcProfile with
  | [] => []
  | _ => finish (fold_left step gasConcProfile (mkState [] None))
  end.

End Events.

(* ================================================================== *)
(** ** calculateGasConcVsTime *)

Module Profile.

(** A JavaScript value as far as [typeof v === 'number'] can tell. *)
Inductive JsValue : Type :=
| JUndefined
| JNull
| JBoolean (b : bool)
| JString (s : string)
| JNumber (n : num).


(** The [config] object; the argument itself is [option Config], [None]
    standing for a missing ([undefined] or [null]) argument. *)
Record Config : Type :=
  mkConfig { totalFlowrate : JsValue; gasConcCyl2 : JsValue }.

(** [config && typeof config.totalFlowrate === 'number' ? config.totalFlowrate : 500] *)
Definition resolveTotalFlowrate (config : option Config) : num :=
  match config with
  | Some c => match totalFlowrate c with JNumber n => n | _ => n500 end
  | None => n500
  end.

(** [config && typeof config.gasConcCyl2 === 'number' ? config.gasConcCyl2 : 0] *)
Definition resolveGasConcCyl2 (config : option Config) : num :=
  match config with
  | Some c => match gasConcCyl2 c with JNumber n => n | _ => n0 end
  | None => n0
  end.

Definition oneSecondInMinutes : num := (n1 / n60)%js.

(** [arr[arr.length - 1]], [None] when the array is empty *)
Fixpoint lastOf {A : Type} (l : list A) : option A :=
  match l with
  | [] => None
  | [x] => Some x
  | _ :: r => lastOf r
  end.

Record LoopState : Type :=
  mkLoop { calculatedProfile : list Point;
           currentTimeSeconds : num;
           currentConcentration : num }.

Definition pZero : Point := mkPoint n0 n0.

(** The concentration of a step (lines 34-38). *)
Definition stepConcentration (tf gc : num) (step : FlowStep) : num :=
  if (tf === n0)%js
  then (if ((gc >? n0) && (targetGasFlow step >? n0))%js then PInf else n0)
  else ((gc * targetGasFlow step) / tf)%js.

(** "Point 1" (lines 43-54): the end of the previous concentration period. *)
Definition pushPoint1 (profile : list Point) (t prev : num) : list Point :=
  let outer :=
    match lastOf profile with
    | None => true
    | Some lp =>
        ((time_min lp <? t / n60)
         || ((time_min lp === t / n60) && (conc lp !== prev)))%js
    end in
  let guard :=
    match lastOf profile with
    | None => false
    | Some lp => ((time_min lp === t / n60) && (conc lp === prev))%js
    end in
  if outer then
    if guard then profile else profile ++ [mkPoint (t / n60)%js prev]
  else profile.

(** "Point 2" (lines 58-72): the start of the new period, one second later.
    The profile holds the point pushed before the loop, so it has a last
    element. *)
Definition pushPoint2 (profile : list Point) (t prev cur : num) : list Point :=
  let p2 := mkPoint (t / n60 + oneSecondInMinutes)%js cur in
  if (cur !== prev)%js then profile ++ [p2]
  else match lastOf profile with
       | Some lp => if (conc lp !== cur)%js then profile ++ [p2] else profile
       | None => profile
       end.

(** One iteration of the loop over [gasFlowData] (lines 29-80). *)
Definition loopBody (tf gc : num) (st : LoopState) (step : FlowStep) : LoopState :=
  let previousConcentration := currentConcentration st in
  let cur := stepConcentration tf gc step in
  let t := currentTimeSeconds st in
  let profile1 := pushPoint1 (calculatedProfile st) t previousConcentration in
  let profile2 := pushPoint2 profile1 t previousConcentration cur in
  let t' := (t + durationSeconds step)%js in
  mkLoop (profile2 ++ [mkPoint (t' / n60)%js cur]) t' cur.

(** [a] and [b] agree (by [===]) on both fields. *)
Definition samePoint (a b : Point) : bool :=
  ((time_min a === time_min b) && (conc a === conc b))%js.

(** The deduplication loop (lines 87-92): element [k] is compared with
    element [k-1] of [calculatedProfile]. *)
Fixpoint dedupFrom (prev : Point) (rest : list Point) : list Point :=
  match rest with
  | [] => []
  | p :: r =>
      if ((time_min p !== time_min prev) || (conc p !== conc prev))%js
      then p :: dedupFrom p r
      else dedupFrom p r
  end.

Definition dedup (calculated : list Point) : list Point :=
  match calculated with
  | [] => []
  | p0 :: r => p0 :: dedupFrom p0 r
  end.

(** Lines 95-105: make the profile start with [(0, 0)]. *)
Definition ensureStart (finalProfile : list Point) : list Point :=
  let missing :=
    match finalProfile with
    | [] => true
    | p :: _ => ((time_min p !== n0) || (conc p !== n0))%js
    end in
  if missing then
    let fine :=
      match finalProfile with
      | p :: _ => ((time_min p === n0) && (conc p === n0))%js
      | [] => false
      end in
    if fine then finalProfile
    else
      match finalProfile with
      | b :: rest =>
          if ((time_min pZero === time_min b) && (conc pZero === conc b))%js
          then b :: rest
          else pZero :: b :: rest
      | [] => [pZero]
      end
  else finalProfile.

Definition initLoop : LoopState := mkLoop [pZero] n0 n0.

Definition runLoop (tf gc : num) (gasFlowData : list FlowStep) : LoopState :=
  fold_left (loopBody tf gc) gasFlowData initLoop.

Definition calculateGasConcVsTime
    (gasFlowData : list FlowStep) (config : option Config) : list Point :=
  let tf := resolveTotalFlowrate config in
  let gc := resolveGasConcCyl2 config in
  match gasFlowData with
  | [] => [pZero]
  | _ => ensureStart (dedup (calculatedProfile (runLoop tf gc gasFlowData)))
  end.

End Profile.

(* ================================================================== *)
(** ** calculateGasConcVsTime over any arithmetic *)

(** The same function with its arithmetic as a parameter: [plus], [times]
    and [over] are what [+], [*] and [/] return.  The comparisons, the
    control flow and the arrays are those of [Profile]; numbers are taken by
    value, the sign of a zero being observed by no comparison and changing
    the value of no operation of this function (the only divisors are 60
    and a flow rate that is not [=== 0]). *)
Module ProfileWith.

Section Operations.

Variables plus times over : num -> num -> num.

Definition oneSecondInMinutes : num := over n1 n60.

(** The concentration of a step (lines 34-38). *)
Definition stepConcentration (tf gc : num) (step : FlowStep) : num :=
  if (tf === n0)%js
  then (if ((gc >? n0) && (targetGasFlow step >? n0))%js then PInf else n0)
  else over (times gc (targetGasFlow step)) tf.

(** "Point 1" (lines 43-54). *)
Definition pushPoint1 (profile : list Point) (t prev : num) : list Point :=
  let outer :=
    match Profile.lastOf profile with
    | None => true
    | Some lp =>
        ((time_min lp <? over t n60)
         || ((time_min lp === over t n60) && (conc lp !== prev)))%js
    end in
  let guard :=
    match Profile.lastOf profile with
    | None => false
    | Some lp => ((time_min lp === over t n60) && (conc lp === prev))%js
    end in
  if outer then
    if guard then profile else profile ++ [mkPoint (over t n60) prev]
  else profile.

(** "Point 2" (lines 58-72). *)
Definition pushPoint2 (profile : list Point) (t prev cur : num) : list Point :=
  let p2 := mkPoint (plus (over t n60) oneSecondInMinutes) cur in
  if (cur !== prev)%js then profile ++ [p2]
  else match Profile.lastOf profile with
       | Some lp => if (conc lp !== cur)%js then profile ++ [p2] else profile
       | None => profile
       end.

(** One iteration of the loop over [gasFlowData] (lines 29-80). *)
Definition loopBody (tf gc : num) (st : Profile.LoopState) (step : FlowStep)
  : Profile.LoopState :=
  let previousConcentration := Profile.currentConcentration st in
  let cur := stepConcentration tf gc step in
  let t := Profile.currentTimeSeconds st in
  let profile1 := pushPoint1 (Profile.calculatedProfile st) t previousConcentration in
  let profile2 := pushPoint2 profile1 t previousConcentration cur in
  let t' := plus t (durationSeconds step) in
  Profile.mkLoop (profile2 ++ [mkPoint (over t' n60) cur]) t' cur.

Definition runLoop (tf gc : num) (gasFlowData : list FlowStep)
  : Profile.LoopState :=
  fold_left (loopBody tf gc) gasFlowData Profile.initLoop.

Definition calculateGasConcVsTime
    (gasFlowData : list FlowStep) (config : option Profile.Config) : list Point :=
  let tf := Profile.resolveTotalFlowrate config in
  let gc := Profile.resolveGasConcCyl2 config in
  match gasFlowData with
  | [] => [Profile.pZero]
  | _ => Profile.ensureStart
           (Profile.dedup (Profile.calculatedProfile (runLoop tf gc gasFlowData)))
  end.

End Operations.

End ProfileWith.

(* ================================================================== *)
(** ** Double precision *)

(** The arithmetic of the machine: an operation of IEEE 754 returns the
    exact result rounded to the nearest double, ties to even, the infinity
    on overflow.  [round] rounds a rational by the Standard Library's
    [SFdiv] (53 bits of precision, exponents below 1024) applied to its
    numerator and denominator. *)
Module Binary64.

Definition prec : Z := 53.
Definition emax : Z := 1024.

(** an integer as an unrounded floating-point datum *)
Definition ofInteger (z : Z) : SpecFloat.spec_float :=
  match z with
  | Z0 => SpecFloat.S754_zero false
  | Zpos m => SpecFloat.S754_finite false m 0
  | Zneg m => SpecFloat.S754_finite true m 0
  end.

(** the number a floating-point datum stands for *)
Definition valueOf (f : SpecFloat.spec_float) : num :=
  match f with
  | SpecFloat.S754_zero _ => Fin 0
  | SpecFloat.S754_infinity false => PInf
  | SpecFloat.S754_infinity true => NInf
  | SpecFloat.S754_nan => NaN
  | SpecFloat.S754_finite s m e =>
      Fin (Qred (inject_Z (if s then Zneg m else Zpos m) * Qpower 2 e))
  end.

Definition round (x : num) : num :=
  match x with
  | Fin q =>
      valueOf (SpecFloat.SFdiv prec emax (ofInteger (Qnum q))
                 (ofInteger (Zpos (Qden q))))
  | _ => x
  end.

Definition add (x y : num) : num := round (JsNum.add x y).
Definition mul (x y : num) : num := round (JsNum.mul x y).
Definition div (x y : num) : num := round (JsNum.div x y).

End Binary64.

(* ================================================================== *)
(** ** interpolateGasConcentration *)

Module Sampler.

(** The [for] loop with its [break] (lines 197-204). *)
Fixpoint scan (points : list Point) (targetTimeMin resultConc : num) : num :=
  match points with
  | [] => resultConc
  | p :: r =>
      if (time_min p <=? targetTimeMin)%js
      then scan r targetTimeMin (conc p)
      else resultConc
  end.

Definition interpolateGasConcentration
    (concProfile : list Point) (targetTimeMin : num) : num :=
  if isNaN targetTimeMin then NaN
  else match concProfile with
       | [] => NaN
       | p0 :: _ =>
           if (targetTimeMin <? time_min p0)%js then conc p0
           else scan concProfile targetTimeMin (conc p0)
       end.

(** The previous-value-hold policy in the words of the specification:
    the undefined sentinel for an undefined query or an empty profile, the
    first point's concentration for a query before the first point, and
    otherwise the concentration of the last point whose time is at most the
    query (the sentinel should there be none). *)
Definition previousValueHold (profile : list Point) (t : num) : num :=
  if isNaN t then NaN
  else match profile with
       | [] => NaN
       | first :: _ =>
           if (t <? time_min first)%js then conc first
           else match Profile.lastOf
                        (filter (fun p => (time_min p <=? t)%js) profile) with
                | Some p => conc p
                | None => NaN
                end
       end.

(** A time-ordered profile: every time is a defined number and the times
    never decrease from one point to the next. *)
Fixpoint timeOrdered (profile : list Point) : bool :=
  match profile with
  | [] => true
  | a :: r =>
      negb (isNaN (time_min a))
      && match r with
         | [] => true
         | b :: _ => (time_min a <=? time_min b)%js
         end
      && timeOrdered r
  end.

End Sampler.

(* ================================================================== *)
(** ** processAllTimeSeriesFiles *)

Module Sensor.

(** One row of [processedTable]. *)
Record Reading : Type :=
  mkReading { original_time_s : string;
              time_s : num;
              time_min : num;
              impedance : num;
              phase : num;
              signal : num;
              gas_concentration : num }.

Definition timeColIdx : nat := 0.
Definition impedanceColIdx : nat := 7.
Definition phaseColIdx : nat := 8.
Definition minRequiredCols : nat :=
  Nat.max (Nat.max timeColIdx impedanceColIdx) phaseColIdx + 1.

(** [row[i]] of a row of strings *)
Definition col (row : list string) (i : nat) : string := nth i row EmptyString.

(** What happens to one file. *)
Inductive Outcome : Type :=
| SkippedParseFailure
| SkippedEmpty
| SkippedInsufficientColumns
| Processed (data : list Reading).

(** A file item after [parseCsvFile]: [None] when the parse was rejected. *)
Record FileItem : Type :=
  mkFileItem { effectiveName : string; rawData : option (list (list string)) }.

(** An entry of [sensorDataTablesResult]. *)
Record SensorTable : Type := mkTable { fileName : string; data : list Reading }.

(** the row returned for a row with too few columns (lines 188-191) *)
Definition invalidRow (row : list string) : Reading :=
  mkReading (if (timeColIdx <? List.length row)%nat then col row timeColIdx
             else "Invalid Row"%string)
            NaN NaN NaN NaN NaN NaN.

(** The table rows paired with their positions: the rows are distinct
    objects, so finding a row by identity finds its position. *)
Definition indexed (table : list Reading) : list (nat * Reading) :=
  combine (seq 0 (List.length table)) table.

(** the [filter] predicate of line 217 *)
Definition suitable (refTimeMinutes : num) (row : Reading) : bool :=
  (negb (isNaN (time_min row)) && (time_min row <=? refTimeMinutes))%js.

(** [refIdx] (lines 215-227), [None] for [-1] *)
Definition refIdx (table : list Reading) (refTimeMinutes : num) : option nat :=
  let suitablePointsForRef :=
    filter (fun ir => suitable refTimeMinutes (snd ir)) (indexed table) in
  match Profile.lastOf suitablePointsForRef with
  | Some lastSuitablePoint => Some (fst lastSuitablePoint)
  | None =>
      match table with
      | first :: _ => if negb (isNaN (time_min first)) then Some 0%nat else None
      | [] => None
      end
  end.

(** [imp_ref] (lines 229-231) *)
Definition imp_ref (table : list Reading) (refTimeMinutes : num) : num :=
  match refIdx table refTimeMinutes with
  | Some i =>
      match nth_error table i with
      | Some r => if negb (isNaN (impedance r)) then impedance r else NaN
      | None => NaN
      end
  | None => NaN
  end.

(** the value assigned to [row.signal] at lines 239-243 *)
Definition rawSignal (impRef : num) (row : Reading) : num :=
  if (negb (isNaN impRef) && (impRef !== n0) && negb (isNaN (impedance row)))%js
  then (((impedance row - impRef) / impRef) * n100)%js
  else NaN.

(** The body of the [forEach] (lines 238-255). *)
Definition finishRow (impRef : num) (gasConcProfile : list Point)
    (gasConcAvailable : bool) (row : Reading) : Reading :=
  let signal1 := rawSignal impRef row in
  let impedance' := if (impedance row >? n1e12)%js then NaN else impedance row in
  let signal' := if (abs signal1 >? n1e4)%js then NaN else signal1 in
  let gas :=
    if gasConcAvailable && (0 <? List.length gasConcProfile)%nat
       && negb (isNaN (time_min row))
    then Sampler.interpolateGasConcentration gasConcProfile (time_min row)
    else NaN in
  mkReading (original_time_s row) (time_s row) (time_min row)
            impedance' (phase row) signal' gas.

(** Lines 214-255 on a built table. *)
Definition finishTable (refTimeMinutes : num) (gasConcProfile : list Point)
    (gasConcAvailable : bool) (table : list Reading) : list Reading :=
  map (finishRow (imp_ref table refTimeMinutes) gasConcProfile gasConcAvailable)
      table.

Section Parsing.

(** [parseCustomDateTime(s)] followed by [getTime()]: the milliseconds of
    the instant, [None] when no valid date comes out. *)
Variable dateMillis : string -> option Z.
(** the built-in [parseFloat] *)
Variable parseFloat : string -> num.

Definition millis (s : string) : num :=
  match dateMillis s with Some z => of_Z z | None => NaN end.

(** The callback of [rawDataArray.map] (lines 184-212). *)
Definition rowToReading (currentFileT0Milliseconds : num) (row : list string)
  : Reading :=
  if (List.length row <? minRequiredCols)%nat then invalidRow row
  else
    let currentDateString := col row timeColIdx in
    let currentMilliseconds := millis currentDateString in
    let relative_time_s :=
      if negb (isNaN currentMilliseconds)
         && negb (isNaN currentFileT0Milliseconds)
      then ((currentMilliseconds - currentFileT0Milliseconds) / n1000)%js
      else NaN in
    mkReading currentDateString relative_time_s (relative_time_s / n60)%js
              (parseFloat (col row impedanceColIdx))
              (parseFloat (col row phaseColIdx)) NaN NaN.

(** [processedTable] before the baseline is applied. *)
Definition buildTable (rawDataArray : list (list string)) : list Reading :=
  match rawDataArray with
  | [] => []
  | first :: _ =>
      map (rowToReading (millis (col first timeColIdx))) rawDataArray
  end.

(** One iteration of the loop over the files (lines 142-265). *)
Definition processFile (refTimeMinutes : num) (gasConcProfile : list Point)
    (gasConcAvailable : bool) (item : FileItem) : Outcome :=
  match rawData item with
  | None => SkippedParseFailure
  | Some [] => SkippedEmpty
  | Some (first :: rest) =>
      if (List.length first <? minRequiredCols)%nat then SkippedInsufficientColumns
      else Processed (finishTable refTimeMinutes gasConcProfile gasConcAvailable
                        (buildTable (first :: rest)))
  end.

Definition processAllTimeSeriesFiles (timeSeriesFileItems : list FileItem)
    (refTimeMinutes : num) (gasConcProfile : list Point)
    (gasConcAvailable : bool) : list SensorTable :=
  fold_left
    (fun sensorDataTablesResult item =>
       match processFile refTimeMinutes gasConcProfile gasConcAvailable item with
       | Processed table =>
           sensorDataTablesResult ++ [mkTable (effectiveName item) table]
       | _ => sensorDataTablesResult
       end)
    timeSeriesFileItems [].

End Parsing.

(** Baseline selection in the words of the specification.  A row
    qualifies when its [time_min] is defined and at most the reference
    time. *)
Definition definedNotAfter (referenceTimeMinutes : num) (row : Reading) : Prop :=
  isNaN (time_min row) = false
  /\ (time_min row <=? referenceTimeMinutes)%js = true.

(** position [i] holds the last row that qualifies *)
Definition lastQualifying (table : list Reading) (referenceTimeMinutes : num)
    (i : nat) : Prop :=
  exists row,
    nth_error table i = Some row
    /\ definedNotAfter referenceTimeMinutes row
    /\ forall j later,
         (i < j)%nat -> nth_error table j = Some later ->
         ~ definedNotAfter referenceTimeMinutes later.

(** position [i] holds the first row with a defined [time_min] *)
Definition firstDefined (table : list Reading) (i : nat) : Prop :=
  exists row,
    nth_error table i = Some row
    /\ isNaN (time_min row) = false
    /\ forall j earlier,
         (j < i)%nat -> nth_error table j = Some earlier ->
         isNaN (time_min earlier) = true.

(** [choice] is the baseline the specification asks for: the last
    qualifying row; if no row qualifies, the first row with a defined
    [time_min]; no row at all when no [time_min] is defined. *)
Definition isBaseline (table : list Reading) (referenceTimeMinutes : num)
    (choice : option nat) : Prop :=
  match choice with
  | Some i =>
      lastQualifying table referenceTimeMinutes i
      \/ ((forall row, In row table -> ~ definedNotAfter referenceTimeMinutes row)
          /\ firstDefined table i)
  | None => forall row, In row table -> isNaN (time_min row) = true
  end.

(** The signal formula in the words of the specification. *)
Definition signalFormula (baselineImpedance imp : num) : num :=
  if (negb (isNaN imp) && negb (isNaN baselineImpedance)
      && (baselineImpedance !== n0))%js
  then (((imp - baselineImpedance) / baselineImpedance) * n100)%js
  else NaN.

End Sensor.

(* ================================================================== *)
(** ** Concrete data used in the examples *)

Definition pt (t c : Z) : Point := mkPoint (of_Z t) (of_Z c).
Definition fs (f d : Z) : FlowStep := mkFlowStep (of_Z f) (of_Z d).
Definition cfg (tf gc : Z) : option Profile.Config :=
  Some (Profile.mkConfig (Profile.JNumber (of_Z tf)) (Profile.JNumber (of_Z gc))).

(** a built row at [t] minutes with impedance [z] *)
Definition reading (t z : Z) : Sensor.Reading :=
  Sensor.mkReading "" (of_Z (t * 60)) (of_Z t) (of_Z z) n0 NaN NaN.

(** A date parser and a number parser that know the few strings of the
    examples. *)
Definition demoDateMillis (s : string) : option Z :=
  if String.eqb s "01/01/2024 00:00:00" then Some 0%Z
  else if String.eqb s "01/01/2024 00:01:00" then Some 60000%Z
  else if String.eqb s "01/01/2024 00:02:00" then Some 120000%Z
  else if String.eqb s "01/01/2024 00:03:00" then Some 180000%Z
  else None.

Definition demoParseFloat (s : string) : num :=
  if String.eqb s "100" then of_Z 100
  else if String.eqb s "150" then of_Z 150
  else if String.eqb s "0" then of_Z 0
  else NaN.

(** a raw row of nine columns: time stamp, impedance (column 7), phase *)
Definition rawRow (stamp imp : string) : list string :=
  [stamp; ""; ""; ""; ""; ""; ""; imp; "0"]%string.

Definition demoRows : list (list string) :=
  [rawRow "01/01/2024 00:00:00" "100"; rawRow "01/01/2024 00:01:00" "100";
   rawRow "01/01/2024 00:02:00" "150"; rawRow "01/01/2024 00:03:00" "100"]%string.

(** a number parser that also knows two more impedances *)
Definition baselineParseFloat (s : string) : num :=
  if String.eqb s "110" then of_Z 110
  else if String.eqb s "120" then of_Z 120
  else demoParseFloat s.

(** four rows a minute apart, each with an impedance of its own *)
Definition baselineRows : list (list string) :=
  [rawRow "01/01/2024 00:00:00" "100"; rawRow "01/01/2024 00:01:00" "110";
   rawRow "01/01/2024 00:02:00" "150"; rawRow "01/01/2024 00:03:00" "120"]%string.

(** the rows of the baseline scenario of the specification *)
Definition scenarioTable : list Sensor.Reading :=
  [reading 0 100; reading 1 100; reading 2 150; reading 3 100].

(** a baseline of 1 and a reading a thousand times larger *)
Definition largeSignalTable : list Sensor.Reading :=
  [reading 0 1; reading 1 1000].

(** a reading of large magnitude below zero *)
Definition negativeImpedanceTable : list Sensor.Reading :=
  [reading 0 (-2000000000000)].

(** a file whose first row has a single column *)
Definition shortFirstRowFile : Sensor.FileItem :=
  Sensor.mkFileItem "sensor1.csv"
    (Some (["01/01/2024 00:00:00"%string] :: demoRows)).

(** a file whose second row has a single column *)
Definition shortSecondRowFile : Sensor.FileItem :=
  Sensor.mkFileItem "sensor2.csv"
    (Some (rawRow "01/01/2024 00:00:00" "100"
           :: ["01/01/2024 00:01:00"%string]
           :: [rawRow "01/01/2024 00:02:00" "150"])).

(* ================================================================== *)
(** ** Vocabulary of the properties *)

Definition hasDuration (e : Event) : Prop := (endTime e >? startTime e)%js = true.




(** a duration that is a finite number of at least one second *)
Definition atLeastOneSecond (step : FlowStep) : bool :=
  match durationSeconds step with
  | Fin d => Qle_bool 1 d
  | _ => false
  end.

(** [b] may follow [a] in a profile that can be sampled back: its time is
    not earlier, and at an equal time it carries the same concentration. *)
Definition follows (a b : Point) : Prop :=
  (time_min a <=? time_min b)%js = true
  /\ ((time_min a === time_min b)%js = true -> conc a = conc b).


(** every numeric field of the reading is the undefined sentinel *)
Definition allUndefined (r : Sensor.Reading) : Prop :=
  Sensor.time_s r = NaN /\ Sensor.time_min r = NaN /\ Sensor.impedance r = NaN
  /\ Sensor.phase r = NaN /\ Sensor.signal r = NaN
  /\ Sensor.gas_concentration r = NaN.

(** the tables a file contributes to [sensorDataTablesResult] *)
Definition tablesOf (dateMillis : string -> option Z)
    (parseFloat : string -> num) (refTimeMinutes : num)
    (gasConcProfile : list Point) (gasConcAvailable : bool)
    (item : Sensor.FileItem) : list Sensor.SensorTable :=
  match Sensor.processFile dateMillis parseFloat refTimeMinutes gasConcProfile
          gasConcAvailable item with
  | Sensor.Processed table => [Sensor.mkTable (Sensor.effectiveName item) table]
  | _ => []
  end.

(** the time of the point is a defined number *)
Definition timeDefined (p : Point) : Prop := isNaN (time_min p) = false.


(** The three times of every step, as the loop computes them with [plus]
    and [over] from the seconds [t] elapsed so far: the step's start
    [t / 60], its transition point [t / 60 + 1 / 60] and its end
    [(t + durationSeconds) / 60].  The start is [before] the transition
    point and the transition point is not after the end. *)
Fixpoint stepsAdvance (plus over : num -> num -> num)
    (before : num -> num -> bool) (t : num) (steps : list FlowStep) : bool :=
  match steps with
  | [] => true
  | step :: rest =>
      let start := over t n60 in
      let transition := plus start (over n1 n60) in
      let t' := plus t (durationSeconds step) in
      before start transition
      && (transition <=? over t' n60)%js
      && stepsAdvance plus over before t' rest
  end.


(** every transition point lies after the start of its step and not after
    its end: start [<] transition [<=] end *)
Definition transitionAfterStart (plus over : num -> num -> num)
    (gasFlowData : list FlowStep) : bool :=
  (n0 <=? over n0 n60)%js && stepsAdvance plus over JsNum.lt n0 gasFlowData.


(** The invariant of the loop when every transition point lies after the
    start of its step: the profile is sorted for [follows], and its last
    point is not after the current time and carries the current
    concentration. *)
Definition loopSampled (over : num -> num -> num) (st : Profile.LoopState)
  : Prop :=
  Sorted follows (Profile.calculatedProfile st)
  /\ Forall timeDefined (Profile.calculatedProfile st)
  /\ exists lp,
       Profile.lastOf (Profile.calculatedProfile st) = Some lp
       /\ (time_min lp <=? over (Profile.currentTimeSeconds st) n60)%js = true
       /\ conc lp = Profile.currentConcentration st.

(** The invariant of the loop of [calculateGasConcVsTime] when every step
    lasts at least one second: the profile is sorted for [follows], and its
    last point is at the current time with the current concentration. *)
Definition loopInv (st : Profile.LoopState) : Prop :=
  Sorted follows (Profile.calculatedProfile st)
  /\ Forall timeDefined (Profile.calculatedProfile st)
  /\ exists q lp,
       Profile.currentTimeSeconds st = Fin q
       /\ Profile.lastOf (Profile.calculatedProfile st) = Some lp
       /\ time_min lp = (Fin q / n60)%js
       /\ conc lp = Profile.currentConcentration st.

(* ================================================================== *)
(** ** Vocabulary of the further properties *)

(** a point of positive concentration *)
Definition positivePoint (p : Point) : bool := (conc p >? n0)%js.

(** What the active event is worth in points of positive concentration:
    one for the point that opened it, one more once a later point has
    extended it. *)
Definition credit (st : Events.State) : nat :=
  match Events.activeEvent st with
  | None => 0
  | Some a => if (endTime a >? startTime a)%js then 2 else 1
  end.

(** [e] runs from a point of positive concentration of the profile to a
    point of the profile with the same concentration. *)
Definition spansPoints (profile : list Point) (e : Event) : Prop :=
  exists p q,
    In p profile /\ In q profile
    /\ startTime e = time_min p /\ concentration e = conc p
    /\ (conc p >? n0)%js = true
    /\ endTime e = time_min q /\ (conc q === conc p)%js = true.

(** the active event was opened by a point of the profile and its end time
    is the time of a point with the same concentration *)
Definition activeSpans (profile : list Point) (st : Events.State) : Prop :=
  match Events.activeEvent st with
  | None => True
  | Some a => spansPoints profile a
  end.
(** The invariant of the scan: pushed events and the active one are paid
    for by [k] points of positive concentration, and the active event has a
    positive concentration. *)
Definition paidBy (st : Events.State) (k : nat) : Prop :=
  (2 * List.length (Events.events st) + credit st <= k)%nat
  /\ match Events.activeEvent st with
     | Some a => (concentration a >? n0)%js = true
     | None => True
     end.

(** The loop body without its guards: the transition point when the
    concentration changes, then the end point of the step. *)
Definition plainBody (tf gc : num) (st : Profile.LoopState) (step : FlowStep)
  : Profile.LoopState :=
  let prev := Profile.currentConcentration st in
  let cur := Profile.stepConcentration tf gc step in
  let t := Profile.currentTimeSeconds st in
  let t' := (t + durationSeconds step)%js in
  Profile.mkLoop
    (Profile.calculatedProfile st
     ++ (if (cur !== prev)%js
         then [mkPoint (t / n60 + Profile.oneSecondInMinutes)%js cur]
         else [])
     ++ [mkPoint (t' / n60)%js cur])
    t' cur.

(** the seconds elapsed at the end of the schedule, summed as the loop does *)
Definition totalSeconds (gasFlowData : list FlowStep) : num :=
  fold_left (fun t step => (t + durationSeconds step)%js) gasFlowData n0.

(** [c] is the initial concentration 0 or the concentration of a step *)
Definition knownConcentration (tf gc : num) (gasFlowData : list FlowStep)
    (c : num) : Prop :=
  c = n0 \/ exists step, In step gasFlowData
                         /\ c = Profile.stepConcentration tf gc step.

(** the profile ends at the loop's current time and concentration, which is
    a defined number *)
Definition endsAtCurrent (st : Profile.LoopState) : Prop :=
  isNaN (Profile.currentConcentration st) = false
  /\ exists lp,
       Profile.lastOf (Profile.calculatedProfile st) = Some lp
       /\ time_min lp = (Profile.currentTimeSeconds st / n60)%js
       /\ conc lp = Profile.currentConcentration st.

(** a file item that reaches the row loop: it parsed, has a row, and its
    first row has the required columns *)
Definition processable (item : Sensor.FileItem) : bool :=
  match Sensor.rawData item with
  | Some (first :: _) => (Sensor.minRequiredCols <=? List.length first)%nat
  | _ => false
  end.

(** The date parser with its origin moved: the same texts parse, and every
    value returned is [k] milliseconds later.  (The texts of the files, and
    with them [original_time_s], stay as they are.) *)
Definition shifted (k : Z) (dateMillis : string -> option Z) (s : string)
  : option Z :=
  option_map (Z.add k) (dateMillis s).

(* ================================================================== *)
(** ** timeStringToMinutes *)

Module TimeParsing.

(** Strings are handled as lists of characters. *)
Definition chars (s : string) : list ascii := list_ascii_of_string s.

(** [\d] *)
Definition isDigit (c : ascii) : bool :=
  let n := nat_of_ascii c in ((48 <=? n) && (n <=? 57))%nat.

(** the white space and line terminators that [trim] removes, among the
    ASCII characters: tab, line feed, vertical tab, form feed, carriage
    return and space *)
Definition isWhite (c : ascii) : bool :=
  let n := nat_of_ascii c in ((9 <=? n) && (n <=? 13) || (n =? 32))%nat.

Fixpoint dropWhite (l : list ascii) : list ascii :=
  match l with
  | c :: r => if isWhite c then dropWhite r else l
  | [] => []
  end.

(** [s.trim()] *)
Definition trim (l : list ascii) : list ascii :=
  rev (dropWhite (rev (dropWhite l))).

(** [s.split(sep)] for a one-character separator: the fields between the
    separators, a single empty field for the empty string *)
Fixpoint split (sep : ascii) (l : list ascii) : list (list ascii) :=
  match l with
  | [] => [[]]
  | c :: r =>
      if Ascii.eqb c sep then [] :: split sep r
      else match split sep r with
           | field :: fields => (c :: field) :: fields
           | [] => [[c]]
           end
  end.

(** the number written by a string of digits *)
Definition digitsValue (ds : list ascii) : Z :=
  fold_left (fun acc c => (10 * acc + Z.of_nat (nat_of_ascii c - 48))%Z) ds 0%Z.

(** [\d{1,2}] *)
Definition oneOrTwoDigits (l : list ascii) : bool :=
  ((1 <=? List.length l) && (List.length l <=? 2))%nat && forallb isDigit l.

(** [\d+] *)
Definition someDigits (l : list ascii) : bool :=
  (1 <=? List.length l)%nat && forallb isDigit l.

(** [parseFloat] of a field matched by [\d{1,2}], [None] when the field
    does not have that shape *)
Definition wholeField (l : list ascii) : option Q :=
  if oneOrTwoDigits l then Some (inject_Z (digitsValue l)) else None.

(** [parseFloat] of a field matched by [\d{1,2}(?:\.\d+)?]: the decimal
    number it writes *)
Definition secondsField (l : list ascii) : option Q :=
  match split "."%char l with
  | [whole] => wholeField whole
  | [whole; fraction] =>
      if oneOrTwoDigits whole && someDigits fraction
      then Some (inject_Z (digitsValue whole)
                 + inject_Z (digitsValue fraction)
                   / inject_Z (10 ^ Z.of_nat (List.length fraction)))%Q
      else None
  | _ => None
  end.

(** The match of [^(?:(\d{1,2}):)?(\d{1,2}):(\d{1,2}(?:\.\d+)?)$] read as
    numbers: no digit group holds a colon, so the colons of the string are
    the separators of the groups. *)
Definition matchTime (l : list ascii) : option (Q * Q * Q) :=
  match split ":"%char l with
  | [m; s] =>
      match wholeField m, secondsField s with
      | Some minutes, Some seconds => Some (0%Q, minutes, seconds)
      | _, _ => None
      end
  | [h; m; s] =>
      match wholeField h, wholeField m, secondsField s with
      | Some hours, Some minutes, Some seconds => Some (hours, minutes, seconds)
      | _, _, _ => None
      end
  | _ => None
  end.

(** Lines 9-42.  After the pattern has matched, the three groups parse to
    numbers, so the [isNaN] safeguard and the [catch] are never taken. *)
Definition timeStringToMinutes (timeStr : string) : num :=
  match timeStr with
  | EmptyString => NaN
  | _ =>
      match matchTime (trim (chars timeStr)) with
      | None => NaN
      | Some (hours, minutes, seconds) =>
          ((Fin hours * n60) + Fin minutes + (Fin seconds / n60))%js
      end
  end.

End TimeParsing.

(** the string has a single colon *)
Definition oneColon (s : string) : Prop :=
  count_occ ascii_dec (TimeParsing.chars s) ":"%char = 1%nat.

(** the string does not begin with white space *)
Definition noLeadingWhite (s : string) : Prop :=
  TimeParsing.dropWhite (TimeParsing.chars s) = TimeParsing.chars s.

(** every character of the string is white space *)
Definition allWhite (s : string) : Prop :=
  Forall (fun c => TimeParsing.isWhite c = true) (TimeParsing.chars s).

(* ================================================================== *)
(** ** parseGasFlowFile *)

Module GasFlow.

(** Why no schedule comes out; the caller sees all three as the error
    "Failed to parse gas flow file". *)
Inductive Failure : Type :=
| CsvRejected
| NoRows
| NoValidData.

Inductive Outcome : Type :=
| Parsed (gasFlowData : list FlowStep)
| Failed (why : Failure).

Section Rows.

(** the built-in [parseFloat] *)
Variable parseFloat : string -> num.

(** The callback of [parsedRows.map] (lines 69-82): [None] for a row that
    is dropped. *)
Definition rowToStep (row : list string) : option FlowStep :=
  if (List.length row <? 3)%nat then None
  else
    let targetGasFlow := parseFloat (nth 1 row EmptyString) in
    let durationSeconds := parseFloat (nth 2 row EmptyString) in
    if isNaN targetGasFlow || isNaN durationSeconds then None
    else Some (mkFlowStep targetGasFlow durationSeconds).

(** the [map] followed by [filter(r => r !== null)] *)
Fixpoint validSteps (parsedRows : list (list string)) : list FlowStep :=
  match parsedRows with
  | [] => []
  | row :: rows =>
      match rowToStep row with
      | Some step => step :: validSteps rows
      | None => validSteps rows
      end
  end.

(** [parseGasFlowFile] after the file was read: [parsedRows] is what
    [parseCsvFile] resolved with, [None] when it rejected. *)
Definition parseGasFlowFile (parsedRows : option (list (list string)))
  : Outcome :=
  match parsedRows with
  | None => Failed CsvRejected
  | Some [] => Failed NoRows
  | Some rows =>
      match validSteps rows with
      | [] => Failed NoValidData
      | gasFlowData => Parsed gasFlowData
      end
  end.

End Rows.

End GasFlow.

(* ================================================================== *)
(** ** runTimeSeriesAnalysis *)

Module Run.

(** [Math.max(a, b)] and [Math.min(a, b)] *)
Definition mathMax (a b : num) : num :=
  if isNaN a || isNaN b then NaN else if (a <? b)%js then b else a.

Definition mathMin (a b : num) : num :=
  if isNaN a || isNaN b then NaN else if (b <? a)%js then b else a.

(** the value [updateOverallProgress] passes to [setProgressBarValue] *)
Definition progressValue (current total : num) : num :=
  let percentage :=
    if (total >? n0)%js then ((current / total) * n100)%js else n0 in
  mathMin n100 (mathMax n0 percentage).

(** the fields of [currentConfig] the analysis reads, as the text
    [parseFloat] and [timeStringToMinutes] are given *)
Record AppConfig : Type :=
  mkAppConfig { gasConcCyl2 : string; totalFlowrate : string;
                refTimeStr : string }.

(** What the analysis hands to its callbacks, in the order of the calls.
    The log messages are left out. *)
Inductive Effect : Type :=
| SetProgress (value : num)
| SetGasConcProfileResult (profile : list Point)
| SetGasExposureEvents (events : list Event)
| SetTimeSeriesDataResult (tables : list Sensor.SensorTable).

Definition count (n : nat) : num := of_Z (Z.of_nat n).

Section Analysis.

Variable dateMillis : string -> option Z.
Variable parseFloat : string -> num.

(** The state after step 1 (lines 44-89): the effects so far, the profile
    and the flag handed to the sensor files, and [overallStep]. *)
Record GasStage : Type :=
  mkGasStage { effects : list Effect;
               calculatedGasConcProfile : list Point;
               gasFlowSuccessfullyProcessed : bool;
               overallStep : nat }.

(** the [catch (gasError)] block *)
Definition gasFailed (done : list Effect) (step : nat) : GasStage :=
  mkGasStage (done ++ [SetGasConcProfileResult []; SetGasExposureEvents []])
             [] false step.

(** Step 1: the gas flow table.  [gasFlowFile] is [None] without a file and
    otherwise what [parseCsvFile] gave for it. *)
Definition gasStage (gasFlowFile : option (option (list (list string))))
    (currentConfig : AppConfig) (total : nat) : GasStage :=
  let start := [SetProgress (progressValue (count 0) (count total))] in
  match gasFlowFile with
  | None =>
      mkGasStage
        (start ++ [SetGasConcProfileResult []; SetGasExposureEvents []])
        [] true 0
  | Some parsedRows =>
      match GasFlow.parseGasFlowFile parseFloat parsedRows with
      | GasFlow.Failed _ => gasFailed start 0
      | GasFlow.Parsed parsedGasFlow =>
          let afterParse :=
            start ++ [SetProgress (progressValue (count 1) (count total))] in
          let gc := parseFloat (gasConcCyl2 currentConfig) in
          let tf := parseFloat (totalFlowrate currentConfig) in
          if isNaN gc then gasFailed afterParse 1
          else
            let profile :=
              Profile.calculateGasConcVsTime parsedGasFlow
                (Some (Profile.mkConfig (Profile.JNumber tf)
                         (Profile.JNumber gc))) in
            mkGasStage
              (afterParse
               ++ [SetGasConcProfileResult profile;
                   SetGasExposureEvents
                     (Events.identifyGasExposureEvents profile);
                   SetProgress (progressValue (count 2) (count total))])
              profile true 2
      end
  end.

(** The whole analysis: the effects in order and the value returned.  The
    files have been read: each file item, and the gas flow file, carries
    what [parseCsvFile] gave for it. *)
Definition runTimeSeriesAnalysis
    (categorizedTimeSeriesFiles : list Sensor.FileItem)
    (gasFlowFile : option (option (list (list string))))
    (currentConfig : AppConfig) : list Effect * bool :=
  let n := List.length categorizedTimeSeriesFiles in
  let totalOverallSteps :=
    (1 + n + match gasFlowFile with Some _ => 2 | None => 0 end)%nat in
  let stage := gasStage gasFlowFile currentConfig totalOverallSteps in
  let step := S (overallStep stage) in
  let afterGas :=
    effects stage
    ++ [SetProgress (progressValue (count step) (count totalOverallSteps))] in
  let refTimeMinutes :=
    TimeParsing.timeStringToMinutes (refTimeStr currentConfig) in
  if isNaN refTimeMinutes then (afterGas, false)
  else
    let tables :=
      Sensor.processAllTimeSeriesFiles dateMillis parseFloat
        categorizedTimeSeriesFiles refTimeMinutes
        (calculatedGasConcProfile stage)
        (gasFlowSuccessfullyProcessed stage) in
    (afterGas
     ++ map (fun completed =>
               SetProgress (progressValue (count (step + completed))
                              (count totalOverallSteps)))
            (seq 1 n)
     ++ [SetTimeSeriesDataResult tables;
         SetProgress (progressValue (count totalOverallSteps)
                        (count totalOverallSteps))],
     true).

End Analysis.

(** the progress values among the effects *)
Fixpoint progressValues (trace : list Effect) : list num :=
  match trace with
  | [] => []
  | SetProgress v :: r => v :: progressValues r
  | _ :: r => progressValues r
  end.

(** the effects without the progress values *)
Fixpoint results (trace : list Effect) : list Effect :=
  match trace with
  | [] => []
  | SetProgress _ :: r => results r
  | e :: r => e :: results r
  end.

End Run.


(** a percentage between 0 and 100 *)
Definition percent (v : num) : Prop :=
  exists q, v = Fin q /\ 0 <= q <= 100.

(** the values never decrease *)
Fixpoint ascending (l : list num) : Prop :=
  match l with
  | a :: (b :: _) as r => (a <=? b)%js = true /\ ascending r
  | _ => True
  end.

(** a parser for the numbers of the examples *)
Definition demoParse (s : string) : num :=
  if String.eqb s "60" then of_Z 60
  else if String.eqb s "120" then of_Z 120
  else if String.eqb s "50" then of_Z 50
  else if String.eqb s "500" then of_Z 500
  else demoParseFloat s.

Definition demoConfig : Run.AppConfig :=
  Run.mkAppConfig "50" "500" "0:01:30".

Definition demoGasRows : list (list string) :=
  [["1"; "0"; "60"]; ["2"; "100"; "120"]; ["#"; "x"; "y"]]%string.

Definition demoFiles : list Sensor.FileItem :=
  [Sensor.mkFileItem "sensor1.csv" (Some demoRows)].

(** a rational clamped to the percentages, as [Math.min(100, Math.max(0, q))]
    does *)
Definition clampQ (q : Q) : Q :=
  if Qlt_bool 0 q then (if Qlt_bool q 100 then q else 100) else 0.

(** the [overallStep] values the analysis reports to the progress bar, in
    order: [afterGas] is its value after step 1, [n] the number of files *)
Definition reportedSteps (afterGas n total : nat) (finished : bool)
  : list nat :=
  seq 0 (S afterGas)
  ++ (if finished then seq (S afterGas) n ++ [total] else []).

(** [e] is the event of the run of points [block]: it starts at the first
    and ends at the last of them, and all of them have its concentration. *)
Definition blockOf (block : list Point) (e : Event) : Prop :=
  exists first final,
    hd_error block = Some first /\ Profile.lastOf block = Some final
    /\ startTime e = time_min first /\ endTime e = time_min final
    /\ Forall (fun p => (conc p === concentration e)%js = true) block.

(** [e] is the event of a run of consecutive points of the profile *)
Definition covers (profile : list Point) (e : Event) : Prop :=
  exists pre block post, profile = pre ++ block ++ post /\ blockOf block e.

(** the active event is the event of the run that ends the points seen *)
Definition activeBlock (seen : list Point) (st : Events.State) : Prop :=
  match Events.activeEvent st with
  | None => True
  | Some a => exists pre block, seen = pre ++ block /\ blockOf block a
  end.

(** each event ends no later than the next one starts *)
Fixpoint chronological (evs : list Event) : Prop :=
  match evs with
  | a :: (b :: _) as r =>
      (endTime a <=? startTime b)%js = true /\ chronological r
  | _ => True
  end.

(** The invariant of the scan of a time-ordered profile, [rest] being the
    points still to come: the events pushed are in order, the last of them
    ends before the active event starts and before every point to come, and
    the active event does not end after a point to come. *)
Definition inOrder (rest : list Point) (st : Events.State) : Prop :=
  chronological (Events.events st)
  /\ (forall final, Profile.lastOf (Events.events st) = Some final ->
        Forall (fun p => (endTime final <=? time_min p)%js = true) rest
        /\ match Events.activeEvent st with
           | Some a => (endTime final <=? startTime a)%js = true
           | None => True
           end)
  /\ match Events.activeEvent st with
     | Some a =>
         (startTime a <=? endTime a)%js = true
         /\ Forall (fun p => (endTime a <=? time_min p)%js = true) rest
     | None => True
     end.

(* ================================================================== *)
(** * Properties *)

(** ** The order on JavaScript numbers *)

Section NumOrder.

Lemma Qlt_bool_iff (x y : Q) : Qlt_bool x y = true <-> (x < y)%Q.
Proof.
  unfold Qlt_bool. rewrite negb_true_iff.
  split; intro H.
  - apply Qnot_le_lt. intro Hle. apply Qle_bool_iff in Hle. congruence.
  - destruct (Qle_bool y x) eqn:E; trivial.
    apply Qle_bool_iff in E. exfalso. apply (Qlt_not_le _ _ H E).
Qed.

Lemma le_defined (x y : num) :
  (x <=? y)%js = true -> isNaN x = false /\ isNaN y = false.
Proof. destruct x, y; simpl; intro H; split; trivial; discriminate. Qed.

Lemma le_refl (x : num) : isNaN x = false -> (x <=? x)%js = true.
Proof.
  destruct x; simpl; intro H; trivial; try discriminate.
  apply Qle_bool_iff. apply Qle_refl.
Qed.

Lemma le_trans (x y z : num) :
  (x <=? y)%js = true -> (y <=? z)%js = true -> (x <=? z)%js = true.
Proof.
  destruct x, y, z; simpl; intros H1 H2; trivial; try discriminate.
  apply Qle_bool_iff in H1. apply Qle_bool_iff in H2.
  apply Qle_bool_iff. eapply Qle_trans; eassumption.
Qed.

Lemma le_antisym (x y : num) :
  (x <=? y)%js = true -> (y <=? x)%js = true -> (x === y)%js = true.
Proof.
  destruct x, y; simpl; intros H1 H2; trivial; try discriminate.
  apply Qle_bool_iff in H1. apply Qle_bool_iff in H2.
  apply Qeq_bool_iff. apply Qle_antisym; assumption.
Qed.

Lemma eq_le (x y : num) : (x === y)%js = true -> (x <=? y)%js = true.
Proof.
  destruct x, y; simpl; intro H; trivial; try discriminate.
  apply Qeq_bool_iff in H. apply Qle_bool_iff. rewrite H. apply Qle_refl.
Qed.

Lemma eq_sym (x y : num) : (x === y)%js = (y === x)%js.
Proof.
  destruct x, y; simpl; trivial.
  destruct (Qeq_bool q q0) eqn:E1, (Qeq_bool q0 q) eqn:E2; trivial.
  - apply Qeq_bool_iff in E1. symmetry in E1. apply Qeq_bool_iff in E1. congruence.
  - apply Qeq_bool_iff in E2. symmetry in E2. apply Qeq_bool_iff in E2. congruence.
Qed.

Lemma eq_trans (x y z : num) :
  (x === y)%js = true -> (y === z)%js = true -> (x === z)%js = true.
Proof.
  destruct x, y, z; simpl; intros H1 H2; trivial; try discriminate.
  apply Qeq_bool_iff in H1. apply Qeq_bool_iff in H2.
  apply Qeq_bool_iff. rewrite H1. exact H2.
Qed.

(** On defined numbers the order is total. *)
Lemma not_lt_le (x y : num) :
  isNaN x = false -> isNaN y = false ->
  (x <? y)%js = false -> (y <=? x)%js = true.
Proof.
  destruct x, y; simpl; intros Hx Hy H; trivial; try discriminate.
  unfold Qlt_bool in H. apply negb_false_iff in H. exact H.
Qed.

Lemma lt_le (x y : num) : (x <? y)%js = true -> (x <=? y)%js = true.
Proof.
  destruct x, y; simpl; intro H; trivial; try discriminate.
  apply Qlt_bool_iff in H. apply Qle_bool_iff. apply Qlt_le_weak. exact H.
Qed.

Lemma lt_not_le (x y : num) : (x <? y)%js = true -> (y <=? x)%js = false.
Proof.
  destruct x, y; simpl; intro H; trivial; try discriminate.
  unfold Qlt_bool in H. apply negb_true_iff in H. exact H.
Qed.

End NumOrder.

(** ** Arrays *)

Lemma lastOf_snoc (A : Type) (l : list A) (x : A) :
  Profile.lastOf (l ++ [x]) = Some x.
Proof.
  induction l as [|a l IH]; simpl; trivial.
  rewrite IH. destruct (l ++ [x]) eqn:E; trivial.
  destruct l; discriminate.
Qed.

Lemma lastOf_cons (A : Type) (a b : A) (l : list A) :
  Profile.lastOf (a :: b :: l) = Profile.lastOf (b :: l).
Proof. reflexivity. Qed.

Lemma lastOf_In (A : Type) (l : list A) (x : A) :
  Profile.lastOf l = Some x -> In x l.
Proof.
  induction l as [|a l IH]; simpl; [discriminate|].
  destruct l as [|b l].
  - intro H. injection H as ->. now left.
  - intro H. right. apply IH. exact H.
Qed.

(* ================================================================== *)
(** ** Exposure events *)

Lemma pushIfDuration_ok (evs : list Event) (a : Event) :
  Forall hasDuration evs -> Forall hasDuration (Events.pushIfDuration evs a).
Proof.
  intro H. unfold Events.pushIfDuration.
  destruct (endTime a >? startTime a)%js eqn:E; trivial.
  apply Forall_app. split; trivial. constructor; [exact E | constructor].
Qed.

Lemma step_ok (st : Events.State) (point : Point) :
  Forall hasDuration (Events.events st) ->
  Forall hasDuration (Events.events (Events.step st point)).
Proof.
  intro H. unfold Events.step.
  destruct (Events.activeEvent st) as [a|].
  - destruct (_ && _)%bool; simpl; trivial.
    destruct (_ || _)%bool; simpl; trivial.
    now apply pushIfDuration_ok.
  - destruct (conc point >? n0)%js; simpl; trivial.
Qed.

Lemma loop_ok (profile : list Point) (st : Events.State) :
  Forall hasDuration (Events.events st) ->
  Forall hasDuration (Events.events (fold_left Events.step profile st)).
Proof.
  revert st. induction profile as [|p profile IH]; intros st H; simpl; trivial.
  apply IH. now apply step_ok.
Qed.

Lemma finish_ok (st : Events.State) :
  Forall hasDuration (Events.events st) -> Forall hasDuration (Events.finish st).
Proof.
  intro H. unfold Events.finish.
  destruct (Events.activeEvent st) as [a|]; trivial.
  destruct (endTime a >? startTime a)%js eqn:E; trivial.
  destruct (match rev (Events.events st) with [] => false | e :: _ => Events.sameEvent e a end);
    trivial.
  apply Forall_app. split; trivial. constructor; [exact E | constructor].
Qed.

(** C9: whatever the input sequence, ordered or not, every event returned by
    [identifyGasExposureEvents] has [endTime > startTime]; no event of zero
    duration is emitted. *)
Theorem events_have_duration (gasConcProfile : list Point) :
  Forall (fun e => (endTime e >? startTime e)%js = true)
         (Events.identifyGasExposureEvents gasConcProfile).
Proof.
  unfold Events.identifyGasExposureEvents.
  destruct gasConcProfile as [|p profile]; [constructor|].
  apply finish_ok. apply loop_ok. constructor.
Qed.

(** C1, as the code has it: on the profile [(0,0),(5,20),(10,0)] no event is
    returned, because the single point at concentration 20 is never followed
    by a later point of the same concentration and an event without duration
    is dropped; the event from 5 to 10 at concentration 20 is returned, alone,
    once the profile holds the closing point (10,20) of that level. *)
Theorem scenario_single_positive_point :
  Events.identifyGasExposureEvents [pt 0 0; pt 5 20; pt 10 0] = []
  /\ Events.identifyGasExposureEvents [pt 0 0; pt 5 20; pt 10 20; pt 10 0]
     = [mkEvent (of_Z 5) (of_Z 20) (of_Z 10)].
Proof. split; reflexivity. Qed.

(** C1 as stated fails: the result on [(0,0),(5,20),(10,0)] is not the
    single event from 5 to 10 at concentration 20. *)
Lemma lone_point_yields_no_event :
  Events.identifyGasExposureEvents [pt 0 0; pt 5 20; pt 10 0]
  <> [mkEvent (of_Z 5) (of_Z 20) (of_Z 10)].
Proof. discriminate. Qed.

(* ================================================================== *)
(** ** Configuration defaults *)





(* ================================================================== *)
(** ** The sampler against previous-value hold *)

Lemma lastOf_cons_or (A : Type) (a : A) (l : list A) :
  Profile.lastOf (a :: l)
  = match Profile.lastOf l with Some x => Some x | None => Some a end.
Proof.
  destruct l as [|b l]; trivial.
  rewrite lastOf_cons. destruct (Profile.lastOf (b :: l)) eqn:E; trivial.
  exfalso. clear -E. revert b E. induction l as [|c l IH]; intros b E.
  - discriminate.
  - rewrite lastOf_cons in E. exact (IH c E).
Qed.

Lemma timeOrdered_tail (a : Point) (r : list Point) :
  Sampler.timeOrdered (a :: r) = true -> Sampler.timeOrdered r = true.
Proof. simpl. intro H. apply andb_prop in H. apply H. Qed.

Lemma timeOrdered_head_le (a : Point) (r : list Point) :
  Sampler.timeOrdered (a :: r) = true ->
  Forall (fun q => (time_min a <=? time_min q)%js = true) r.
Proof.
  revert a. induction r as [|b r IH]; intros a H; constructor.
  - simpl in H. apply andb_prop in H. destruct H as [H _].
    apply andb_prop in H. apply H.
  - assert (Hab : (time_min a <=? time_min b)%js = true).
    { simpl in H. apply andb_prop in H. destruct H as [H _].
      apply andb_prop in H. apply H. }
    eapply Forall_impl; [|apply IH; eapply timeOrdered_tail; exact H].
    intros q Hq. eapply le_trans; eassumption.
Qed.

(** On a time-ordered profile the loop with its [break] ends on the last
    point whose time is at most the query. *)
Lemma scan_last_le (points : list Point) (t r : num) :
  Sampler.timeOrdered points = true ->
  Sampler.scan points t r
  = match Profile.lastOf (filter (fun p => (time_min p <=? t)%js) points) with
    | Some p => conc p
    | None => r
    end.
Proof.
  revert r. induction points as [|p points IH]; intros r Hord; trivial.
  cbn [Sampler.scan filter].
  destruct (time_min p <=? t)%js eqn:E.
  - rewrite lastOf_cons_or, IH by (eapply timeOrdered_tail; exact Hord).
    destruct (Profile.lastOf _); reflexivity.
  - assert (Hnone : filter (fun q => (time_min q <=? t)%js) points = []).
    { apply timeOrdered_head_le in Hord. clear IH.
      induction Hord as [|q points Hq _ IH]; trivial.
      simpl. destruct (time_min q <=? t)%js eqn:Eq; trivial.
      rewrite (le_trans _ _ _ Hq Eq) in E. discriminate. }
    rewrite Hnone. reflexivity.
Qed.

Lemma lastOf_filter_last (A : Type) (f : A -> bool) (l : list A) (x : A) :
  Profile.lastOf l = Some x -> f x = true ->
  Profile.lastOf (filter f l) = Some x.
Proof.
  induction l as [|a l IH]; [discriminate|].
  rewrite lastOf_cons_or. intros H Hx.
  destruct (Profile.lastOf l) as [y|] eqn:E.
  - injection H as ->. simpl. destruct (f a).
    + rewrite lastOf_cons_or, (IH eq_refl Hx). reflexivity.
    + exact (IH eq_refl Hx).
  - injection H as ->. destruct l as [|b l].
    + simpl. rewrite Hx. reflexivity.
    + rewrite lastOf_cons_or in E. destruct (Profile.lastOf l); discriminate.
Qed.

(** C3: on a time-ordered profile [interpolateGasConcentration] is
    previous-value hold as the specification words it, for every query: the
    undefined sentinel for an undefined query or an empty profile, the first
    concentration before the first point, otherwise the concentration of
    the last point whose time is at most the query; a query at or past the
    last point therefore returns the last point's concentration. *)
Theorem sampler_is_previous_value_hold (profile : list Point) (t : num) :
  Sampler.timeOrdered profile = true ->
  Sampler.interpolateGasConcentration profile t
  = Sampler.previousValueHold profile t
  /\ (forall lastPoint,
        Profile.lastOf profile = Some lastPoint ->
        (time_min lastPoint <=? t)%js = true ->
        Sampler.interpolateGasConcentration profile t = conc lastPoint).
Proof.
  intro Hord.
  assert (Heq : Sampler.interpolateGasConcentration profile t
                = Sampler.previousValueHold profile t).
  { unfold Sampler.interpolateGasConcentration, Sampler.previousValueHold.
    destruct (isNaN t) eqn:Et; trivial.
    destruct profile as [|p0 rest]; trivial.
    destruct (t <? time_min p0)%js eqn:Elt; trivial.
    rewrite scan_last_le by exact Hord.
    assert (Hp0 : (time_min p0 <=? t)%js = true).
    { apply not_lt_le; trivial.
      simpl in Hord. apply andb_prop in Hord. destruct Hord as [H _].
      apply andb_prop in H. destruct H as [H _].
      now apply negb_true_iff in H. }
    cbn [filter]. rewrite Hp0, lastOf_cons_or.
    destruct (Profile.lastOf _); reflexivity. }
  split; [exact Heq|].
  intros lastPoint Hlast Hle. rewrite Heq.
  unfold Sampler.previousValueHold.
  destruct (le_defined _ _ Hle) as [_ Ht]. rewrite Ht.
  destruct profile as [|p0 rest]; [discriminate|].
  assert (Hp0 : (time_min p0 <=? time_min lastPoint)%js = true).
  { destruct rest as [|p1 rest].
    - injection Hlast as <-. apply le_refl. apply (le_defined _ _ Hle).
    - pose proof (timeOrdered_head_le _ _ Hord) as Hall.
      rewrite Forall_forall in Hall. apply Hall.
      apply lastOf_In. rewrite lastOf_cons in Hlast. exact Hlast. }
  pose proof (le_trans _ _ _ Hp0 Hle) as Hp0t.
  destruct (t <? time_min p0)%js eqn:Elt.
  - apply lt_not_le in Elt. congruence.
  - rewrite (lastOf_filter_last (fun p => (time_min p <=? t)%js) _ Hlast Hle).
    reflexivity.
Qed.

Lemma sampler_is_previous_value_hold_witness :
  Sampler.interpolateGasConcentration [pt 0 0; pt 5 20; pt 10 0] (of_Z 7)
  = Sampler.previousValueHold [pt 0 0; pt 5 20; pt 10 0] (of_Z 7)
  /\ Sampler.interpolateGasConcentration [pt 0 0; pt 5 20; pt 10 0] (of_Z 7)
     = of_Z 20.
Proof.
  split.
  - exact (proj1 (sampler_is_previous_value_hold
                    [pt 0 0; pt 5 20; pt 10 0] (of_Z 7) eq_refl)).
  - reflexivity.
Defined.

(* ================================================================== *)
(** ** The profile builder *)

(** *** Minutes and the one-second transition, on finite times *)

Lemma div_60 (q : Q) : (Fin q / n60)%js = Fin (Qred (q / 60)).
Proof. reflexivity. Qed.
Lemma oneSecond_eq : Profile.oneSecondInMinutes = Fin (Qred (1 / 60)).
Proof. reflexivity. Qed.
Lemma add_Fin (a b : Q) : (Fin a + Fin b)%js = Fin (Qred (a + b)).
Proof. reflexivity. Qed.
Lemma le_Fin (a b : Q) : (Fin a <=? Fin b)%js = Qle_bool a b.
Proof. reflexivity. Qed.
Lemma eq_Fin (a b : Q) : (Fin a === Fin b)%js = Qeq_bool a b.
Proof. reflexivity. Qed.

Lemma inv60_pos : (0 < / 60)%Q.
Proof. reflexivity. Qed.

Ltac q60 :=
  rewrite ?Qred_correct in *; unfold Qdiv in *;
  pose proof inv60_pos; generalize dependent (/ 60)%Q; intros; nra.

Ltac fin_arith :=
  rewrite ?div_60, ?oneSecond_eq, ?add_Fin, ?div_60, ?le_Fin, ?eq_Fin.

Lemma minute_le_transition (q : Q) :
  (Fin q / n60 <=? Fin q / n60 + Profile.oneSecondInMinutes)%js = true.
Proof.
  fin_arith. apply Qle_bool_iff. q60.
Qed.

Lemma minute_ne_transition (q : Q) :
  (Fin q / n60 === Fin q / n60 + Profile.oneSecondInMinutes)%js = false.
Proof.
  fin_arith. destruct (Qeq_bool _ _) eqn:E; trivial.
  apply Qeq_bool_iff in E. q60.
Qed.

Lemma transition_le_end (q d : Q) :
  (1 <= d)%Q ->
  (Fin q / n60 + Profile.oneSecondInMinutes <=? (Fin q + Fin d) / n60)%js = true.
Proof.
  intro H. fin_arith. apply Qle_bool_iff. q60.
Qed.

Lemma minute_le_end (q d : Q) :
  (1 <= d)%Q -> (Fin q / n60 <=? (Fin q + Fin d) / n60)%js = true.
Proof.
  intro H. fin_arith. apply Qle_bool_iff. q60.
Qed.

Lemma minute_ne_end (q d : Q) :
  (1 <= d)%Q -> (Fin q / n60 === (Fin q + Fin d) / n60)%js = false.
Proof.
  intro H. fin_arith. destruct (Qeq_bool _ _) eqn:E; trivial.
  apply Qeq_bool_iff in E. q60.
Qed.

(** *** The loop keeps the profile sorted *)


Lemma follows_trans (a b c : Point) : follows a b -> follows b c -> follows a c.
Proof.
  intros [H1 E1] [H2 E2]. split.
  - eapply le_trans; eassumption.
  - intro E.
    assert (Hca : (time_min c <=? time_min a)%js = true).
    { rewrite eq_sym in E. now apply eq_le. }
    assert (Eab : (time_min a === time_min b)%js = true).
    { apply le_antisym; trivial. eapply le_trans; eassumption. }
    assert (Ebc : (time_min b === time_min c)%js = true).
    { apply le_antisym; trivial. eapply le_trans; eassumption. }
    rewrite (E1 Eab). exact (E2 Ebc).
Qed.

Lemma sorted_snoc (l : list Point) (p : Point) :
  Sorted follows l ->
  (forall lp, Profile.lastOf l = Some lp -> follows lp p) ->
  Sorted follows (l ++ [p]).
Proof.
  induction l as [|a l IH]; intros Hs Hl; simpl.
  - repeat constructor.
  - inversion Hs as [|? ? Hs' Hhd]; subst. constructor.
    + apply IH; trivial. intros lp Hlp. apply Hl.
      destruct l; [discriminate|]. rewrite lastOf_cons. exact Hlp.
    + destruct l as [|b l]; simpl.
      * constructor. apply Hl. reflexivity.
      * constructor. inversion Hhd; subst. assumption.
Qed.

Lemma sorted_strongly (l : list Point) :
  Sorted follows l -> StronglySorted follows l.
Proof. apply Sorted_StronglySorted. intros a b c. apply follows_trans. Qed.

(** Point 1 leaves the profile sorted, ending at the current time with the
    previous concentration. *)
Lemma pushPoint1_inv (profile : list Point) (q : Q) (prev : num) (lp : Point) :
  Sorted follows profile -> Forall timeDefined profile ->
  Profile.lastOf profile = Some lp ->
  time_min lp = (Fin q / n60)%js -> conc lp = prev ->
  let profile1 := Profile.pushPoint1 profile (Fin q) prev in
  Sorted follows profile1 /\ Forall timeDefined profile1
  /\ exists lp1, Profile.lastOf profile1 = Some lp1
       /\ time_min lp1 = (Fin q / n60)%js.
Proof.
  intros Hs Hd Hlast Ht Hc profile1. subst profile1. unfold Profile.pushPoint1.
  rewrite Hlast.
  destruct (_ || _)%bool; [destruct (_ && _)%bool|]; eauto.
  split; [|split].
  - apply sorted_snoc; trivial. intros lp' Hlp'. rewrite Hlast in Hlp'.
    injection Hlp' as <-. split; cbn [time_min conc].
    + rewrite Ht. apply le_refl. reflexivity.
    + intros _. exact Hc.
  - apply Forall_app. split; trivial. repeat constructor.
  - eexists. rewrite lastOf_snoc. split; reflexivity.
Qed.

Lemma pushPoint2_inv (profile : list Point) (q : Q) (prev cur : num)
    (lp : Point) :
  Sorted follows profile -> Forall timeDefined profile ->
  Profile.lastOf profile = Some lp ->
  time_min lp = (Fin q / n60)%js ->
  let profile2 := Profile.pushPoint2 profile (Fin q) prev cur in
  Sorted follows profile2 /\ Forall timeDefined profile2
  /\ exists lp2, Profile.lastOf profile2 = Some lp2
       /\ (time_min lp2 = (Fin q / n60)%js
           \/ (time_min lp2 = (Fin q / n60 + Profile.oneSecondInMinutes)%js
               /\ conc lp2 = cur)).
Proof.
  intros Hs Hd Hlast Ht profile2. subst profile2. unfold Profile.pushPoint2.
  rewrite Hlast.
  assert (Hpush :
    let l := profile ++ [mkPoint (Fin q / n60 + Profile.oneSecondInMinutes)%js cur] in
    Sorted follows l /\ Forall timeDefined l
    /\ exists lp2, Profile.lastOf l = Some lp2
       /\ (time_min lp2 = (Fin q / n60)%js
           \/ (time_min lp2 = (Fin q / n60 + Profile.oneSecondInMinutes)%js
               /\ conc lp2 = cur))).
  { split; [|split].
    - apply sorted_snoc; trivial. intros lp' Hlp'. rewrite Hlast in Hlp'.
      injection Hlp' as <-. split; cbn [time_min conc]; rewrite Ht.
      + apply minute_le_transition.
      + rewrite minute_ne_transition. discriminate.
    - apply Forall_app. split; trivial. repeat constructor.
    - eexists. rewrite lastOf_snoc. split; [reflexivity|]. right. split; reflexivity. }
  destruct (cur !== prev)%js; [exact Hpush|].
  destruct (conc lp !== cur)%js; [exact Hpush|]. eauto 6.
Qed.

Lemma loopBody_inv (tf gc : num) (st : Profile.LoopState) (step : FlowStep) :
  atLeastOneSecond step = true ->
  loopInv st -> loopInv (Profile.loopBody tf gc st step).
Proof.
  intros Hd (Hs & Hdef & q & lp & Ht & Hlast & Htime & Hconc).
  unfold atLeastOneSecond in Hd.
  destruct (durationSeconds step) as [| | |d] eqn:Ed; try discriminate.
  apply Qle_bool_iff in Hd.
  unfold Profile.loopBody. rewrite Ht, Ed.
  destruct (pushPoint1_inv Hs Hdef Hlast Htime Hconc)
    as (Hs1 & Hdef1 & lp1 & Hlast1 & Htime1).
  destruct (pushPoint2_inv (Profile.currentConcentration st)
              (Profile.stepConcentration tf gc step) Hs1 Hdef1 Hlast1 Htime1)
    as (Hs2 & Hdef2 & lp2 & Hlast2 & Hcase).
  unfold loopInv; cbn [Profile.calculatedProfile Profile.currentTimeSeconds
                         Profile.currentConcentration].
  split; [|split].
  - apply sorted_snoc; trivial. intros lp' Hlp'. rewrite Hlast2 in Hlp'.
    injection Hlp' as <-. destruct Hcase as [Hc|[Hc1 Hc2]].
    + split; cbn [time_min conc]; rewrite Hc.
      * now apply minute_le_end.
      * rewrite minute_ne_end by trivial. discriminate.
    + split; cbn [time_min conc]; rewrite ?Hc1.
      * now apply transition_le_end.
      * intros _. exact Hc2.
  - apply Forall_app. split; trivial. repeat constructor.
  - exists (Qred (q + d)). eexists. rewrite lastOf_snoc.
    repeat split; reflexivity.
Qed.

Lemma initLoop_inv : loopInv Profile.initLoop.
Proof.
  split; [|split].
  - repeat constructor.
  - repeat constructor.
  - exists 0%Q, Profile.pZero. repeat split; reflexivity.
Qed.

Lemma fold_loop_inv (tf gc : num) (steps : list FlowStep) (st : Profile.LoopState) :
  forallb atLeastOneSecond steps = true -> loopInv st ->
  loopInv (fold_left (Profile.loopBody tf gc) steps st).
Proof.
  revert st. induction steps as [|s steps IH]; intros st Hall Hinv; trivial.
  simpl in *. apply andb_prop in Hall. destruct Hall as [Hs Hall].
  apply IH; trivial. now apply loopBody_inv.
Qed.

(** *** Deduplication *)

Lemma dedupFrom_In (prev : Point) (l : list Point) (x : Point) :
  In x (Profile.dedupFrom prev l) -> In x l.
Proof.
  revert prev. induction l as [|p l IH]; intros prev H; simpl in *; trivial.
  destruct (_ || _)%bool.
  - destruct H as [H|H]; [now left|]. right. eapply IH; eassumption.
  - right. eapply IH; eassumption.
Qed.

Lemma dedup_In (l : list Point) (x : Point) : In x (Profile.dedup l) -> In x l.
Proof.
  destruct l as [|p l]; simpl; trivial.
  intros [H|H]; [now left|]. right. eapply dedupFrom_In; eassumption.
Qed.

Lemma dedupFrom_Forall (P : Point -> Prop) (prev : Point) (l : list Point) :
  Forall P l -> Forall P (Profile.dedupFrom prev l).
Proof.
  intro H. rewrite Forall_forall in *. intros x Hx. apply H.
  eapply dedupFrom_In; eassumption.
Qed.

Lemma dedup_Forall (P : Point -> Prop) (l : list Point) :
  Forall P l -> Forall P (Profile.dedup l).
Proof.
  intro H. rewrite Forall_forall in *. intros x Hx. apply H.
  now apply dedup_In.
Qed.

Lemma dedupFrom_sorted (prev : Point) (l : list Point) :
  StronglySorted follows l -> StronglySorted follows (Profile.dedupFrom prev l).
Proof.
  revert prev. induction l as [|p l IH]; intros prev H; simpl; trivial.
  inversion H as [|? ? Hs Hall]; subst.
  destruct (_ || _)%bool; [|now apply IH].
  constructor; [now apply IH | now apply dedupFrom_Forall].
Qed.

Lemma dedup_sorted (l : list Point) :
  StronglySorted follows l -> StronglySorted follows (Profile.dedup l).
Proof.
  destruct l as [|p l]; simpl; trivial. intro H.
  inversion H as [|? ? Hs Hall]; subst.
  constructor; [now apply dedupFrom_sorted | now apply dedupFrom_Forall].
Qed.

Lemma samePoint_sym (a b : Point) : Profile.samePoint a b = Profile.samePoint b a.
Proof.
  unfold Profile.samePoint.
  now rewrite (eq_sym (time_min a)), (eq_sym (conc a)).
Qed.

Lemma samePoint_trans (a b c : Point) :
  Profile.samePoint a b = true -> Profile.samePoint b c = true ->
  Profile.samePoint a c = true.
Proof.
  unfold Profile.samePoint. intros H1 H2.
  apply andb_prop in H1. apply andb_prop in H2.
  destruct H1 as [T1 C1], H2 as [T2 C2].
  rewrite (eq_trans _ _ _ T1 T2), (eq_trans _ _ _ C1 C2). reflexivity.
Qed.

(** the test of the deduplication loop is the negation of [samePoint] *)
Lemma dedup_test (p prev : Point) :
  ((time_min p !== time_min prev) || (conc p !== conc prev))%js
  = negb (Profile.samePoint p prev).
Proof. unfold Profile.samePoint, ne. now rewrite negb_andb. Qed.



(** *** The profile starts at the origin *)

Lemma pushPoint1_extends (profile : list Point) (t prev : num) :
  exists ext, Profile.pushPoint1 profile t prev = profile ++ ext.
Proof.
  unfold Profile.pushPoint1.
  destruct (match Profile.lastOf profile with None => true | Some _ => _ end);
    [destruct (match Profile.lastOf profile with None => false | Some _ => _ end)|];
    eauto using app_nil_r.
  all: exists []; now rewrite app_nil_r.
Qed.

Lemma pushPoint2_extends (profile : list Point) (t prev cur : num) :
  exists ext, Profile.pushPoint2 profile t prev cur = profile ++ ext.
Proof.
  unfold Profile.pushPoint2.
  destruct (cur !== prev)%js; eauto.
  destruct (Profile.lastOf profile) as [lp|]; [destruct (conc lp !== cur)%js|];
    eauto.
  all: exists []; now rewrite app_nil_r.
Qed.

Lemma loopBody_extends (tf gc : num) (st : Profile.LoopState) (step : FlowStep) :
  exists ext,
    Profile.calculatedProfile (Profile.loopBody tf gc st step)
    = Profile.calculatedProfile st ++ ext.
Proof.
  unfold Profile.loopBody. cbn [Profile.calculatedProfile].
  destruct (pushPoint1_extends (Profile.calculatedProfile st)
              (Profile.currentTimeSeconds st) (Profile.currentConcentration st))
    as [e1 ->].
  destruct (pushPoint2_extends (Profile.calculatedProfile st ++ e1)
              (Profile.currentTimeSeconds st) (Profile.currentConcentration st)
              (Profile.stepConcentration tf gc step)) as [e2 ->].
  eexists. rewrite <- !app_assoc. reflexivity.
Qed.

Lemma fold_loop_extends (tf gc : num) (steps : list FlowStep)
    (st : Profile.LoopState) :
  exists ext,
    Profile.calculatedProfile (fold_left (Profile.loopBody tf gc) steps st)
    = Profile.calculatedProfile st ++ ext.
Proof.
  revert st. induction steps as [|s steps IH]; intro st; simpl.
  - exists []. now rewrite app_nil_r.
  - destruct (IH (Profile.loopBody tf gc st s)) as [e2 ->].
    destruct (loopBody_extends tf gc st s) as [e1 ->].
    eexists. rewrite <- app_assoc. reflexivity.
Qed.

Lemma ensureStart_origin (l : list Point) :
  Profile.ensureStart (Profile.pZero :: l) = Profile.pZero :: l.
Proof. reflexivity. Qed.

Lemma runLoop_head (tf gc : num) (gasFlowData : list FlowStep) :
  exists body,
    Profile.calculatedProfile (Profile.runLoop tf gc gasFlowData)
    = Profile.pZero :: body.
Proof.
  destruct (fold_loop_extends tf gc gasFlowData Profile.initLoop) as [ext H].
  exists ext. exact H.
Qed.

(** The profile returned is the deduplicated loop profile: its first point
    is the origin pushed before the loop, so lines 95-105 change nothing. *)
Lemma calculate_eq (gasFlowData : list FlowStep)
    (config : option Profile.Config) :
  Profile.calculateGasConcVsTime gasFlowData config
  = Profile.dedup
      (Profile.calculatedProfile
         (Profile.runLoop (Profile.resolveTotalFlowrate config)
            (Profile.resolveGasConcCyl2 config) gasFlowData)).
Proof.
  unfold Profile.calculateGasConcVsTime.
  destruct gasFlowData as [|s steps]; [reflexivity|].
  destruct (runLoop_head (Profile.resolveTotalFlowrate config)
              (Profile.resolveGasConcCyl2 config) (s :: steps)) as [body ->].
  apply ensureStart_origin.
Qed.

(** *** Sampling a profile back *)

Lemma le_not_lt (x y : num) : (x <=? y)%js = true -> (y <? x)%js = false.
Proof.
  intro H. destruct (y <? x)%js eqn:E; trivial.
  apply lt_not_le in E. congruence.
Qed.




(** With every step lasting at least one second the returned profile is
    sorted for [follows] and all its times are defined. *)
Lemma calculate_sorted (gasFlowData : list FlowStep)
    (config : option Profile.Config) :
  forallb atLeastOneSecond gasFlowData = true ->
  StronglySorted follows (Profile.calculateGasConcVsTime gasFlowData config)
  /\ Forall timeDefined (Profile.calculateGasConcVsTime gasFlowData config).
Proof.
  intro Hall. rewrite calculate_eq.
  destruct (fold_loop_inv (Profile.resolveTotalFlowrate config)
              (Profile.resolveGasConcCyl2 config) gasFlowData Hall
              initLoop_inv) as (Hs & Hd & _).
  split.
  - apply dedup_sorted. now apply sorted_strongly.
  - now apply dedup_Forall.
Qed.

(** *** The builder over any arithmetic *)

(** With the exact operations [ProfileWith] is [Profile]. *)
Lemma exact_operations (gasFlowData : list FlowStep)
    (config : option Profile.Config) :
  ProfileWith.calculateGasConcVsTime JsNum.add JsNum.mul JsNum.div
    gasFlowData config
  = Profile.calculateGasConcVsTime gasFlowData config.
Proof. reflexivity. Qed.

Lemma le_not_lt_eq (x y : num) :
  (x <=? y)%js = true -> (x <? y)%js = false -> (x === y)%js = true.
Proof.
  intros Hle Hlt. destruct (le_defined _ _ Hle) as [Hx Hy].
  apply le_antisym; trivial. now apply not_lt_le.
Qed.

Lemma lt_le_trans (x y z : num) :
  (x <? y)%js = true -> (y <=? z)%js = true -> (x <? z)%js = true.
Proof.
  destruct x, y, z; simpl; intros H1 H2; trivial; try discriminate.
  apply Qlt_bool_iff in H1. apply Qle_bool_iff in H2.
  apply Qlt_bool_iff. eapply Qlt_le_trans; eassumption.
Qed.

Lemma eq_lt_trans (x y z : num) :
  (x === y)%js = true -> (y <? z)%js = true -> (x <? z)%js = true.
Proof.
  destruct x, y, z; simpl; intros H1 H2; trivial; try discriminate.
  apply Qeq_bool_iff in H1. apply Qlt_bool_iff in H2.
  apply Qlt_bool_iff. now rewrite H1.
Qed.

Lemma lt_ne (x y : num) : (x <? y)%js = true -> (x === y)%js = false.
Proof.
  intro H. destruct (x === y)%js eqn:E; trivial.
  rewrite eq_sym in E. apply eq_le in E. apply lt_not_le in H. congruence.
Qed.

Lemma sorted_snoc_for (R : Point -> Point -> Prop) (l : list Point)
    (p : Point) :
  Sorted R l ->
  (forall lp, Profile.lastOf l = Some lp -> R lp p) ->
  Sorted R (l ++ [p]).
Proof.
  induction l as [|a l IH]; intros Hs Hl; simpl.
  - repeat constructor.
  - inversion Hs as [|? ? Hs' Hhd]; subst. constructor.
    + apply IH; trivial. intros lp Hlp. apply Hl.
      destruct l; [discriminate|]. rewrite lastOf_cons. exact Hlp.
    + destruct l as [|b l]; simpl.
      * constructor. apply Hl. reflexivity.
      * constructor. inversion Hhd; subst. assumption.
Qed.



Section AnyArithmetic.

Variables plus times over : num -> num -> num.

Lemma with_pushPoint1_extends (profile : list Point) (t prev : num) :
  exists ext, ProfileWith.pushPoint1 over profile t prev = profile ++ ext.
Proof.
  unfold ProfileWith.pushPoint1.
  destruct (match Profile.lastOf profile with None => true | Some _ => _ end);
    [destruct (match Profile.lastOf profile with None => false | Some _ => _ end)|];
    eauto using app_nil_r.
  all: exists []; now rewrite app_nil_r.
Qed.

Lemma with_pushPoint2_extends (profile : list Point) (t prev cur : num) :
  exists ext,
    ProfileWith.pushPoint2 plus over profile t prev cur = profile ++ ext.
Proof.
  unfold ProfileWith.pushPoint2.
  destruct (cur !== prev)%js; eauto.
  destruct (Profile.lastOf profile) as [lp|]; [destruct (conc lp !== cur)%js|];
    eauto.
  all: exists []; now rewrite app_nil_r.
Qed.

Lemma with_fold_extends (tf gc : num) (steps : list FlowStep)
    (st : Profile.LoopState) :
  exists ext,
    Profile.calculatedProfile
      (fold_left (ProfileWith.loopBody plus times over tf gc) steps st)
    = Profile.calculatedProfile st ++ ext.
Proof.
  revert st. induction steps as [|s steps IH]; intro st; simpl.
  - exists []. now rewrite app_nil_r.
  - destruct (IH (ProfileWith.loopBody plus times over tf gc st s)) as [e2 ->].
    unfold ProfileWith.loopBody. cbn [Profile.calculatedProfile].
    destruct (with_pushPoint1_extends (Profile.calculatedProfile st)
                (Profile.currentTimeSeconds st) (Profile.currentConcentration st))
      as [e1 ->].
    destruct (with_pushPoint2_extends (Profile.calculatedProfile st ++ e1)
                (Profile.currentTimeSeconds st) (Profile.currentConcentration st)
                (ProfileWith.stepConcentration times over tf gc s)) as [e3 ->].
    eexists. rewrite <- !app_assoc. reflexivity.
Qed.

(** Whatever the operations return, the profile returned is the
    deduplicated loop profile, and the loop profile starts with the origin
    pushed before the loop. *)
Lemma with_calculate_eq (gasFlowData : list FlowStep)
    (config : option Profile.Config) :
  exists body,
    Profile.calculatedProfile
      (ProfileWith.runLoop plus times over (Profile.resolveTotalFlowrate config)
         (Profile.resolveGasConcCyl2 config) gasFlowData)
    = Profile.pZero :: body
    /\ ProfileWith.calculateGasConcVsTime plus times over gasFlowData config
       = Profile.dedup (Profile.pZero :: body).
Proof.
  destruct (with_fold_extends (Profile.resolveTotalFlowrate config)
              (Profile.resolveGasConcCyl2 config) gasFlowData Profile.initLoop)
    as [ext H].
  exists ext. split; [exact H|].
  unfold ProfileWith.calculateGasConcVsTime.
  destruct gasFlowData as [|s steps].
  - cbn in H. destruct ext; [reflexivity | discriminate].
  - unfold ProfileWith.runLoop in *. rewrite H. apply ensureStart_origin.
Qed.

(** **** Times that never decrease *)




(** **** A profile that can be sampled back *)

Lemma sampled_body (tf gc : num) (st : Profile.LoopState) (step : FlowStep) :
  let start := over (Profile.currentTimeSeconds st) n60 in
  let transition := plus start (over n1 n60) in
  let t' := plus (Profile.currentTimeSeconds st) (durationSeconds step) in
  (start <? transition)%js = true ->
  (transition <=? over t' n60)%js = true ->
  loopSampled over st ->
  loopSampled over (ProfileWith.loopBody plus times over tf gc st step).
Proof.
  intros start transition t' H01 H12 (Hs & Hd & lp & Hlast & Hle & Hconc).
  fold start in Hle.
  set (prev := Profile.currentConcentration st) in *.
  set (cur := ProfileWith.stepConcentration times over tf gc step).
  assert (Hstart : isNaN start = false)
    by apply (le_defined _ _ (lt_le _ _ H01)).
  assert (Htrans : isNaN transition = false) by apply (le_defined _ _ H12).
  assert (Hend : isNaN (over t' n60) = false) by apply (le_defined _ _ H12).
  (* point 1 *)
  set (profile1 := ProfileWith.pushPoint1 over (Profile.calculatedProfile st)
                     (Profile.currentTimeSeconds st) prev).
  assert (H1 : Sorted follows profile1 /\ Forall timeDefined profile1
               /\ exists lp1, Profile.lastOf profile1 = Some lp1
                    /\ (time_min lp1 === start)%js = true
                    /\ conc lp1 = prev).
  { subst profile1. unfold ProfileWith.pushPoint1. rewrite Hlast. fold start.
    assert (Hpush :
      let l := Profile.calculatedProfile st ++ [mkPoint start prev] in
      Sorted follows l /\ Forall timeDefined l
      /\ exists lp1, Profile.lastOf l = Some lp1
           /\ (time_min lp1 === start)%js = true /\ conc lp1 = prev).
    { split; [|split].
      - apply sorted_snoc_for; trivial. intros lp' Hlp'.
        rewrite Hlast in Hlp'. injection Hlp' as <-.
        split; cbn [time_min conc]; [exact Hle | intros _; exact Hconc].
      - apply Forall_app. split; trivial. repeat constructor. exact Hstart.
      - eexists. split; [apply lastOf_snoc|].
        cbn [time_min conc]. split; [apply le_antisym; now apply le_refl | reflexivity]. }
    assert (Hkeep : (time_min lp === start)%js = true ->
      Sorted follows (Profile.calculatedProfile st)
      /\ Forall timeDefined (Profile.calculatedProfile st)
      /\ exists lp1, Profile.lastOf (Profile.calculatedProfile st) = Some lp1
           /\ (time_min lp1 === start)%js = true /\ conc lp1 = prev).
    { intro E. split; [|split]; trivial. exists lp. now repeat split. }
    destruct (time_min lp <? start)%js eqn:Elt; cbn [orb].
    - rewrite (lt_ne _ _ Elt). cbn [andb]. exact Hpush.
    - rewrite (le_not_lt_eq _ _ Hle Elt). cbn [andb].
      destruct (conc lp !== prev)%js eqn:En.
      + unfold ne in En. apply negb_true_iff in En. rewrite En. exact Hpush.
      + apply Hkeep. now apply le_not_lt_eq. }
  destruct H1 as (Hs1 & Hd1 & lp1 & Hlast1 & Ht1 & Hc1).
  assert (Hlt1 : (time_min lp1 <? transition)%js = true)
    by (eapply eq_lt_trans; eassumption).
  (* point 2 *)
  set (profile2 := ProfileWith.pushPoint2 plus over profile1
                     (Profile.currentTimeSeconds st) prev cur).
  assert (H2 : Sorted follows profile2 /\ Forall timeDefined profile2
               /\ exists lp2, Profile.lastOf profile2 = Some lp2
                    /\ follows lp2 (mkPoint (over t' n60) cur)).
  { subst profile2. unfold ProfileWith.pushPoint2, ProfileWith.oneSecondInMinutes.
    rewrite Hlast1. fold start. fold transition.
    assert (Hpush :
      let l := profile1 ++ [mkPoint transition cur] in
      Sorted follows l /\ Forall timeDefined l
      /\ exists lp2, Profile.lastOf l = Some lp2
           /\ follows lp2 (mkPoint (over t' n60) cur)).
    { split; [|split].
      - apply sorted_snoc_for; trivial. intros lp' Hlp'.
        rewrite Hlast1 in Hlp'. injection Hlp' as <-.
        split; cbn [time_min conc].
        + now apply lt_le.
        + rewrite (lt_ne _ _ Hlt1). discriminate.
      - apply Forall_app. split; trivial. repeat constructor. exact Htrans.
      - eexists. split; [apply lastOf_snoc|].
        split; cbn [time_min conc]; [exact H12 | reflexivity]. }
    assert (Hkeep :
      Sorted follows profile1 /\ Forall timeDefined profile1
      /\ exists lp2, Profile.lastOf profile1 = Some lp2
           /\ follows lp2 (mkPoint (over t' n60) cur)).
    { split; [|split]; trivial. exists lp1. split; trivial.
      pose proof (lt_le_trans _ _ _ Hlt1 H12) as Hlt.
      split; cbn [time_min conc].
      - now apply lt_le.
      - rewrite (lt_ne _ _ Hlt). discriminate. }
    destruct (cur !== prev)%js; [exact Hpush|].
    destruct (conc lp1 !== cur)%js; [exact Hpush | exact Hkeep]. }
  destruct H2 as (Hs2 & Hd2 & lp2 & Hlast2 & Hfol).
  unfold loopSampled, ProfileWith.loopBody.
  cbn [Profile.calculatedProfile Profile.currentTimeSeconds
         Profile.currentConcentration].
  fold prev. fold cur. fold profile1. fold profile2. fold t'.
  split; [|split].
  - apply sorted_snoc_for; trivial. intros lp' Hlp'.
    rewrite Hlast2 in Hlp'. injection Hlp' as <-. exact Hfol.
  - apply Forall_app. split; trivial. repeat constructor. exact Hend.
  - eexists. split; [apply lastOf_snoc|].
    cbn [time_min conc]. split; [now apply le_refl | reflexivity].
Qed.

Lemma sampled_fold (tf gc : num) (steps : list FlowStep)
    (st : Profile.LoopState) :
  stepsAdvance plus over JsNum.lt (Profile.currentTimeSeconds st) steps = true ->
  loopSampled over st ->
  loopSampled over (fold_left (ProfileWith.loopBody plus times over tf gc) steps st).
Proof.
  revert st. induction steps as [|s steps IH]; intros st Hadv Hinv; trivial.
  cbn [stepsAdvance] in Hadv.
  apply andb_prop in Hadv. destruct Hadv as [Hadv Hrest].
  apply andb_prop in Hadv. destruct Hadv as [H01 H12].
  cbn [fold_left]. apply IH.
  - exact Hrest.
  - now apply sampled_body.
Qed.

(** When every transition point lies after the start of its step and not
    after its end, the returned profile is sorted for [follows] and all its
    times are defined, whatever the operations return. *)
Lemma with_calculate_sorted (gasFlowData : list FlowStep)
    (config : option Profile.Config) :
  transitionAfterStart plus over gasFlowData = true ->
  StronglySorted follows
    (ProfileWith.calculateGasConcVsTime plus times over gasFlowData config)
  /\ Forall timeDefined
       (ProfileWith.calculateGasConcVsTime plus times over gasFlowData config).
Proof.
  intro Hadv. unfold transitionAfterStart in Hadv.
  apply andb_prop in Hadv. destruct Hadv as [H0 Hadv].
  destruct (with_calculate_eq gasFlowData config) as (body & Hloop & ->).
  rewrite <- Hloop.
  destruct (@sampled_fold (Profile.resolveTotalFlowrate config)
              (Profile.resolveGasConcCyl2 config) gasFlowData Profile.initLoop)
    as (Hs & Hd & _).
  - exact Hadv.
  - split; [|split].
    + repeat constructor.
    + repeat constructor.
    + exists Profile.pZero. repeat split. exact H0.
  - split.
    + apply dedup_sorted. now apply sorted_strongly.
    + now apply dedup_Forall.
Qed.

End AnyArithmetic.

(** In exact arithmetic the condition on the transition points comes down
    to the durations: it holds when every step lasts a finite time of at
    least one second.  (Not so in double precision, where the sum
    31/60 + 1/60 is rounded above 32/60.) *)
Lemma one_second_steps_when_exact (gasFlowData : list FlowStep) :
  forallb atLeastOneSecond gasFlowData = true ->
  transitionAfterStart JsNum.add JsNum.div gasFlowData = true.
Proof.
  intro Hall. unfold transitionAfterStart.
  apply andb_true_intro. split; [reflexivity|].
  change n0 with (Fin 0). generalize 0%Q as q.
  induction gasFlowData as [|step steps IH]; intro q; trivial.
  cbn [forallb] in Hall. apply andb_prop in Hall. destruct Hall as [Hd Hall].
  unfold atLeastOneSecond in Hd.
  destruct (durationSeconds step) as [| | |d] eqn:Ed; try discriminate.
  apply Qle_bool_iff in Hd.
  cbn [stepsAdvance]. rewrite Ed.
  change (n1 / n60)%js with Profile.oneSecondInMinutes.
  rewrite (transition_le_end q Hd), add_Fin, (IH Hall), !andb_true_r.
  fin_arith. change (Qlt_bool (Qred (q / 60)) (Qred (Qred (q / 60) + Qred (1 / 60))) = true).
  apply Qlt_bool_iff. q60.
Qed.







(* ================================================================== *)
(** ** Sensor files *)

(** *** Finding the baseline row *)

Lemma lastOf_map (A B : Type) (g : A -> B) (l : list A) :
  Profile.lastOf (map g l) = option_map g (Profile.lastOf l).
Proof.
  induction l as [|a l IH]; trivial.
  cbn [map]. rewrite !lastOf_cons_or, IH.
  destruct (Profile.lastOf l); reflexivity.
Qed.

Lemma combine_seq_filter (f : Sensor.Reading -> bool)
    (table : list Sensor.Reading) (k : nat) :
  map snd (filter (fun ir => f (snd ir)) (combine (seq k (List.length table)) table))
  = filter f table.
Proof.
  revert k. induction table as [|a table IH]; intro k; trivial.
  simpl. destruct (f a); simpl; now rewrite IH.
Qed.

Lemma combine_seq_nth (table : list Sensor.Reading) (k i : nat)
    (r : Sensor.Reading) :
  In (i, r) (combine (seq k (List.length table)) table) ->
  (k <= i)%nat /\ nth_error table (i - k) = Some r.
Proof.
  revert k. induction table as [|a table IH]; intros k H; [contradiction|].
  simpl in H. destruct H as [H|H].
  - injection H as <- <-. split; [lia|]. now rewrite Nat.sub_diag.
  - destruct (IH _ H) as [Hk Hn]. split; [lia|].
    replace (i - k)%nat with (S (i - S k)) by lia. exact Hn.
Qed.

(** [refIdx] finds the position of the last suitable row, and without a
    suitable row takes position 0 when the first row has a defined time. *)
Lemma refIdx_spec (table : list Sensor.Reading) (ref : num) :
  match Profile.lastOf (filter (Sensor.suitable ref) table) with
  | Some r =>
      exists i, Sensor.refIdx table ref = Some i /\ nth_error table i = Some r
  | None =>
      Sensor.refIdx table ref
      = match table with
        | first :: _ =>
            if negb (isNaN (Sensor.time_min first)) then Some 0%nat else None
        | [] => None
        end
  end.
Proof.
  unfold Sensor.refIdx, Sensor.indexed.
  rewrite <- (combine_seq_filter (Sensor.suitable ref) table 0), lastOf_map.
  destruct (Profile.lastOf (filter _ (combine _ _))) as [[i r]|] eqn:E;
    simpl; trivial.
  exists i. split; trivial.
  apply lastOf_In, filter_In in E. destruct E as [E _].
  apply combine_seq_nth in E. destruct E as [_ E].
  now rewrite Nat.sub_0_r in E.
Qed.

(** *** Times of a built table *)

Section Built.

Variable dateMillis : string -> option Z.
Variable parseFloat : string -> num.

Lemma isNaN_div_Fin (x : num) (q : Q) :
  Qeq_bool q 0 = false -> isNaN (x / Fin q)%js = isNaN x.
Proof.
  intro Hq. destruct x; simpl; trivial.
  - destruct (Qlt_bool q 0); reflexivity.
  - destruct (Qlt_bool q 0); reflexivity.
  - now rewrite Hq.
Qed.

(** Without a zero time every row of the file has an undefined time. *)
Lemma rowToReading_no_t0 (row : list string) :
  Sensor.time_min (Sensor.rowToReading dateMillis parseFloat NaN row) = NaN.
Proof.
  unfold Sensor.rowToReading.
  destruct (List.length row <? Sensor.minRequiredCols)%nat; trivial.
  cbn [Sensor.time_min isNaN negb]. now rewrite andb_false_r.
Qed.

(** The first row of a built table is at time 0 when its time stamp parses,
    and otherwise no row has a defined time. *)
Lemma buildTable_times (first : list string) (rest : list (list string)) :
  (Sensor.minRequiredCols <= List.length first)%nat ->
  exists r0 tl,
    Sensor.buildTable dateMillis parseFloat (first :: rest) = r0 :: tl
    /\ (isNaN (Sensor.time_min r0) = true ->
        Forall (fun r => isNaN (Sensor.time_min r) = true) (r0 :: tl)).
Proof.
  intro Hlen. eexists. eexists. split; [reflexivity|].
  unfold Sensor.rowToReading at 1.
  apply Nat.ltb_ge in Hlen. rewrite Hlen.
  cbn [Sensor.time_min].
  destruct (Sensor.millis dateMillis (Sensor.col first Sensor.timeColIdx)) eqn:Em.
  - intros _. change (Forall (fun r => isNaN (Sensor.time_min r) = true)
                        (map (Sensor.rowToReading dateMillis parseFloat NaN) (first :: rest))).
    apply Forall_forall. intros r Hr. apply in_map_iff in Hr.
    destruct Hr as (row & <- & _). now rewrite rowToReading_no_t0.
  - unfold Sensor.millis in Em. destruct (dateMillis _); discriminate.
  - unfold Sensor.millis in Em. destruct (dateMillis _); discriminate.
  - intro H. exfalso. revert H. clear. cbn [isNaN negb andb].
    unfold n60, n1000. rewrite !isNaN_div_Fin by reflexivity. discriminate.
Qed.

End Built.

Lemma filter_all_false (A : Type) (f : A -> bool) (l : list A) :
  Forall (fun x => f x = false) l -> filter f l = [].
Proof.
  induction 1 as [|x l Hx _ IH]; trivial. simpl. now rewrite Hx.
Qed.

Lemma finishRow_signal_NaN (profile : list Point) (avail : bool)
    (row : Sensor.Reading) :
  Sensor.signal (Sensor.finishRow NaN profile avail row) = NaN.
Proof. reflexivity. Qed.

(** The last indexed row that passes a test: its position, and no row
    after it passes. *)
Lemma lastOf_filter_indexed (f : Sensor.Reading -> bool)
    (table : list Sensor.Reading) (k : nat) :
  match Profile.lastOf
          (filter (fun ir => f (snd ir))
                  (combine (seq k (List.length table)) table)) with
  | Some (i, row) =>
      (k <= i)%nat /\ nth_error table (i - k) = Some row /\ f row = true
      /\ forall j later,
           (i < j)%nat -> nth_error table (j - k) = Some later ->
           f later = false
  | None => forall row, In row table -> f row = false
  end.
Proof.
  revert k. induction table as [|a table IH]; intro k.
  - cbn. intros row [].
  - specialize (IH (S k)).
    cbn [List.length seq combine filter snd].
    set (rest := filter (fun ir => f (snd ir))
                   (combine (seq (S k) (List.length table)) table)) in *.
    assert (Hsome : forall i row,
              Profile.lastOf rest = Some (i, row) ->
              (k <= i)%nat /\ nth_error (a :: table) (i - k) = Some row
              /\ f row = true
              /\ forall j later,
                   (i < j)%nat -> nth_error (a :: table) (j - k) = Some later ->
                   f later = false).
    { intros i row E. rewrite E in IH.
      destruct IH as (Hk & Hnth & Hf & Hlater).
      split; [lia|]. split; [|split; trivial].
      - replace (i - k)%nat with (S (i - S k)) by lia. exact Hnth.
      - intros j later Hj Hn. apply (Hlater j later Hj).
        replace (j - k)%nat with (S (j - S k)) in Hn by lia. exact Hn. }
    destruct (f a) eqn:Ea.
    + rewrite lastOf_cons_or.
      destruct (Profile.lastOf rest) as [[i row]|] eqn:E.
      * now apply Hsome.
      * split; [lia|]. rewrite Nat.sub_diag. split; [reflexivity|].
        split; [exact Ea|]. intros j later Hj Hn. apply IH.
        replace (j - k)%nat with (S (j - S k)) in Hn by lia.
        eapply nth_error_In. exact Hn.
    + destruct (Profile.lastOf rest) as [[i row]|] eqn:E.
      * now apply Hsome.
      * intros row [<-|Hin]; [exact Ea | now apply IH].
Qed.

(** the test of line 217 says that the row qualifies *)
Lemma suitable_qualifies (ref : num) (row : Sensor.Reading) :
  Sensor.suitable ref row = true <-> Sensor.definedNotAfter ref row.
Proof.
  unfold Sensor.suitable, Sensor.definedNotAfter.
  rewrite andb_true_iff, negb_true_iff. tauto.
Qed.

(** At most one choice is the baseline the specification asks for. *)
Lemma isBaseline_unique (table : list Sensor.Reading) (ref : num)
    (c1 c2 : option nat) :
  Sensor.isBaseline table ref c1 -> Sensor.isBaseline table ref c2 -> c1 = c2.
Proof.
  assert (Hdef : forall i, Sensor.isBaseline table ref (Some i) ->
            exists row, nth_error table i = Some row
                        /\ isNaN (Sensor.time_min row) = false).
  { intros i [(row & Hn & [Hd _] & _)|[_ (row & Hn & Hd & _)]]; eauto. }
  assert (Hsome : forall i j,
            Sensor.isBaseline table ref (Some i) ->
            Sensor.isBaseline table ref (Some j) -> ~ (i < j)%nat).
  { intros i j Hi Hj Hlt.
    destruct Hi as [(ri & Hni & Hqi & Hlater)|[Hnone (ri & Hni & Hdi & _)]];
      destruct Hj as [(rj & Hnj & Hqj & _)|[Hnone' (rj & Hnj & Hdj & Hearlier)]].
    - exact (Hlater j rj Hlt Hnj Hqj).
    - apply (Hnone' ri); [eapply nth_error_In; exact Hni | exact Hqi].
    - apply (Hnone rj); [eapply nth_error_In; exact Hnj | exact Hqj].
    - rewrite (Hearlier i ri Hlt Hni) in Hdi. discriminate. }
  intros H1 H2. destruct c1 as [i|], c2 as [j|]; trivial.
  - f_equal. pose proof (Hsome i j H1 H2). pose proof (Hsome j i H2 H1). lia.
  - destruct (Hdef i H1) as (row & Hn & Hd).
    rewrite (H2 row) in Hd; [discriminate | eapply nth_error_In; exact Hn].
  - destruct (Hdef j H2) as (row & Hn & Hd).
    rewrite (H1 row) in Hd; [discriminate | eapply nth_error_In; exact Hn].
Qed.

(** C5: for every file that is processed (its first row has the required
    columns), the baseline row taken by the code is the last row whose
    [time_min] is defined and at most the reference time, and when there is
    none, the first row with a defined [time_min]; no other choice answers
    that description.  The reference impedance is the impedance of the row
    taken, and when it is undefined every row's signal is the undefined
    sentinel. *)
Theorem baseline_selection (dateMillis : string -> option Z)
    (parseFloat : string -> num) (first : list string)
    (rest : list (list string)) (refTimeMinutes : num)
    (gasConcProfile : list Point) (gasConcAvailable : bool) :
  (Sensor.minRequiredCols <= List.length first)%nat ->
  let table := Sensor.buildTable dateMillis parseFloat (first :: rest) in
  Sensor.isBaseline table refTimeMinutes (Sensor.refIdx table refTimeMinutes)
  /\ (forall choice,
        Sensor.isBaseline table refTimeMinutes choice ->
        choice = Sensor.refIdx table refTimeMinutes)
  /\ Sensor.imp_ref table refTimeMinutes
     = match Sensor.refIdx table refTimeMinutes with
       | Some i =>
           match nth_error table i with
           | Some row => Sensor.impedance row
           | None => NaN
           end
       | None => NaN
       end
  /\ (isNaN (Sensor.imp_ref table refTimeMinutes) = true ->
      Forall (fun r => Sensor.signal r = NaN)
        (Sensor.finishTable refTimeMinutes gasConcProfile gasConcAvailable
           table)).
Proof.
  intros Hlen table.
  assert (Hbase : Sensor.isBaseline table refTimeMinutes
                    (Sensor.refIdx table refTimeMinutes)).
  { unfold Sensor.refIdx, Sensor.indexed.
    pose proof (lastOf_filter_indexed (Sensor.suitable refTimeMinutes) table 0)
      as Hlast.
    destruct (Profile.lastOf
                (filter (fun ir => Sensor.suitable refTimeMinutes (snd ir))
                        (combine (seq 0 (List.length table)) table)))
      as [[i row]|].
    - destruct Hlast as (_ & Hnth & Hf & Hlater).
      rewrite Nat.sub_0_r in Hnth. cbn [fst]. left.
      exists row. split; [exact Hnth|]. split; [now apply suitable_qualifies|].
      intros j later Hj Hn Hq. apply suitable_qualifies in Hq.
      rewrite (Hlater j later Hj) in Hq; [discriminate|].
      now rewrite Nat.sub_0_r.
    - assert (Hnone : forall row, In row table ->
                ~ Sensor.definedNotAfter refTimeMinutes row).
      { intros row Hin Hq. apply suitable_qualifies in Hq.
        rewrite (Hlast row Hin) in Hq. discriminate. }
      destruct (buildTable_times dateMillis parseFloat first rest Hlen)
        as (r0 & tl & Htab & Hnan).
      fold table in Htab. rewrite Htab in *.
      destruct (isNaN (Sensor.time_min r0)) eqn:E0; cbn [negb].
      + intros row Hin. specialize (Hnan eq_refl).
        rewrite Forall_forall in Hnan. now apply Hnan.
      + right. split; [exact Hnone|].
        exists r0. split; [reflexivity|]. split; [exact E0|].
        intros j earlier Hj. lia. }
  split; [exact Hbase|]. split; [|split].
  - intros choice Hchoice.
    exact (isBaseline_unique _ _ _ _ Hchoice Hbase).
  - unfold Sensor.imp_ref.
    destruct (Sensor.refIdx table refTimeMinutes) as [i|]; trivial.
    destruct (nth_error table i) as [r|]; trivial.
    destruct (Sensor.impedance r); reflexivity.
  - intro Hnan. unfold Sensor.finishTable.
    destruct (Sensor.imp_ref table refTimeMinutes); try discriminate.
    apply Forall_forall. intros r Hr. apply in_map_iff in Hr.
    destruct Hr as (row & <- & _). apply finishRow_signal_NaN.
Qed.

Lemma baseline_selection_witness :
  Sensor.isBaseline
    (Sensor.buildTable demoDateMillis baselineParseFloat baselineRows)
    (Fin 1.5) (Some 1%nat)
  /\ Sensor.refIdx
       (Sensor.buildTable demoDateMillis baselineParseFloat baselineRows)
       (Fin 1.5)
     = Some 1%nat
  /\ Sensor.imp_ref
       (Sensor.buildTable demoDateMillis baselineParseFloat baselineRows)
       (Fin 1.5)
     = of_Z 110.
Proof.
  split; [|split; reflexivity].
  apply (baseline_selection demoDateMillis baselineParseFloat
           (rawRow "01/01/2024 00:00:00" "100") (tl baselineRows) (Fin 1.5) []
           false).
  unfold Sensor.minRequiredCols. simpl. lia.
Defined.

(** *** Signal and outlier suppression *)

Lemma rawSignal_formula (impRef : num) (row : Sensor.Reading) :
  Sensor.rawSignal impRef row
  = Sensor.signalFormula impRef (Sensor.impedance row).
Proof.
  unfold Sensor.rawSignal, Sensor.signalFormula.
  destruct (isNaN impRef), (impRef !== n0)%js, (isNaN (Sensor.impedance row));
    reflexivity.
Qed.

Lemma finishTable_nth (ref : num) (profile : list Point) (avail : bool)
    (table : list Sensor.Reading) (i : nat) (row : Sensor.Reading) :
  nth_error table i = Some row ->
  nth_error (Sensor.finishTable ref profile avail table) i
  = Some (Sensor.finishRow (Sensor.imp_ref table ref) profile avail row).
Proof. intro H. unfold Sensor.finishTable. now apply map_nth_error. Qed.

(** C6, as the code has it: for every row of a processed table, with
    [f = (impedance - baselineImpedance) / baselineImpedance * 100] when
    both are defined and [baselineImpedance] is not 0 and the undefined
    sentinel otherwise, the row's signal is [f] unless [|f| > 1e4], where it
    is the undefined sentinel.  On the rows with impedance 100, 100, 150, 100
    at minutes 0, 1, 2, 3 and reference time 1.5 the baseline impedance is
    100 and the signal at minute 2 is 50. *)
Theorem signal_of_row :
  (forall (table : list Sensor.Reading) (refTimeMinutes : num)
          (gasConcProfile : list Point) (gasConcAvailable : bool)
          (i : nat) (row : Sensor.Reading),
      nth_error table i = Some row ->
      exists row',
        nth_error (Sensor.finishTable refTimeMinutes gasConcProfile
                     gasConcAvailable table) i = Some row'
        /\ Sensor.signal row'
           = (if (abs (Sensor.signalFormula
                         (Sensor.imp_ref table refTimeMinutes)
                         (Sensor.impedance row)) >? n1e4)%js
              then NaN
              else Sensor.signalFormula (Sensor.imp_ref table refTimeMinutes)
                     (Sensor.impedance row)))
  /\ Sensor.imp_ref scenarioTable (Fin 1.5) = of_Z 100
  /\ (forall gasConcProfile gasConcAvailable,
        map Sensor.signal
          (Sensor.finishTable (Fin 1.5) gasConcProfile gasConcAvailable
             scenarioTable)
        = [of_Z 0; of_Z 0; of_Z 50; of_Z 0]).
Proof.
  split; [|split; [reflexivity | intros; reflexivity]].
  intros table ref profile avail i row Hrow.
  eexists. split; [apply finishTable_nth; exact Hrow|].
  cbn [Sensor.finishRow Sensor.signal]. now rewrite rawSignal_formula.
Qed.

Lemma signal_of_row_witness :
  exists row',
    nth_error (Sensor.finishTable (Fin 1.5) [] false scenarioTable) 2
    = Some row'
    /\ Sensor.signal row' = of_Z 50.
Proof.
  destruct (proj1 signal_of_row scenarioTable (Fin 1.5) [] false 2%nat
              (reading 2 150) eq_refl) as (row' & Hnth & Hsig).
  exists row'. split; [exact Hnth|]. rewrite Hsig. reflexivity.
Defined.

(** C6 as stated fails: with baseline impedance 1 the row of impedance 1000
    has both operands defined and the formula gives 99900, yet its signal is
    the undefined sentinel. *)
Lemma large_signal_is_suppressed :
  nth_error largeSignalTable 1 = Some (reading 1 1000)
  /\ Sensor.imp_ref largeSignalTable (Fin 0.5) = of_Z 1
  /\ Sensor.signalFormula (of_Z 1) (of_Z 1000) = of_Z 99900
  /\ map Sensor.signal (Sensor.finishTable (Fin 0.5) [] false largeSignalTable)
     = [of_Z 0; NaN].
Proof. repeat split. Qed.

(** C7, as the code has it: for every row, an impedance greater than 1e12
    (compared as it is, without taking its absolute value) is replaced by
    the undefined sentinel and any other impedance is left alone; a signal
    whose absolute value is greater than 1e4 is replaced by the undefined
    sentinel. *)
Theorem outlier_suppression (table : list Sensor.Reading)
    (refTimeMinutes : num) (gasConcProfile : list Point)
    (gasConcAvailable : bool) (i : nat) (row : Sensor.Reading) :
  nth_error table i = Some row ->
  exists row',
    nth_error (Sensor.finishTable refTimeMinutes gasConcProfile
                 gasConcAvailable table) i = Some row'
    /\ Sensor.impedance row'
       = (if (Sensor.impedance row >? n1e12)%js then NaN
          else Sensor.impedance row)
    /\ Sensor.signal row'
       = (if (abs (Sensor.rawSignal (Sensor.imp_ref table refTimeMinutes) row)
              >? n1e4)%js
          then NaN
          else Sensor.rawSignal (Sensor.imp_ref table refTimeMinutes) row).
Proof.
  intro Hrow. eexists. split; [apply finishTable_nth; exact Hrow|].
  split; reflexivity.
Qed.

Lemma outlier_suppression_witness :
  exists row',
    nth_error (Sensor.finishTable (Fin 0.5) [] false largeSignalTable) 1
    = Some row'
    /\ Sensor.impedance row' = of_Z 1000
    /\ Sensor.signal row' = NaN.
Proof.
  destruct (outlier_suppression largeSignalTable (Fin 0.5) [] false 1
              (row := reading 1 1000) eq_refl) as (row' & Hnth & Himp & Hsig).
  exists row'. split; [exact Hnth|]. split.
  - rewrite Himp. reflexivity.
  - rewrite Hsig. reflexivity.
Defined.

(** C7 as stated fails: the impedance -2e12 has a magnitude above 1e12 and
    is kept. *)
Lemma negative_impedance_is_kept :
  (abs (Sensor.impedance (reading 0 (-2000000000000))) >? n1e12)%js = true
  /\ map Sensor.impedance
       (Sensor.finishTable n0 [] false negativeImpedanceTable)
     = [of_Z (-2000000000000)].
Proof. split; reflexivity. Qed.

(** *** Rows with too few columns *)

Lemma finishRow_invalidRow (impRef : num) (profile : list Point) (avail : bool)
    (row : list string) :
  allUndefined (Sensor.finishRow impRef profile avail (Sensor.invalidRow row)).
Proof.
  unfold allUndefined, Sensor.finishRow, Sensor.rawSignal, Sensor.invalidRow.
  cbn [Sensor.time_s Sensor.time_min Sensor.impedance Sensor.phase
       Sensor.signal Sensor.gas_concentration isNaN negb].
  rewrite !andb_false_r. repeat split; reflexivity.
Qed.

Section Files.

Variable dateMillis : string -> option Z.
Variable parseFloat : string -> num.
Variable refTimeMinutes : num.
Variable gasConcProfile : list Point.
Variable gasConcAvailable : bool.

Lemma fold_tables (items : list Sensor.FileItem)
    (acc : list Sensor.SensorTable) :
  fold_left
    (fun sensorDataTablesResult item =>
       match Sensor.processFile dateMillis parseFloat refTimeMinutes
               gasConcProfile gasConcAvailable item with
       | Sensor.Processed table =>
           sensorDataTablesResult
           ++ [Sensor.mkTable (Sensor.effectiveName item) table]
       | _ => sensorDataTablesResult
       end) items acc
  = acc ++ flat_map (tablesOf dateMillis parseFloat refTimeMinutes gasConcProfile
                gasConcAvailable) items.
Proof.
  revert acc. induction items as [|item items IH]; intro acc; simpl.
  - now rewrite app_nil_r.
  - rewrite IH. unfold tablesOf at 2.
    destruct (Sensor.processFile _ _ _ _ _ item); simpl;
      rewrite <- ?app_assoc; reflexivity.
Qed.

Lemma processAll_flat_map (items : list Sensor.FileItem) :
  Sensor.processAllTimeSeriesFiles dateMillis parseFloat items refTimeMinutes
    gasConcProfile gasConcAvailable
  = flat_map (tablesOf dateMillis parseFloat refTimeMinutes gasConcProfile
                gasConcAvailable) items.
Proof. apply (fold_tables items []). Qed.

(** C8, as the code has it: in a file whose first row has at least nine
    columns, every row with fewer than nine columns is recorded as a reading
    whose numeric fields are all the undefined sentinel, every row of the
    file gets its reading, and the file's table is part of the result; a
    file whose first row has fewer than nine columns is skipped. *)
Theorem short_rows (item : Sensor.FileItem) (first : list string)
    (rest : list (list string)) :
  Sensor.rawData item = Some (first :: rest) ->
  ((List.length first < Sensor.minRequiredCols)%nat ->
   Sensor.processFile dateMillis parseFloat refTimeMinutes gasConcProfile
     gasConcAvailable item = Sensor.SkippedInsufficientColumns)
  /\ ((Sensor.minRequiredCols <= List.length first)%nat ->
      exists data,
        Sensor.processFile dateMillis parseFloat refTimeMinutes gasConcProfile
          gasConcAvailable item = Sensor.Processed data
        /\ List.length data = List.length (first :: rest)
        /\ (forall i row,
              nth_error (first :: rest) i = Some row ->
              (List.length row < Sensor.minRequiredCols)%nat ->
              exists r, nth_error data i = Some r /\ allUndefined r)
        /\ (forall items,
              In item items ->
              In (Sensor.mkTable (Sensor.effectiveName item) data)
                 (Sensor.processAllTimeSeriesFiles dateMillis parseFloat items
                    refTimeMinutes gasConcProfile gasConcAvailable))).
Proof.
  intro Hraw. unfold Sensor.processFile. rewrite Hraw. split.
  - intro Hlen. apply Nat.ltb_lt in Hlen. now rewrite Hlen.
  - intro Hlen. apply Nat.ltb_ge in Hlen. rewrite Hlen.
    eexists. split; [reflexivity|]. split; [|split].
    + unfold Sensor.finishTable, Sensor.buildTable. now rewrite !length_map.
    + intros i row Hrow Hshort.
      unfold Sensor.finishTable, Sensor.buildTable.
      eexists. split.
      * apply map_nth_error. apply map_nth_error. exact Hrow.
      * unfold Sensor.rowToReading. apply Nat.ltb_lt in Hshort.
        rewrite Hshort. apply finishRow_invalidRow.
    + intros items Hin. rewrite processAll_flat_map.
      apply in_flat_map. exists item. split; trivial.
      unfold tablesOf, Sensor.processFile. rewrite Hraw, Hlen.
      now left.
Qed.

End Files.

Lemma short_rows_witness :
  exists data,
    Sensor.processFile demoDateMillis demoParseFloat (Fin 1.5) [] false
      shortSecondRowFile = Sensor.Processed data
    /\ List.length data = 3%nat
    /\ exists r, nth_error data 1 = Some r /\ allUndefined r.
Proof.
  destruct (proj2 (short_rows demoDateMillis demoParseFloat (Fin 1.5) [] false
                     shortSecondRowFile eq_refl))
    as (data & Hp & Hlen & Hrows & _).
  - unfold Sensor.minRequiredCols. simpl. lia.
  - exists data. split; [exact Hp|]. split; [exact Hlen|].
    apply (Hrows 1%nat ["01/01/2024 00:01:00"%string]).
    + reflexivity.
    + unfold Sensor.minRequiredCols. simpl. lia.
Defined.

(** C8 as stated fails: a first row of one column makes the code skip the
    file, and no reading is recorded for any of its rows. *)
Lemma short_first_row_skips_file :
  Sensor.rawData shortFirstRowFile
  = Some (["01/01/2024 00:00:00"%string] :: demoRows)
  /\ Sensor.processFile demoDateMillis demoParseFloat (Fin 1.5) [] false
       shortFirstRowFile = Sensor.SkippedInsufficientColumns
  /\ Sensor.processAllTimeSeriesFiles demoDateMillis demoParseFloat
       [shortFirstRowFile] (Fin 1.5) [] false = [].
Proof. repeat split. Qed.

(* ================================================================== *)
(** * Further properties *)

(** ** More on exposure events *)

Lemma lt_irrefl (x : num) : (x <? x)%js = false.
Proof.
  destruct x; trivial. simpl. unfold Qlt_bool. apply negb_false_iff.
  apply Qle_bool_iff. apply Qle_refl.
Qed.

Lemma gt_eq_compat (x y z : num) :
  (x === y)%js = true -> (y >? z)%js = true -> (x >? z)%js = true.
Proof.
  unfold gt. destruct x, y, z; simpl; intros H1 H2; trivial; try discriminate.
  apply Qeq_bool_iff in H1. apply Qlt_bool_iff in H2. apply Qlt_bool_iff.
  now rewrite H1.
Qed.

Lemma credit_start (evs : list Event) (point : Point) :
  credit (Events.mkState evs (Some (Events.startEvent point))) = 1%nat.
Proof.
  unfold credit, Events.startEvent. cbn. unfold gt. now rewrite lt_irrefl.
Qed.

Lemma credit_le_2 (st : Events.State) : (credit st <= 2)%nat.
Proof.
  unfold credit. destruct (Events.activeEvent st) as [a|]; [|lia].
  destruct (endTime a >? startTime a)%js; lia.
Qed.

Lemma step_paidBy (st : Events.State) (point : Point) (k : nat) :
  paidBy st k ->
  paidBy (Events.step st point)
         (k + (if positivePoint point then 1 else 0)).
Proof.
  intros [Hk Hpos]. unfold Events.step, positivePoint.
  destruct (Events.activeEvent st) as [a|] eqn:Ea.
  - destruct (conc point === concentration a)%js eqn:Eeq; cbn [andb orb].
    + assert (Hp : (conc point >? n0)%js = true)
        by (eapply gt_eq_compat; eassumption).
      rewrite Hp.
      destruct (time_min point >? endTime a)%js eqn:Egt.
      * split; [|exact Hpos]. cbn [Events.events].
        pose proof (credit_le_2 (Events.mkState (Events.events st)
          (Some (mkEvent (startTime a) (concentration a) (time_min point))))).
        assert (1 <= credit st)%nat.
        { unfold credit. rewrite Ea. destruct (endTime a >? startTime a)%js; lia. }
        lia.
      * unfold ne. rewrite Eeq. cbn [negb orb].
        destruct (time_min point <=? endTime a)%js.
        -- split; [|exact Hp]. rewrite credit_start. cbn [Events.events].
           unfold Events.pushIfDuration. unfold credit in Hk. rewrite Ea in Hk.
           destruct (endTime a >? startTime a)%js;
             rewrite ?length_app; cbn [List.length]; lia.
        -- split; [lia|]. now rewrite Ea.
    + unfold ne. rewrite Eeq. cbn [negb orb].
      unfold credit in Hk. rewrite Ea in Hk.
      destruct (conc point >? n0)%js eqn:Hp.
      * split; [|exact Hp]. rewrite credit_start. cbn [Events.events].
        unfold Events.pushIfDuration.
        destruct (endTime a >? startTime a)%js;
          rewrite ?length_app; cbn [List.length]; lia.
      * split; [|exact I]. unfold credit. cbn [Events.events Events.activeEvent].
        unfold Events.pushIfDuration.
        destruct (endTime a >? startTime a)%js;
          rewrite ?length_app; cbn [List.length]; lia.
  - destruct (conc point >? n0)%js eqn:Hp.
    + split; [|exact Hp]. rewrite credit_start. cbn [Events.events].
      unfold credit in Hk. rewrite Ea in Hk. lia.
    + split; [lia|]. now rewrite Ea.
Qed.

Lemma loop_paidBy (profile : list Point) (st : Events.State) (k : nat) :
  paidBy st k ->
  paidBy (fold_left Events.step profile st)
         (k + List.length (filter positivePoint profile)).
Proof.
  revert st k. induction profile as [|p profile IH]; intros st k H; simpl.
  - now rewrite Nat.add_0_r.
  - pose proof (IH _ _ (@step_paidBy st p k H)) as H'.
    destruct (positivePoint p); cbn [List.length];
      [replace (k + S (List.length (filter positivePoint profile)))%nat
         with (k + 1 + List.length (filter positivePoint profile))%nat by lia
      | rewrite Nat.add_0_r in H']; exact H'.
Qed.

Lemma finish_paidBy (st : Events.State) (k : nat) :
  paidBy st k -> (2 * List.length (Events.finish st) <= k)%nat.
Proof.
  intros [Hk _]. unfold Events.finish. unfold credit in Hk.
  destruct (Events.activeEvent st) as [a|]; [|lia].
  destruct (endTime a >? startTime a)%js; [|lia].
  destruct (match rev (Events.events st) with [] => false | e :: _ => Events.sameEvent e a end);
    rewrite ?length_app; cbn [List.length]; lia.
Qed.

(** X1: every exposure event uses up two points of positive concentration,
    the one that opens it and a later one that extends it: twice the number
    of events returned is at most the number of points with [conc > 0].  A
    profile with fewer than two such points yields no event. *)
Theorem events_need_two_points (gasConcProfile : list Point) :
  (2 * List.length (Events.identifyGasExposureEvents gasConcProfile)
   <= List.length (filter positivePoint gasConcProfile))%nat.
Proof.
  unfold Events.identifyGasExposureEvents.
  destruct gasConcProfile as [|p profile]; [simpl; lia|].
  apply (@finish_paidBy (fold_left Events.step (p :: profile)
                           (Events.mkState [] None))
           (0 + List.length (filter positivePoint (p :: profile)))).
  apply (@loop_paidBy (p :: profile) (Events.mkState [] None) 0).
  split; [cbv; lia | exact I].
Qed.

Lemma eq_refl_defined (x : num) : isNaN x = false -> (x === x)%js = true.
Proof.
  destruct x; simpl; intro H; trivial; try discriminate.
  apply Qeq_bool_iff. reflexivity.
Qed.

Lemma gt_defined (x y : num) : (x >? y)%js = true -> isNaN x = false.
Proof. unfold gt. destruct x, y; simpl; intro H; trivial; discriminate. Qed.

Lemma startEvent_spans (profile : list Point) (point : Point) :
  In point profile -> (conc point >? n0)%js = true ->
  spansPoints profile (Events.startEvent point).
Proof.
  intros Hin Hpos. exists point, point. repeat split; trivial.
  apply eq_refl_defined. eapply gt_defined. exact Hpos.
Qed.

Lemma step_spans (profile : list Point) (st : Events.State) (point : Point) :
  In point profile ->
  Forall (spansPoints profile) (Events.events st) ->
  activeSpans profile st ->
  Forall (spansPoints profile) (Events.events (Events.step st point))
  /\ activeSpans profile (Events.step st point).
Proof.
  intros Hin Hev Hact. unfold Events.step, activeSpans in *.
  destruct (Events.activeEvent st) as [a|] eqn:Ea.
  - destruct ((conc point === concentration a) && (time_min point >? endTime a))%js
      eqn:Eext.
    + cbn [Events.events Events.activeEvent]. split; trivial.
      apply andb_prop in Eext. destruct Eext as [Eeq _].
      destruct Hact as (p & q & Hp & Hq & Hs & Hc & Hpos & He & Hqc).
      exists p, point. cbn [startTime endTime concentration].
      repeat split; trivial. now rewrite <- Hc.
    + destruct ((conc point !== concentration a) || (time_min point <=? endTime a))%js.
      * cbn [Events.events Events.activeEvent]. split.
        -- unfold Events.pushIfDuration.
           destruct (endTime a >? startTime a)%js; trivial.
           apply Forall_app. split; trivial. now constructor.
        -- destruct (conc point >? n0)%js eqn:Hpos; trivial.
           now apply startEvent_spans.
      * rewrite Ea. now split.
  - destruct (conc point >? n0)%js eqn:Hpos.
    + cbn [Events.events Events.activeEvent]. split; trivial.
      now apply startEvent_spans.
    + rewrite Ea. now split.
Qed.

Lemma loop_spans (profile rest : list Point) (st : Events.State) :
  incl rest profile ->
  Forall (spansPoints profile) (Events.events st) ->
  activeSpans profile st ->
  Forall (spansPoints profile) (Events.events (fold_left Events.step rest st))
  /\ activeSpans profile (fold_left Events.step rest st).
Proof.
  revert st. induction rest as [|p rest IH]; intros st Hincl Hev Hact; simpl.
  - now split.
  - destruct (@step_spans profile st p (Hincl p (or_introl eq_refl)) Hev Hact)
      as [Hev' Hact'].
    apply IH; trivial. intros x Hx. apply Hincl. now right.
Qed.

Lemma finish_spans (profile : list Point) (st : Events.State) :
  Forall (spansPoints profile) (Events.events st) ->
  activeSpans profile st ->
  Forall (spansPoints profile) (Events.finish st).
Proof.
  intros Hev Hact. unfold Events.finish, activeSpans in *.
  destruct (Events.activeEvent st) as [a|]; trivial.
  destruct (endTime a >? startTime a)%js; trivial.
  destruct (match rev (Events.events st) with [] => false | e :: _ => Events.sameEvent e a end);
    trivial.
  apply Forall_app. split; trivial. now constructor.
Qed.

Lemma identify_spans (gasConcProfile : list Point) :
  Forall (spansPoints gasConcProfile)
         (Events.identifyGasExposureEvents gasConcProfile).
Proof.
  unfold Events.identifyGasExposureEvents.
  destruct gasConcProfile as [|p profile]; [constructor|].
  destruct (@loop_spans (p :: profile) (p :: profile)
              (Events.mkState [] None)) as [Hev Hact].
  - apply incl_refl.
  - constructor.
  - exact I.
  - now apply finish_spans.
Qed.

(** X2: every event returned starts at the time of a point of the profile
    whose concentration is positive and is the event's concentration, and
    ends at the time of a point of the profile with (by [===]) that same
    concentration; the extractor invents no time and no concentration. *)
Theorem events_span_profile_points (gasConcProfile : list Point) :
  Forall (fun e =>
            exists p q,
              In p gasConcProfile /\ In q gasConcProfile
              /\ startTime e = time_min p /\ concentration e = conc p
              /\ (conc p >? n0)%js = true
              /\ endTime e = time_min q /\ (conc q === conc p)%js = true)
         (Events.identifyGasExposureEvents gasConcProfile).
Proof. exact (identify_spans gasConcProfile). Qed.

(** ** More on the sampler *)

Lemma scan_value (points : list Point) (t r : num) :
  Sampler.scan points t r = r
  \/ exists p, In p points /\ Sampler.scan points t r = conc p.
Proof.
  revert r. induction points as [|p points IH]; intro r; simpl; [now left|].
  destruct (time_min p <=? t)%js; [|now left].
  right. destruct (IH (conc p)) as [H|(q & Hq & H)].
  - exists p. split; [now left | exact H].
  - exists q. split; [now right | exact H].
Qed.

Lemma interpolate_value (concProfile : list Point) (targetTimeMin : num) :
  isNaN targetTimeMin = false -> concProfile <> [] ->
  exists p, In p concProfile
    /\ Sampler.interpolateGasConcentration concProfile targetTimeMin = conc p.
Proof.
  intros Ht Hne. unfold Sampler.interpolateGasConcentration. rewrite Ht.
  destruct concProfile as [|p0 rest]; [contradiction|].
  destruct (targetTimeMin <? time_min p0)%js.
  - exists p0. split; [now left | reflexivity].
  - destruct (scan_value (p0 :: rest) targetTimeMin (conc p0)) as [H|H].
    + exists p0. split; [now left | exact H].
    + exact H.
Qed.

(** X3: for a defined query time and a non-empty profile, ordered or not,
    [interpolateGasConcentration] returns the concentration of one of the
    points of the profile; it never computes a value in between. *)
Theorem sampler_returns_profile_value (concProfile : list Point)
    (targetTimeMin : num) :
  isNaN targetTimeMin = false -> concProfile <> [] ->
  exists p, In p concProfile
    /\ Sampler.interpolateGasConcentration concProfile targetTimeMin = conc p.
Proof.
  intros Ht Hne.
  destruct concProfile as [|p0 rest]; [contradiction|].
  destruct (@interpolate_value (p0 :: rest) targetTimeMin Ht Hne)
    as (p & Hin & Hval).
  exists p. now split.
Qed.

Lemma sampler_returns_profile_value_witness :
  exists p, In p [pt 10 0; pt 5 20; pt 0 7]
    /\ Sampler.interpolateGasConcentration [pt 10 0; pt 5 20; pt 0 7] (of_Z 6)
       = conc p.
Proof.
  apply (@sampler_returns_profile_value [pt 10 0; pt 5 20; pt 0 7] (of_Z 6)).
  - reflexivity.
  - discriminate.
Defined.

Lemma scan_prefix (prefix : list Point) (p : Point) (suffix : list Point)
    (t r : num) :
  Forall (fun q => (time_min q <=? t)%js = true) prefix ->
  (time_min p <=? t)%js = false ->
  Sampler.scan (prefix ++ p :: suffix) t r
  = match Profile.lastOf prefix with Some q => conc q | None => r end.
Proof.
  intros Hall Hp. revert r.
  induction Hall as [|q prefix Hq Hall IH]; intro r; simpl.
  - now rewrite Hp.
  - rewrite Hq, IH. destruct prefix as [|q' prefix]; trivial.
    rewrite lastOf_cons_or.
    destruct (Profile.lastOf prefix); reflexivity.
Qed.

(** X4: the scan stops at the first point whose time is not at most the
    query: when every point before it has a time at most the query, the
    result is the concentration of the last of those points, whatever
    follows, even a later point with a time at most the query. *)
Theorem sampler_stops_at_first_later_point (prefix : list Point) (p : Point)
    (suffix : list Point) (t : num) (lastBefore : Point) :
  Forall (fun q => (time_min q <=? t)%js = true) prefix ->
  Profile.lastOf prefix = Some lastBefore ->
  (time_min p <=? t)%js = false ->
  Sampler.interpolateGasConcentration (prefix ++ p :: suffix) t
  = conc lastBefore.
Proof.
  intros Hall Hlast Hp. unfold Sampler.interpolateGasConcentration.
  destruct prefix as [|p0 prefix]; [discriminate|].
  inversion Hall as [|? ? Hp0 Hrest]; subst.
  destruct (le_defined _ _ Hp0) as [_ Ht]. rewrite Ht.
  cbn [app]. rewrite (le_not_lt _ _ Hp0).
  change (p0 :: prefix ++ p :: suffix) with ((p0 :: prefix) ++ p :: suffix).
  rewrite (@scan_prefix (p0 :: prefix) p suffix t (conc p0) Hall Hp).
  now rewrite Hlast.
Qed.

Lemma sampler_stops_at_first_later_point_witness :
  Sampler.interpolateGasConcentration
    ([pt 0 0; pt 5 20] ++ pt 10 30 :: [pt 6 40]) (of_Z 7)
  = of_Z 20.
Proof.
  apply (@sampler_stops_at_first_later_point [pt 0 0; pt 5 20] (pt 10 30)
           [pt 6 40] (of_Z 7) (pt 5 20)).
  - repeat constructor.
  - reflexivity.
  - reflexivity.
Defined.

(** ** More on the profile builder *)

Lemma ne_refl_defined (x : num) : isNaN x = false -> (x !== x)%js = false.
Proof. intro H. unfold ne. now rewrite eq_refl_defined. Qed.

(** *** The guards of the loop body *)

Lemma pushPoint1_idle (profile : list Point) (t prev : num) (lp : Point) :
  Profile.lastOf profile = Some lp ->
  time_min lp = (t / n60)%js -> conc lp = prev -> isNaN prev = false ->
  Profile.pushPoint1 profile t prev = profile.
Proof.
  intros Hlast Ht Hc Hprev. unfold Profile.pushPoint1. rewrite Hlast, Ht, Hc.
  now rewrite lt_irrefl, (ne_refl_defined _ Hprev), andb_false_r.
Qed.

Lemma pushPoint2_plain (profile : list Point) (t prev cur : num) (lp : Point) :
  Profile.lastOf profile = Some lp -> conc lp = prev ->
  Profile.pushPoint2 profile t prev cur
  = profile ++ (if (cur !== prev)%js
                then [mkPoint (t / n60 + Profile.oneSecondInMinutes)%js cur]
                else []).
Proof.
  intros Hlast Hc. unfold Profile.pushPoint2. rewrite Hlast, Hc.
  destruct (cur !== prev)%js eqn:E; trivial.
  unfold ne in *. rewrite eq_sym, (proj1 (negb_false_iff _) E).
  cbn [negb]. now rewrite app_nil_r.
Qed.

Lemma loopBody_plain (tf gc : num) (st : Profile.LoopState) (step : FlowStep) :
  endsAtCurrent st ->
  Profile.loopBody tf gc st step = plainBody tf gc st step.
Proof.
  intros (Hdef & lp & Hlast & Ht & Hc).
  unfold Profile.loopBody, plainBody.
  rewrite (@pushPoint1_idle _ _ _ lp Hlast Ht Hc Hdef).
  rewrite (@pushPoint2_plain _ (Profile.currentTimeSeconds st) _
             (Profile.stepConcentration tf gc step) lp Hlast Hc).
  now rewrite <- app_assoc.
Qed.

Lemma plainBody_endsAtCurrent (tf gc : num) (st : Profile.LoopState)
    (step : FlowStep) :
  isNaN (Profile.stepConcentration tf gc step) = false ->
  endsAtCurrent (plainBody tf gc st step).
Proof.
  intro Hdef. split; [exact Hdef|]. unfold plainBody.
  cbn [Profile.calculatedProfile Profile.currentTimeSeconds
       Profile.currentConcentration].
  eexists. rewrite app_assoc, lastOf_snoc. repeat split; reflexivity.
Qed.

Lemma fold_loop_plain (tf gc : num) (steps : list FlowStep)
    (st : Profile.LoopState) :
  Forall (fun step => isNaN (Profile.stepConcentration tf gc step) = false)
         steps ->
  endsAtCurrent st ->
  fold_left (Profile.loopBody tf gc) steps st
  = fold_left (plainBody tf gc) steps st.
Proof.
  intro Hall. revert st.
  induction Hall as [|s steps Hs Hall IH]; intros st Hst; trivial.
  simpl. rewrite (@loopBody_plain tf gc st s Hst). apply IH.
  now apply plainBody_endsAtCurrent.
Qed.

Lemma initLoop_endsAtCurrent : endsAtCurrent Profile.initLoop.
Proof. split; [reflexivity|]. exists Profile.pZero. repeat split; reflexivity. Qed.

(** X5: when no step concentration is NaN the guards of the loop body
    never add a point: the closing point of the previous level ("Point 1")
    and the second branch of "Point 2" stay idle, and the result is the
    deduplication of (0,0) followed, for each step, by the transition point
    one second after its start if the concentration changes, and by its end
    point. *)
Theorem guards_idle_without_NaN (gasFlowData : list FlowStep)
    (config : option Profile.Config) :
  Forall (fun step =>
            isNaN (Profile.stepConcentration
                     (Profile.resolveTotalFlowrate config)
                     (Profile.resolveGasConcCyl2 config) step) = false)
         gasFlowData ->
  Profile.calculateGasConcVsTime gasFlowData config
  = Profile.dedup
      (Profile.calculatedProfile
         (fold_left (plainBody (Profile.resolveTotalFlowrate config)
                       (Profile.resolveGasConcCyl2 config))
            gasFlowData Profile.initLoop)).
Proof.
  intro Hall. rewrite calculate_eq. unfold Profile.runLoop.
  now rewrite (@fold_loop_plain _ _ gasFlowData Profile.initLoop Hall
                 initLoop_endsAtCurrent).
Qed.

Lemma guards_idle_without_NaN_witness :
  Profile.calculateGasConcVsTime [fs 0 60; fs 100 120] (cfg 500 50)
  = Profile.dedup
      (Profile.calculatedProfile
         (fold_left (plainBody (of_Z 500) (of_Z 50)) [fs 0 60; fs 100 120]
            Profile.initLoop)).
Proof.
  apply (@guards_idle_without_NaN [fs 0 60; fs 100 120] (cfg 500 50)).
  repeat constructor.
Defined.

(** *** Where the concentrations come from *)

Lemma pushPoint1_cases (profile : list Point) (t prev : num) :
  Profile.pushPoint1 profile t prev = profile
  \/ Profile.pushPoint1 profile t prev
     = profile ++ [mkPoint (t / n60)%js prev].
Proof.
  unfold Profile.pushPoint1.
  destruct (match Profile.lastOf profile with None => true | Some _ => _ end);
    [|now left].
  destruct (match Profile.lastOf profile with None => false | Some _ => _ end);
    [now left | now right].
Qed.

Lemma pushPoint2_cases (profile : list Point) (t prev cur : num) :
  Profile.pushPoint2 profile t prev cur = profile
  \/ Profile.pushPoint2 profile t prev cur
     = profile ++ [mkPoint (t / n60 + Profile.oneSecondInMinutes)%js cur].
Proof.
  unfold Profile.pushPoint2.
  destruct (cur !== prev)%js; [now right|].
  destruct (Profile.lastOf profile) as [lp|]; [|now left].
  destruct (conc lp !== cur)%js; [now right | now left].
Qed.

Lemma Forall_snoc (A : Type) (P : A -> Prop) (l : list A) (x : A) :
  Forall P l -> P x -> Forall P (l ++ [x]).
Proof. intros Hl Hx. apply Forall_app. split; trivial. now constructor. Qed.

Lemma loopBody_known (tf gc : num) (steps : list FlowStep)
    (st : Profile.LoopState) (step : FlowStep) :
  In step steps ->
  Forall (fun p => knownConcentration tf gc steps (conc p))
         (Profile.calculatedProfile st) ->
  knownConcentration tf gc steps (Profile.currentConcentration st) ->
  Forall (fun p => knownConcentration tf gc steps (conc p))
         (Profile.calculatedProfile (Profile.loopBody tf gc st step))
  /\ knownConcentration tf gc steps
       (Profile.currentConcentration (Profile.loopBody tf gc st step)).
Proof.
  intros Hin Hall Hcur.
  assert (Hnew : knownConcentration tf gc steps
                   (Profile.stepConcentration tf gc step))
    by (right; exists step; now split).
  unfold Profile.loopBody.
  cbn [Profile.calculatedProfile Profile.currentConcentration].
  split; trivial.
  assert (H1 : Forall (fun p => knownConcentration tf gc steps (conc p))
                 (Profile.pushPoint1 (Profile.calculatedProfile st)
                    (Profile.currentTimeSeconds st)
                    (Profile.currentConcentration st))).
  { destruct (pushPoint1_cases (Profile.calculatedProfile st)
                (Profile.currentTimeSeconds st)
                (Profile.currentConcentration st)) as [-> | ->]; trivial.
    now apply Forall_snoc. }
  apply Forall_snoc; trivial.
  destruct (pushPoint2_cases
              (Profile.pushPoint1 (Profile.calculatedProfile st)
                 (Profile.currentTimeSeconds st) (Profile.currentConcentration st))
              (Profile.currentTimeSeconds st) (Profile.currentConcentration st)
              (Profile.stepConcentration tf gc step)) as [-> | ->]; trivial.
  now apply Forall_snoc.
Qed.

Lemma fold_loop_known (tf gc : num) (steps rest : list FlowStep)
    (st : Profile.LoopState) :
  incl rest steps ->
  Forall (fun p => knownConcentration tf gc steps (conc p))
         (Profile.calculatedProfile st) ->
  knownConcentration tf gc steps (Profile.currentConcentration st) ->
  Forall (fun p => knownConcentration tf gc steps (conc p))
         (Profile.calculatedProfile (fold_left (Profile.loopBody tf gc) rest st)).
Proof.
  revert st. induction rest as [|s rest IH]; intros st Hincl Hall Hcur; trivial.
  simpl.
  destruct (@loopBody_known tf gc steps st s (Hincl s (or_introl eq_refl))
              Hall Hcur) as [Hall' Hcur'].
  apply IH; trivial. intros x Hx. apply Hincl. now right.
Qed.

Lemma calculate_known (gasFlowData : list FlowStep)
    (config : option Profile.Config) :
  Forall (fun p => knownConcentration (Profile.resolveTotalFlowrate config)
                     (Profile.resolveGasConcCyl2 config) gasFlowData (conc p))
         (Profile.calculateGasConcVsTime gasFlowData config).
Proof.
  rewrite calculate_eq. apply dedup_Forall. unfold Profile.runLoop.
  apply fold_loop_known.
  - apply incl_refl.
  - repeat constructor.
  - now left.
Qed.

(** X6: every concentration in the profile returned is 0, the initial
    concentration, or the concentration computed for one of the steps. *)
Theorem profile_concentrations_known (gasFlowData : list FlowStep)
    (config : option Profile.Config) :
  Forall (fun p =>
            conc p = n0
            \/ exists step,
                 In step gasFlowData
                 /\ conc p = Profile.stepConcentration
                               (Profile.resolveTotalFlowrate config)
                               (Profile.resolveGasConcCyl2 config) step)
         (Profile.calculateGasConcVsTime gasFlowData config).
Proof. exact (calculate_known gasFlowData config). Qed.

(** X7: the extractor run on the builder's profile: every exposure event
    has a positive concentration that is the concentration computed for one
    of the steps of the schedule. *)
Theorem events_of_profile_are_steps (gasFlowData : list FlowStep)
    (config : option Profile.Config) :
  Forall (fun e =>
            (concentration e >? n0)%js = true
            /\ exists step,
                 In step gasFlowData
                 /\ concentration e
                    = Profile.stepConcentration
                        (Profile.resolveTotalFlowrate config)
                        (Profile.resolveGasConcCyl2 config) step)
         (Events.identifyGasExposureEvents
            (Profile.calculateGasConcVsTime gasFlowData config)).
Proof.
  eapply Forall_impl;
    [|apply (identify_spans (Profile.calculateGasConcVsTime gasFlowData config))].
  intros e (p & q & Hp & _ & _ & Hc & Hpos & _).
  rewrite Hc. split; trivial.
  pose proof (calculate_known gasFlowData config) as Hk.
  rewrite Forall_forall in Hk. destruct (Hk p Hp) as [H0|H]; trivial.
  rewrite H0 in Hpos. discriminate.
Qed.

(** *** The end of the profile *)

Lemma loopBody_time (tf gc : num) (st : Profile.LoopState) (step : FlowStep) :
  Profile.currentTimeSeconds (Profile.loopBody tf gc st step)
  = (Profile.currentTimeSeconds st + durationSeconds step)%js.
Proof. reflexivity. Qed.

Lemma fold_loop_time (tf gc : num) (steps : list FlowStep)
    (st : Profile.LoopState) :
  Profile.currentTimeSeconds (fold_left (Profile.loopBody tf gc) steps st)
  = fold_left (fun t step => (t + durationSeconds step)%js) steps
      (Profile.currentTimeSeconds st).
Proof.
  revert st. induction steps as [|s steps IH]; intro st; trivial.
  simpl. now rewrite IH.
Qed.

Lemma lastOf_app_last (A : Type) (l : list A) (x : A) :
  Profile.lastOf l = Some x -> exists l', l = l' ++ [x].
Proof.
  induction l as [|a l IH]; [discriminate|].
  destruct l as [|b l].
  - intro H. injection H as ->. now exists [].
  - rewrite lastOf_cons. intro H. destruct (IH H) as [l' ->].
    now exists (a :: l').
Qed.

(** After a non-empty schedule the loop profile ends with the end point of
    the last step. *)
Lemma runLoop_last (tf gc : num) (gasFlowData : list FlowStep)
    (lastStep : FlowStep) :
  Profile.lastOf gasFlowData = Some lastStep ->
  Profile.lastOf (Profile.calculatedProfile (Profile.runLoop tf gc gasFlowData))
  = Some (mkPoint (totalSeconds gasFlowData / n60)%js
                  (Profile.stepConcentration tf gc lastStep)).
Proof.
  intro Hlast. destruct (@lastOf_app_last _ gasFlowData lastStep Hlast) as [steps ->].
  unfold Profile.runLoop, totalSeconds. rewrite !fold_left_app. cbn [fold_left].
  unfold Profile.loopBody at 1. cbn [Profile.calculatedProfile].
  rewrite lastOf_snoc, fold_loop_time. reflexivity.
Qed.

Lemma dedupFrom_last (l : list Point) (kept prev : Point) :
  kept = prev \/ Profile.samePoint kept prev = true ->
  exists p final,
    Profile.lastOf (kept :: Profile.dedupFrom prev l) = Some p
    /\ Profile.lastOf (prev :: l) = Some final
    /\ (p = final \/ Profile.samePoint p final = true).
Proof.
  revert kept prev. induction l as [|x l IH]; intros kept prev Hk.
  - exists kept, prev. repeat split. exact Hk.
  - cbn [Profile.dedupFrom]. rewrite dedup_test, lastOf_cons.
    destruct (Profile.samePoint x prev) eqn:E; cbn [negb].
    + apply IH. right. rewrite samePoint_sym in E.
      destruct Hk as [->|Hk]; trivial. eapply samePoint_trans; eassumption.
    + rewrite lastOf_cons. apply IH. now left.
Qed.

Lemma dedup_last (l : list Point) (final : Point) :
  Profile.lastOf l = Some final ->
  exists p, Profile.lastOf (Profile.dedup l) = Some p
            /\ (p = final \/ Profile.samePoint p final = true).
Proof.
  destruct l as [|a l]; [discriminate|]. intro Hl. cbn [Profile.dedup].
  destruct (@dedupFrom_last l a a (or_introl eq_refl))
    as (p & final' & Hp & Hf & Hrel).
  rewrite Hl in Hf. injection Hf as <-. now exists p.
Qed.

(** X8: for a non-empty schedule the profile ends at the end of the
    schedule: its last point is the point at (sum of the durations) / 60
    minutes with the concentration of the last step, or a point that agrees
    with it (by [===]) on both fields, kept in its place by the
    deduplication. *)
Theorem profile_ends_with_schedule (gasFlowData : list FlowStep)
    (config : option Profile.Config) (lastStep : FlowStep) :
  Profile.lastOf gasFlowData = Some lastStep ->
  exists p,
    Profile.lastOf (Profile.calculateGasConcVsTime gasFlowData config) = Some p
    /\ (p = mkPoint (totalSeconds gasFlowData / n60)%js
                    (Profile.stepConcentration
                       (Profile.resolveTotalFlowrate config)
                       (Profile.resolveGasConcCyl2 config) lastStep)
        \/ Profile.samePoint p
             (mkPoint (totalSeconds gasFlowData / n60)%js
                      (Profile.stepConcentration
                         (Profile.resolveTotalFlowrate config)
                         (Profile.resolveGasConcCyl2 config) lastStep))
           = true).
Proof.
  intro Hlast. rewrite calculate_eq. apply dedup_last.
  now apply runLoop_last.
Qed.

Lemma profile_ends_with_schedule_witness :
  exists p,
    Profile.lastOf
      (Profile.calculateGasConcVsTime [fs 0 60; fs 100 120] (cfg 500 50))
    = Some p
    /\ (p = mkPoint (of_Z 3) (of_Z 10)
        \/ Profile.samePoint p (mkPoint (of_Z 3) (of_Z 10)) = true).
Proof.
  apply (@profile_ends_with_schedule [fs 0 60; fs 100 120] (cfg 500 50)
           (fs 100 120)).
  reflexivity.
Defined.

(** *** The size of the profile *)

Lemma dedupFrom_length (prev : Point) (l : list Point) :
  (List.length (Profile.dedupFrom prev l) <= List.length l)%nat.
Proof.
  revert prev. induction l as [|p l IH]; intro prev; simpl; [lia|].
  destruct (_ || _)%bool; simpl; specialize (IH p); lia.
Qed.

Lemma dedup_length (l : list Point) :
  (List.length (Profile.dedup l) <= List.length l)%nat.
Proof.
  destruct l as [|p l]; simpl; [lia|].
  pose proof (dedupFrom_length p l). lia.
Qed.

Lemma loopBody_length (tf gc : num) (st : Profile.LoopState) (step : FlowStep) :
  (List.length (Profile.calculatedProfile (Profile.loopBody tf gc st step))
   <= List.length (Profile.calculatedProfile st) + 3)%nat.
Proof.
  unfold Profile.loopBody. cbn [Profile.calculatedProfile].
  rewrite length_app. cbn [List.length].
  destruct (pushPoint2_cases
              (Profile.pushPoint1 (Profile.calculatedProfile st)
                 (Profile.currentTimeSeconds st) (Profile.currentConcentration st))
              (Profile.currentTimeSeconds st) (Profile.currentConcentration st)
              (Profile.stepConcentration tf gc step)) as [-> | ->];
    rewrite ?length_app; cbn [List.length].
  all: destruct (pushPoint1_cases (Profile.calculatedProfile st)
              (Profile.currentTimeSeconds st) (Profile.currentConcentration st))
         as [-> | ->]; rewrite ?length_app; cbn [List.length]; lia.
Qed.

Lemma fold_loop_length (tf gc : num) (steps : list FlowStep)
    (st : Profile.LoopState) :
  (List.length (Profile.calculatedProfile
                  (fold_left (Profile.loopBody tf gc) steps st))
   <= List.length (Profile.calculatedProfile st) + 3 * List.length steps)%nat.
Proof.
  revert st. induction steps as [|s steps IH]; intro st; simpl; [lia|].
  pose proof (IH (Profile.loopBody tf gc st s)).
  pose proof (loopBody_length tf gc st s). lia.
Qed.

(** X9: the profile returned holds at least one point and at most three
    points per step beside the initial one. *)
Theorem profile_size (gasFlowData : list FlowStep)
    (config : option Profile.Config) :
  (1 <= List.length (Profile.calculateGasConcVsTime gasFlowData config)
   <= 1 + 3 * List.length gasFlowData)%nat.
Proof.
  split.
  - rewrite calculate_eq.
    destruct (runLoop_head (Profile.resolveTotalFlowrate config)
                (Profile.resolveGasConcCyl2 config) gasFlowData) as [body ->].
    simpl. lia.
  - rewrite calculate_eq.
    pose proof (dedup_length (Profile.calculatedProfile
      (Profile.runLoop (Profile.resolveTotalFlowrate config)
         (Profile.resolveGasConcCyl2 config) gasFlowData))).
    pose proof (fold_loop_length (Profile.resolveTotalFlowrate config)
      (Profile.resolveGasConcCyl2 config) gasFlowData Profile.initLoop).
    unfold Profile.runLoop in *. cbn [Profile.initLoop Profile.calculatedProfile
      List.length] in *. lia.
Qed.

(** ** More on sensor files *)

(** *** The baseline row *)

Lemma Qred_zero (q : Q) : q == 0 -> Qred q = 0.
Proof. intro H. now rewrite (Qred_complete _ _ H). Qed.

Lemma signal_of_equal_impedance (z : Q) (row : Sensor.Reading) :
  Qeq_bool z 0 = false -> Sensor.impedance row = Fin z ->
  Sensor.rawSignal (Fin z) row = n0.
Proof.
  intros Hz Himp. unfold Sensor.rawSignal. rewrite Himp.
  unfold ne. cbn [isNaN negb JsNum.eq n0]. rewrite Hz. cbn [negb andb].
  unfold sub. cbn [neg add]. rewrite (@Qred_zero (z + Qred (- z))).
  2:{ rewrite Qred_correct. ring. }
  cbn [div]. rewrite Hz. rewrite (@Qred_zero (0 / z)).
  2:{ unfold Qdiv. ring. }
  reflexivity.
Qed.

(** X10: when the baseline row has a finite impedance other than 0, the
    signal of the baseline row itself is 0. *)
Theorem baseline_row_signal_is_zero (table : list Sensor.Reading)
    (refTimeMinutes : num) (gasConcProfile : list Point)
    (gasConcAvailable : bool) (i : nat) (row : Sensor.Reading) (z : Q) :
  Sensor.refIdx table refTimeMinutes = Some i ->
  nth_error table i = Some row ->
  Sensor.impedance row = Fin z -> Qeq_bool z 0 = false ->
  exists row',
    nth_error (Sensor.finishTable refTimeMinutes gasConcProfile
                 gasConcAvailable table) i = Some row'
    /\ Sensor.signal row' = n0.
Proof.
  intros Hidx Hrow Himp Hz. eexists. split.
  - apply finishTable_nth. exact Hrow.
  - assert (Href : Sensor.imp_ref table refTimeMinutes = Fin z).
    { unfold Sensor.imp_ref. now rewrite Hidx, Hrow, Himp. }
    rewrite Href. cbn [Sensor.finishRow Sensor.signal].
    now rewrite (signal_of_equal_impedance row Hz Himp).
Qed.

Lemma baseline_row_signal_is_zero_witness :
  exists row',
    nth_error (Sensor.finishTable (Fin 1.5) [] false scenarioTable) 1
    = Some row'
    /\ Sensor.signal row' = n0.
Proof.
  apply (@baseline_row_signal_is_zero scenarioTable (Fin 1.5) [] false 1
           (reading 1 100) 100); reflexivity.
Defined.

(** *** Only differences of parsed times count *)

Section Shift.

Variable dateMillis : string -> option Z.
Variable parseFloat : string -> num.
Variable k : Z.

Lemma sub_shift (z z0 : Z) :
  (of_Z (k + z) - of_Z (k + z0))%js = (of_Z z - of_Z z0)%js.
Proof.
  unfold sub, of_Z. cbn [neg add]. f_equal. apply Qred_complete.
  rewrite !Qred_correct, !inject_Z_plus. ring.
Qed.

Lemma millis_shifted (s : string) :
  Sensor.millis (shifted k dateMillis) s
  = match dateMillis s with Some z => of_Z (k + z) | None => NaN end.
Proof.
  unfold Sensor.millis, shifted. now destruct (dateMillis s).
Qed.


Lemma rowToReading_shifted (stamp : string) (row : list string) :
  Sensor.rowToReading (shifted k dateMillis) parseFloat
    (Sensor.millis (shifted k dateMillis) stamp) row
  = Sensor.rowToReading dateMillis parseFloat
      (Sensor.millis dateMillis stamp) row.
Proof.
  unfold Sensor.rowToReading.
  destruct (List.length row <? Sensor.minRequiredCols)%nat; trivial.
  rewrite !millis_shifted. unfold Sensor.millis.
  destruct (dateMillis (Sensor.col row Sensor.timeColIdx)) as [z|],
           (dateMillis stamp) as [z0|]; trivial.
  cbn [isNaN of_Z negb andb]. now rewrite sub_shift.
Qed.

Lemma buildTable_shifted (rawDataArray : list (list string)) :
  Sensor.buildTable (shifted k dateMillis) parseFloat rawDataArray
  = Sensor.buildTable dateMillis parseFloat rawDataArray.
Proof.
  unfold Sensor.buildTable. destruct rawDataArray as [|first rest]; trivial.
  apply map_ext. intro row. apply rowToReading_shifted.
Qed.

(** X11: the parsed times count by their differences only: were the date
    parser to return, for the same texts, every value the same number of
    milliseconds later, the tables returned for the same files would be the
    same in every field. *)
Theorem only_time_differences_count (refTimeMinutes : num)
    (gasConcProfile : list Point) (gasConcAvailable : bool)
    (timeSeriesFileItems : list Sensor.FileItem) :
  Sensor.processAllTimeSeriesFiles (shifted k dateMillis) parseFloat
    timeSeriesFileItems refTimeMinutes gasConcProfile gasConcAvailable
  = Sensor.processAllTimeSeriesFiles dateMillis parseFloat
      timeSeriesFileItems refTimeMinutes gasConcProfile gasConcAvailable.
Proof.
  rewrite !processAll_flat_map. apply flat_map_ext. intro item.
  unfold tablesOf, Sensor.processFile.
  destruct (Sensor.rawData item) as [[|first rest]|]; trivial.
  now rewrite buildTable_shifted.
Qed.

End Shift.

(** *** The tables of the result *)

(** X12: the tables returned are those of the files that parsed, have a
    row and have a first row of at least nine columns, one table per such
    file, in the order of the files and under the file's effective name. *)
Theorem tables_follow_file_order (dateMillis : string -> option Z)
    (parseFloat : string -> num) (timeSeriesFileItems : list Sensor.FileItem)
    (refTimeMinutes : num) (gasConcProfile : list Point)
    (gasConcAvailable : bool) :
  map Sensor.fileName
    (Sensor.processAllTimeSeriesFiles dateMillis parseFloat
       timeSeriesFileItems refTimeMinutes gasConcProfile gasConcAvailable)
  = map Sensor.effectiveName (filter processable timeSeriesFileItems).
Proof.
  rewrite processAll_flat_map.
  induction timeSeriesFileItems as [|item items IH]; trivial.
  cbn [flat_map filter]. rewrite map_app, IH.
  unfold tablesOf at 1, Sensor.processFile, processable.
  destruct (Sensor.rawData item) as [[|first rest]|]; trivial.
  rewrite Nat.leb_antisym.
  destruct (List.length first <? Sensor.minRequiredCols)%nat; reflexivity.
Qed.

(** *** The gas concentration of a row *)

(** X13: the gas concentration written to a row is the undefined
    sentinel, or, when the profile is available and the row's time is
    defined, the concentration of one of the points of the profile. *)
Theorem gas_annotation_values (table : list Sensor.Reading)
    (refTimeMinutes : num) (gasConcProfile : list Point)
    (gasConcAvailable : bool) :
  Forall (fun row' =>
            Sensor.gas_concentration row' = NaN
            \/ (gasConcAvailable = true
                /\ isNaN (Sensor.time_min row') = false
                /\ exists p, In p gasConcProfile
                             /\ Sensor.gas_concentration row' = conc p))
         (Sensor.finishTable refTimeMinutes gasConcProfile gasConcAvailable
            table).
Proof.
  unfold Sensor.finishTable. apply Forall_forall. intros row' Hin.
  apply in_map_iff in Hin. destruct Hin as (row & <- & _).
  cbn [Sensor.finishRow Sensor.gas_concentration Sensor.time_min].
  destruct gasConcAvailable; [|now left].
  destruct gasConcProfile as [|p0 rest]; [now left|].
  destruct (isNaN (Sensor.time_min row)) eqn:Et; [now left|].
  right. repeat split; trivial. cbn [List.length Nat.ltb Nat.leb andb negb].
  apply interpolate_value; [exact Et | discriminate].
Qed.

(** *** A file whose first time stamp does not parse *)

(** X14: when the time stamp of the first row of a file does not parse,
    the file is still processed, row for row, but every row has an undefined
    relative time, and with it an undefined signal (no baseline row can be
    chosen) and an undefined gas concentration. *)
Theorem unparsable_first_stamp (dateMillis : string -> option Z)
    (parseFloat : string -> num) (refTimeMinutes : num)
    (gasConcProfile : list Point) (gasConcAvailable : bool)
    (item : Sensor.FileItem) (first : list string)
    (rest : list (list string)) :
  Sensor.rawData item = Some (first :: rest) ->
  (Sensor.minRequiredCols <= List.length first)%nat ->
  dateMillis (Sensor.col first Sensor.timeColIdx) = None ->
  exists data,
    Sensor.processFile dateMillis parseFloat refTimeMinutes gasConcProfile
      gasConcAvailable item = Sensor.Processed data
    /\ List.length data = List.length (first :: rest)
    /\ Forall (fun r => Sensor.time_s r = NaN /\ Sensor.time_min r = NaN
                        /\ Sensor.signal r = NaN
                        /\ Sensor.gas_concentration r = NaN) data.
Proof.
  intros Hraw Hlen Hstamp. unfold Sensor.processFile. rewrite Hraw.
  apply Nat.ltb_ge in Hlen. rewrite Hlen.
  eexists. split; [reflexivity|]. split.
  - unfold Sensor.finishTable, Sensor.buildTable. now rewrite !length_map.
  - set (table := Sensor.buildTable dateMillis parseFloat (first :: rest)).
    assert (Htimes : Forall (fun r => Sensor.time_s r = NaN
                                      /\ Sensor.time_min r = NaN) table).
    { subst table. unfold Sensor.buildTable, Sensor.millis. rewrite Hstamp.
      apply Forall_forall. intros r Hr. apply in_map_iff in Hr.
      destruct Hr as (row & <- & _). unfold Sensor.rowToReading.
      destruct (List.length row <? Sensor.minRequiredCols)%nat;
        [now split|].
      cbn [Sensor.time_s Sensor.time_min isNaN negb].
      rewrite andb_false_r. now split. }
    assert (Href : Sensor.imp_ref table refTimeMinutes = NaN).
    { unfold Sensor.imp_ref.
      pose proof (refIdx_spec table refTimeMinutes) as Hspec.
      rewrite filter_all_false in Hspec.
      - cbn [Profile.lastOf] in Hspec. rewrite Hspec.
        destruct table as [|r0 tl]; trivial.
        inversion Htimes as [|? ? [_ H0] _]; subst. now rewrite H0.
      - eapply Forall_impl; [|exact Htimes].
        intros r [_ Hr]. unfold Sensor.suitable. now rewrite Hr. }
    unfold Sensor.finishTable. rewrite Href.
    apply Forall_forall. intros r' Hr'. apply in_map_iff in Hr'.
    destruct Hr' as (r & <- & Hr).
    rewrite Forall_forall in Htimes. destruct (Htimes r Hr) as [Hs Hm].
    cbn [Sensor.finishRow Sensor.time_s Sensor.time_min Sensor.signal
         Sensor.gas_concentration].
    rewrite Hs, Hm. cbn [isNaN negb]. rewrite andb_false_r.
    repeat split; reflexivity.
Qed.

Lemma unparsable_first_stamp_witness :
  exists data,
    Sensor.processFile demoDateMillis demoParseFloat (Fin 1.5) [pt 0 5] true
      (Sensor.mkFileItem "sensor3.csv"
         (Some [rawRow "yesterday" "100"; rawRow "01/01/2024 00:01:00" "150"]))
    = Sensor.Processed data
    /\ List.length data = 2%nat
    /\ Forall (fun r => Sensor.time_s r = NaN /\ Sensor.time_min r = NaN
                        /\ Sensor.signal r = NaN
                        /\ Sensor.gas_concentration r = NaN) data.
Proof.
  apply (@unparsable_first_stamp demoDateMillis demoParseFloat (Fin 1.5)
           [pt 0 5] true
           (Sensor.mkFileItem "sensor3.csv"
              (Some [rawRow "yesterday" "100";
                     rawRow "01/01/2024 00:01:00" "150"]))
           (rawRow "yesterday" "100") [rawRow "01/01/2024 00:01:00" "150"]).
  - reflexivity.
  - unfold Sensor.minRequiredCols. simpl. lia.
  - reflexivity.
Defined.

(** ** Reference times *)

Import TimeParsing.

Lemma digitsValue_acc_nonneg (ds : list ascii) (acc : Z) :
  (0 <= acc)%Z ->
  (0 <= fold_left (fun acc c => 10 * acc + Z.of_nat (nat_of_ascii c - 48)) ds acc)%Z.
Proof.
  revert acc. induction ds as [|c ds IH]; intros acc H; cbn [fold_left]; trivial.
  apply IH. lia.
Qed.

Lemma digitsValue_nonneg (ds : list ascii) : (0 <= digitsValue ds)%Z.
Proof. apply digitsValue_acc_nonneg. lia. Qed.

Lemma inject_digits_nonneg (ds : list ascii) : 0 <= inject_Z (digitsValue ds).
Proof.
  change 0 with (inject_Z 0). rewrite <- Zle_Qle. apply digitsValue_nonneg.
Qed.

Lemma wholeField_nonneg (l : list ascii) (q : Q) :
  wholeField l = Some q -> 0 <= q.
Proof.
  unfold wholeField. destruct (oneOrTwoDigits l); [|discriminate].
  intro H. injection H as <-. apply inject_digits_nonneg.
Qed.

Lemma secondsField_nonneg (l : list ascii) (q : Q) :
  secondsField l = Some q -> 0 <= q.
Proof.
  unfold secondsField.
  destruct (split "." l) as [|whole [|fraction [|? ?]]]; try discriminate.
  - apply wholeField_nonneg.
  - destruct (_ && _)%bool; [|discriminate]. intro H. injection H as <-.
    pose proof (inject_digits_nonneg whole).
    pose proof (inject_digits_nonneg fraction).
    assert (Hpow : 0 < inject_Z (10 ^ Z.of_nat (List.length fraction))).
    { change 0 with (inject_Z 0). rewrite <- Zlt_Qlt.
      apply Z.pow_pos_nonneg; [reflexivity | apply Nat2Z.is_nonneg]. }
    assert (0 <= inject_Z (digitsValue fraction)
                 / inject_Z (10 ^ Z.of_nat (List.length fraction))).
    { apply Qle_shift_div_l; trivial. }
    lra.
Qed.

Lemma matchTime_nonneg (l : list ascii) (h m s : Q) :
  matchTime l = Some (h, m, s) -> 0 <= h /\ 0 <= m /\ 0 <= s.
Proof.
  unfold matchTime.
  destruct (split ":" l) as [|f1 [|f2 [|f3 [|? ?]]]]; try discriminate.
  - destruct (wholeField f1) as [a|] eqn:E1; [|discriminate].
    destruct (secondsField f2) as [b|] eqn:E2; [|discriminate].
    intro H. injection H as <- <- <-.
    repeat split; [apply Qle_refl | eapply wholeField_nonneg; eassumption
                   | eapply secondsField_nonneg; eassumption].
  - destruct (wholeField f1) as [a|] eqn:E1; [|discriminate].
    destruct (wholeField f2) as [b|] eqn:E2; [|discriminate].
    destruct (secondsField f3) as [c|] eqn:E3; [|discriminate].
    intro H. injection H as <- <- <-.
    repeat split; [eapply wholeField_nonneg; eassumption
                   | eapply wholeField_nonneg; eassumption
                   | eapply secondsField_nonneg; eassumption].
Qed.

Lemma minutes_value (h m s : Q) :
  exists q, ((Fin h * n60) + Fin m + (Fin s / n60))%js = Fin q
            /\ q == h * 60 + m + s / 60.
Proof.
  eexists. split; [reflexivity|]. now rewrite !Qred_correct.
Qed.

Lemma reference_time_nonneg (timeStr : string) :
  timeStringToMinutes timeStr = NaN
  \/ exists q, timeStringToMinutes timeStr = Fin q /\ 0 <= q.
Proof.
  unfold timeStringToMinutes. destruct timeStr as [|c rest]; [now left|].
  destruct (matchTime _) as [[[h m] s]|] eqn:E; [|now left].
  right. apply matchTime_nonneg in E. destruct E as (Hh & Hm & Hs).
  destruct (minutes_value h m s) as (q & Hq & Hval).
  exists q. split; trivial. rewrite Hval.
  assert (0 <= s / 60) by (apply Qle_shift_div_l; [reflexivity | lra]).
  nra.
Qed.

(** X15: [timeStringToMinutes] returns NaN or a finite number that is not
    negative. *)
Theorem reference_time_defined_or_nonnegative (timeStr : string) :
  timeStringToMinutes timeStr = NaN
  \/ exists q, timeStringToMinutes timeStr = Fin q /\ 0 <= q.
Proof.
  destruct (reference_time_nonneg timeStr) as [H|(q & Hq & Hpos)].
  - now left.
  - right. now exists q.
Qed.

(** *** White space around the time *)

Lemma dropWhite_white_app (pre x : list ascii) :
  Forall (fun c => isWhite c = true) pre -> dropWhite (pre ++ x) = dropWhite x.
Proof. induction 1 as [|c pre Hc _ IH]; trivial. simpl. now rewrite Hc. Qed.

Lemma dropWhite_white (l : list ascii) :
  Forall (fun c => isWhite c = true) l -> dropWhite l = [].
Proof.
  intro H. rewrite <- (app_nil_r l). now rewrite dropWhite_white_app.
Qed.

Lemma dropWhite_nil (l : list ascii) :
  dropWhite l = [] -> Forall (fun c => isWhite c = true) l.
Proof.
  induction l as [|c l IH]; [constructor|]. simpl.
  destruct (isWhite c) eqn:E; [|discriminate]. intro H. constructor; auto.
Qed.

Lemma dropWhite_app_keep (l x : list ascii) :
  dropWhite l <> [] -> dropWhite (l ++ x) = dropWhite l ++ x.
Proof.
  induction l as [|c l IH]; [intro H; now contradiction H|].
  simpl. destruct (isWhite c); trivial.
Qed.

Lemma trim_surround (pre l post : list ascii) :
  Forall (fun c => isWhite c = true) pre ->
  Forall (fun c => isWhite c = true) post ->
  trim (pre ++ l ++ post) = trim l.
Proof.
  intros Hpre Hpost. unfold trim. rewrite (dropWhite_white_app _ Hpre).
  destruct (dropWhite l) as [|c r] eqn:E.
  - rewrite (@dropWhite_white (l ++ post)); trivial.
    apply Forall_app. split; trivial. now apply dropWhite_nil.
  - rewrite dropWhite_app_keep by (rewrite E; discriminate).
    rewrite E, rev_app_distr. rewrite dropWhite_white_app; trivial.
    now apply Forall_rev.
Qed.

Lemma chars_app (a b : string) : chars (a ++ b) = chars a ++ chars b.
Proof.
  unfold chars. induction a as [|c a IH]; trivial. simpl. now rewrite IH.
Qed.

(** The test for the empty string changes nothing: the empty string has no
    colon and matches no time. *)
Lemma timeStringToMinutes_match (timeStr : string) :
  timeStringToMinutes timeStr
  = match matchTime (trim (chars timeStr)) with
    | None => NaN
    | Some (hours, minutes, seconds) =>
        ((Fin hours * n60) + Fin minutes + (Fin seconds / n60))%js
    end.
Proof. destruct timeStr; reflexivity. Qed.

(** X16: white space before and after the time is ignored by
    [timeStringToMinutes]. *)
Theorem reference_time_ignores_outer_space (pre timeStr post : string) :
  allWhite pre -> allWhite post ->
  timeStringToMinutes (pre ++ timeStr ++ post) = timeStringToMinutes timeStr.
Proof.
  intros Hpre Hpost. rewrite !timeStringToMinutes_match, !chars_app.
  now rewrite trim_surround.
Qed.

Lemma reference_time_ignores_outer_space_witness :
  timeStringToMinutes ("  " ++ "0:55:00.0" ++ " ")
  = timeStringToMinutes "0:55:00.0".
Proof.
  apply (@reference_time_ignores_outer_space "  " "0:55:00.0" " ");
    repeat constructor.
Defined.

(** *** The hours are optional *)

Lemma split_length (sep : ascii) (l : list ascii) :
  List.length (split sep l) = S (count_occ ascii_dec l sep).
Proof.
  induction l as [|c l IH]; trivial. cbn [split count_occ].
  destruct (ascii_dec c sep) as [->|Hne].
  - rewrite Ascii.eqb_refl. simpl. now rewrite IH.
  - destruct (Ascii.eqb c sep) eqn:E; [apply Ascii.eqb_eq in E; contradiction|].
    destruct (split sep l); simpl in *; [discriminate | exact IH].
Qed.

Lemma count_dropWhite (l : list ascii) :
  count_occ ascii_dec (dropWhite l) ":"%char = count_occ ascii_dec l ":"%char.
Proof.
  induction l as [|c l IH]; trivial. cbn [dropWhite].
  destruct (isWhite c) eqn:E; trivial. rewrite IH.
  cbn [count_occ]. destruct (ascii_dec c ":") as [->|]; trivial. discriminate.
Qed.

Lemma count_trim (l : list ascii) :
  count_occ ascii_dec (trim l) ":"%char = count_occ ascii_dec l ":"%char.
Proof.
  unfold trim.
  now rewrite count_occ_rev, count_dropWhite, count_occ_rev, count_dropWhite.
Qed.

Lemma trim_cons2 (a b : ascii) (l : list ascii) :
  isWhite a = false -> isWhite b = false -> dropWhite l = l ->
  trim (a :: b :: l) = a :: b :: trim l.
Proof.
  intros Ha Hb Hl. unfold trim. rewrite Hl. cbn [dropWhite]. rewrite Ha.
  cbn [rev]. rewrite <- app_assoc. cbn [app].
  destruct (dropWhite (rev l)) as [|c r] eqn:E.
  - rewrite dropWhite_white_app by now apply dropWhite_nil.
    cbn [dropWhite]. rewrite Hb. reflexivity.
  - rewrite dropWhite_app_keep by (rewrite E; discriminate).
    rewrite E, rev_app_distr. reflexivity.
Qed.

(** X17: the hours are optional: a time with a single colon (minutes and
    seconds) that does not begin with white space gives the same minutes as
    the same time with the hours "0:" written before it. *)
Theorem reference_time_hours_optional (timeStr : string) :
  oneColon timeStr -> noLeadingWhite timeStr ->
  timeStringToMinutes ("0:" ++ timeStr) = timeStringToMinutes timeStr.
Proof.
  unfold oneColon, noLeadingWhite. intros Hone Hlead.
  rewrite !timeStringToMinutes_match, chars_app.
  change (chars "0:") with ["0"%char; ":"%char]. cbn [app].
  rewrite trim_cons2 by (trivial; reflexivity).
  pose proof (split_length ":" (trim (chars timeStr))) as Hlen.
  rewrite count_trim, Hone in Hlen.
  unfold matchTime. cbn [split]. 
  change (Ascii.eqb "0" ":") with false. change (Ascii.eqb ":" ":") with true.
  cbv iota.
  destruct (split ":" (trim (chars timeStr))) as [|m [|s [|? ?]]];
    try discriminate.
  change (wholeField ["0"%char]) with (Some 0%Q).
  destruct (wholeField m), (secondsField s); reflexivity.
Qed.

Lemma reference_time_hours_optional_witness :
  timeStringToMinutes ("0:" ++ "55:00.0") = timeStringToMinutes "55:00.0".
Proof.
  apply (@reference_time_hours_optional "55:00.0"); reflexivity.
Defined.

(** ** The gas flow table *)

Section GasRows.

Variable parseFloat : string -> num.




Lemma validSteps_nil (rows : list (list string)) :
  GasFlow.validSteps parseFloat rows = []
  <-> Forall (fun row => GasFlow.rowToStep parseFloat row = None) rows.
Proof.
  induction rows as [|row rows IH]; simpl.
  - split; [constructor | reflexivity].
  - destruct (GasFlow.rowToStep parseFloat row) eqn:E.
    + split; [discriminate|]. intro H. inversion H; congruence.
    + rewrite IH. split; intro H; [now constructor | now inversion H].
Qed.


(** X19: [parseGasFlowFile] fails exactly when the file could not be
    read as CSV or none of its rows is valid, a row being invalid when it
    has fewer than three columns or its second or third column does not
    parse to a number. *)
Theorem gas_flow_fails_without_valid_row
    (parsedRows : option (list (list string))) :
  (exists why, GasFlow.parseGasFlowFile parseFloat parsedRows
               = GasFlow.Failed why)
  <-> (parsedRows = None
       \/ exists rows,
            parsedRows = Some rows
            /\ Forall (fun row =>
                         (List.length row < 3)%nat
                         \/ isNaN (parseFloat (nth 1 row EmptyString)) = true
                         \/ isNaN (parseFloat (nth 2 row EmptyString)) = true)
                      rows).
Proof.
  assert (Hrow : forall row,
            GasFlow.rowToStep parseFloat row = None
            <-> ((List.length row < 3)%nat
                 \/ isNaN (parseFloat (nth 1 row EmptyString)) = true
                 \/ isNaN (parseFloat (nth 2 row EmptyString)) = true)).
  { intro row. unfold GasFlow.rowToStep.
    destruct (List.length row <? 3)%nat eqn:El.
    - apply Nat.ltb_lt in El. split; auto.
    - apply Nat.ltb_ge in El.
      destruct (isNaN (parseFloat (nth 1 row EmptyString))),
               (isNaN (parseFloat (nth 2 row EmptyString))); simpl;
        split; auto; try discriminate.
      intros [H|[H|H]]; [lia | discriminate | discriminate]. }
  assert (Hall : forall rows,
            GasFlow.validSteps parseFloat rows = []
            <-> Forall (fun row =>
                          (List.length row < 3)%nat
                          \/ isNaN (parseFloat (nth 1 row EmptyString)) = true
                          \/ isNaN (parseFloat (nth 2 row EmptyString)) = true)
                       rows).
  { intro rows. rewrite validSteps_nil. split; intro H;
      (eapply Forall_impl; [|exact H]); intros row Hr; now apply Hrow. }
  unfold GasFlow.parseGasFlowFile.
  destruct parsedRows as [[|row rows]|].
  - split; [|intros _; now exists GasFlow.NoRows].
    intros _. right. exists []. split; [reflexivity | constructor].
  - destruct (GasFlow.validSteps parseFloat (row :: rows)) as [|s steps] eqn:E.
    + split; [|intros _; now exists GasFlow.NoValidData].
      intros _. right. exists (row :: rows). split; trivial. now apply Hall.
    + split.
      * intros [why H]. discriminate.
      * intros [H|(rows' & H & Hbad)]; [discriminate|].
        injection H as <-. apply Hall in Hbad. congruence.
  - split; [now left | intros _; now exists GasFlow.CsvRejected].
Qed.

End GasRows.


(** ** The whole analysis *)

(** *** Progress values *)

Lemma inject_nat_pos (t : nat) : (1 <= t)%nat -> 0 < inject_Z (Z.of_nat t).
Proof.
  intro H. change 0 with (inject_Z 0). rewrite <- Zlt_Qlt. lia.
Qed.

Lemma progressValue_clamp (c t : nat) :
  (1 <= t)%nat ->
  Run.progressValue (Run.count c) (Run.count t)
  = Fin (clampQ (Qred (Qred (inject_Z (Z.of_nat c) / inject_Z (Z.of_nat t))
                       * 100))).
Proof.
  intro Ht. pose proof (inject_nat_pos Ht) as Hpos.
  unfold Run.progressValue, Run.count, of_Z, gt, n0, n100.
  cbn [lt].
  rewrite (proj2 (Qlt_bool_iff 0 (inject_Z (Z.of_nat t))) Hpos).
  cbn [div].
  assert (Hz : Qeq_bool (inject_Z (Z.of_nat t)) 0 = false).
  { destruct (Qeq_bool _ _) eqn:E; trivial. apply Qeq_bool_iff in E.
    rewrite E in Hpos. discriminate. }
  rewrite Hz. cbn [mul].
  unfold Run.mathMin, Run.mathMax, clampQ. cbn [isNaN orb lt].
  destruct (Qlt_bool 0 _); cbn [isNaN orb lt]; trivial.
  destruct (Qlt_bool _ 100); reflexivity.
Qed.

Lemma clampQ_range (q : Q) : 0 <= clampQ q <= 100.
Proof.
  unfold clampQ. destruct (Qlt_bool 0 q) eqn:E0; [|lra].
  apply Qlt_bool_iff in E0.
  destruct (Qlt_bool q 100) eqn:E1; [|lra].
  apply Qlt_bool_iff in E1. lra.
Qed.

Lemma Qlt_bool_false (x y : Q) : Qlt_bool x y = false -> y <= x.
Proof.
  unfold Qlt_bool. intro H. apply negb_false_iff in H.
  now apply Qle_bool_iff.
Qed.

Lemma clampQ_mono (p q : Q) : p <= q -> clampQ p <= clampQ q.
Proof.
  intro H. unfold clampQ.
  destruct (Qlt_bool 0 p) eqn:P0, (Qlt_bool 0 q) eqn:Q0;
    try apply Qlt_bool_iff in P0; try apply Qlt_bool_iff in Q0;
    try apply Qlt_bool_false in P0; try apply Qlt_bool_false in Q0;
    destruct (Qlt_bool p 100) eqn:P1, (Qlt_bool q 100) eqn:Q1;
    try apply Qlt_bool_iff in P1; try apply Qlt_bool_iff in Q1;
    try apply Qlt_bool_false in P1; try apply Qlt_bool_false in Q1; lra.
Qed.

Lemma progressValue_percent (c t : nat) :
  percent (Run.progressValue (Run.count c) (Run.count t)).
Proof.
  destruct t as [|t].
  - exists 0. split; [reflexivity | lra].
  - rewrite progressValue_clamp by lia. eexists. split; [reflexivity|].
    apply clampQ_range.
Qed.

Lemma progressValue_mono (c1 c2 t : nat) :
  (c1 <= c2)%nat ->
  (Run.progressValue (Run.count c1) (Run.count t)
   <=? Run.progressValue (Run.count c2) (Run.count t))%js = true.
Proof.
  intro H. destruct t as [|t]; [reflexivity|].
  rewrite !progressValue_clamp by lia. cbn [le]. apply Qle_bool_iff.
  apply clampQ_mono. rewrite !Qred_correct.
  pose proof (@inject_nat_pos (S t) ltac:(lia)) as Hpos.
  assert (Hc : inject_Z (Z.of_nat c1) <= inject_Z (Z.of_nat c2))
    by (rewrite <- Zle_Qle; lia).
  unfold Qdiv. apply Qinv_lt_0_compat in Hpos.
  generalize dependent (/ inject_Z (Z.of_nat (S t))). intros. nra.
Qed.

Lemma progressValue_full (t : nat) :
  (1 <= t)%nat -> Run.progressValue (Run.count t) (Run.count t) = n100.
Proof.
  intro H. rewrite progressValue_clamp by trivial.
  pose proof (inject_nat_pos H) as Hpos.
  rewrite (@Qred_complete _ 100); [reflexivity|].
  rewrite Qred_correct. field. intro E. rewrite E in Hpos. discriminate.
Qed.

Lemma progressValues_app (a b : list Run.Effect) :
  Run.progressValues (a ++ b) = Run.progressValues a ++ Run.progressValues b.
Proof.
  induction a as [|e a IH]; trivial. destruct e; simpl; now rewrite IH.
Qed.

Lemma results_app (a b : list Run.Effect) :
  Run.results (a ++ b) = Run.results a ++ Run.results b.
Proof.
  induction a as [|e a IH]; trivial. destruct e; simpl; now rewrite IH.
Qed.

Lemma progressValues_map (f : nat -> num) (l : list nat) :
  Run.progressValues (map (fun c => Run.SetProgress (f c)) l) = map f l.
Proof. induction l as [|c l IH]; trivial. simpl. now rewrite IH. Qed.

Lemma results_map (f : nat -> num) (l : list nat) :
  Run.results (map (fun c => Run.SetProgress (f c)) l) = [].
Proof. induction l as [|c l IH]; trivial. Qed.

Section Stage.

Variable parseFloat : string -> num.

(** What step 1 leaves behind, whichever way it goes. *)
Lemma gasStage_spec (gasFlowFile : option (option (list (list string))))
    (currentConfig : Run.AppConfig) (total : nat) :
  let stage := Run.gasStage parseFloat gasFlowFile currentConfig total in
  Run.progressValues (Run.effects stage)
  = map (fun c => Run.progressValue (Run.count c) (Run.count total))
        (seq 0 (S (Run.overallStep stage)))
  /\ Run.results (Run.effects stage)
     = [Run.SetGasConcProfileResult (Run.calculatedGasConcProfile stage);
        Run.SetGasExposureEvents
          (Events.identifyGasExposureEvents
             (Run.calculatedGasConcProfile stage))]
  /\ (Run.overallStep stage
      <= match gasFlowFile with Some _ => 2 | None => 0 end)%nat.
Proof.
  unfold Run.gasStage.
  destruct gasFlowFile as [parsedRows|]; [|repeat split; cbn; lia].
  destruct (GasFlow.parseGasFlowFile parseFloat parsedRows) as [steps|why];
    [|repeat split; cbn; lia].
  destruct (isNaN (parseFloat (Run.gasConcCyl2 currentConfig)));
    repeat split; cbn; lia.
Qed.

(** Without a usable gas flow table the profile handed on is empty. *)
Lemma gasStage_failed (gasFlowFile : option (option (list (list string))))
    (currentConfig : Run.AppConfig) (total : nat) :
  gasFlowFile = None
  \/ (exists parsedRows why,
        gasFlowFile = Some parsedRows
        /\ GasFlow.parseGasFlowFile parseFloat parsedRows = GasFlow.Failed why)
  \/ isNaN (parseFloat (Run.gasConcCyl2 currentConfig)) = true ->
  Run.calculatedGasConcProfile
    (Run.gasStage parseFloat gasFlowFile currentConfig total) = [].
Proof.
  unfold Run.gasStage. intros [->|[(rows & why & -> & ->)|Hgc]]; trivial.
  destruct gasFlowFile as [parsedRows|]; trivial.
  destruct (GasFlow.parseGasFlowFile parseFloat parsedRows); trivial.
  now rewrite Hgc.
Qed.

End Stage.

Section Whole.

Variable dateMillis : string -> option Z.
Variable parseFloat : string -> num.

(** X20: apart from progress values, [runTimeSeriesAnalysis] publishes
    first a gas profile and then the exposure events of that very profile,
    once each; it publishes the sensor tables, computed with that profile,
    once and after them, exactly when the reference time parses, and that is
    also when it returns true. *)
Theorem analysis_results (categorizedTimeSeriesFiles : list Sensor.FileItem)
    (gasFlowFile : option (option (list (list string))))
    (currentConfig : Run.AppConfig) :
  exists profile available,
    Run.results
      (fst (Run.runTimeSeriesAnalysis dateMillis parseFloat
              categorizedTimeSeriesFiles gasFlowFile currentConfig))
    = [Run.SetGasConcProfileResult profile;
       Run.SetGasExposureEvents (Events.identifyGasExposureEvents profile)]
      ++ (if isNaN (TimeParsing.timeStringToMinutes
                      (Run.refTimeStr currentConfig))
          then []
          else [Run.SetTimeSeriesDataResult
                  (Sensor.processAllTimeSeriesFiles dateMillis parseFloat
                     categorizedTimeSeriesFiles
                     (TimeParsing.timeStringToMinutes
                        (Run.refTimeStr currentConfig))
                     profile available)])
    /\ snd (Run.runTimeSeriesAnalysis dateMillis parseFloat
              categorizedTimeSeriesFiles gasFlowFile currentConfig)
       = negb (isNaN (TimeParsing.timeStringToMinutes
                        (Run.refTimeStr currentConfig))).
Proof.
  unfold Run.runTimeSeriesAnalysis.
  set (total := (1 + List.length categorizedTimeSeriesFiles
                 + match gasFlowFile with Some _ => 2 | None => 0 end)%nat).
  destruct (gasStage_spec parseFloat gasFlowFile currentConfig total)
    as (_ & Hres & _).
  set (stage := Run.gasStage parseFloat gasFlowFile currentConfig total) in *.
  exists (Run.calculatedGasConcProfile stage),
         (Run.gasFlowSuccessfullyProcessed stage).
  destruct (isNaN (TimeParsing.timeStringToMinutes _)); cbn [fst snd negb].
  - split; trivial. now rewrite results_app, Hres.
  - split; trivial.
    rewrite results_app, results_app, results_app, Hres, results_map.
    reflexivity.
Qed.

(** X21: a missing or unusable gas flow table is not fatal: without a
    file, with a file that fails to parse, or with an initial gas
    concentration that is not a number, the profile and the events published
    are empty, the sensor files are processed all the same, and every row
    gets an undefined gas concentration. *)
Theorem gas_failure_is_not_fatal
    (categorizedTimeSeriesFiles : list Sensor.FileItem)
    (gasFlowFile : option (option (list (list string))))
    (currentConfig : Run.AppConfig) :
  gasFlowFile = None
  \/ (exists parsedRows why,
        gasFlowFile = Some parsedRows
        /\ GasFlow.parseGasFlowFile parseFloat parsedRows = GasFlow.Failed why)
  \/ isNaN (parseFloat (Run.gasConcCyl2 currentConfig)) = true ->
  exists available,
    Run.results
      (fst (Run.runTimeSeriesAnalysis dateMillis parseFloat
              categorizedTimeSeriesFiles gasFlowFile currentConfig))
    = [Run.SetGasConcProfileResult []; Run.SetGasExposureEvents []]
      ++ (if isNaN (TimeParsing.timeStringToMinutes
                      (Run.refTimeStr currentConfig))
          then []
          else [Run.SetTimeSeriesDataResult
                  (Sensor.processAllTimeSeriesFiles dateMillis parseFloat
                     categorizedTimeSeriesFiles
                     (TimeParsing.timeStringToMinutes
                        (Run.refTimeStr currentConfig))
                     [] available)])
    /\ Forall (fun table =>
                 Forall (fun row => Sensor.gas_concentration row = NaN)
                        (Sensor.data table))
              (Sensor.processAllTimeSeriesFiles dateMillis parseFloat
                 categorizedTimeSeriesFiles
                 (TimeParsing.timeStringToMinutes
                    (Run.refTimeStr currentConfig))
                 [] available).
Proof.
  intro Hfail. unfold Run.runTimeSeriesAnalysis.
  set (total := (1 + List.length categorizedTimeSeriesFiles
                 + match gasFlowFile with Some _ => 2 | None => 0 end)%nat).
  destruct (gasStage_spec parseFloat gasFlowFile currentConfig total)
    as (_ & Hres & _).
  pose proof (@gasStage_failed parseFloat gasFlowFile currentConfig total Hfail)
    as Hempty.
  set (stage := Run.gasStage parseFloat gasFlowFile currentConfig total) in *.
  rewrite Hempty in Hres.
  exists (Run.gasFlowSuccessfullyProcessed stage). split.
  - destruct (isNaN (TimeParsing.timeStringToMinutes _)); cbn [fst].
    + now rewrite results_app, Hres.
    + rewrite results_app, results_app, results_app, Hres, results_map, Hempty.
      reflexivity.
  - rewrite processAll_flat_map. apply Forall_forall.
    intros table Hin. apply in_flat_map in Hin.
    destruct Hin as (item & _ & Hin). unfold tablesOf in Hin.
    destruct (Sensor.processFile _ _ _ _ _ item) as [| | |data] eqn:E;
      try contradiction.
    destruct Hin as [<-|[]]. cbn [Sensor.data].
    unfold Sensor.processFile in E.
    destruct (Sensor.rawData item) as [[|first rest]|]; try discriminate.
    destruct (List.length first <? Sensor.minRequiredCols)%nat;
      [discriminate|].
    injection E as <-. unfold Sensor.finishTable.
    apply Forall_forall. intros row Hrow. apply in_map_iff in Hrow.
    destruct Hrow as (r & <- & _).
    cbn [Sensor.finishRow Sensor.gas_concentration List.length Nat.ltb Nat.leb].
    now rewrite andb_false_r.
Qed.

End Whole.

Lemma gas_failure_is_not_fatal_witness :
  exists available,
    Run.results
      (fst (Run.runTimeSeriesAnalysis demoDateMillis demoParse demoFiles
              (Some None) demoConfig))
    = [Run.SetGasConcProfileResult []; Run.SetGasExposureEvents []]
      ++ [Run.SetTimeSeriesDataResult
            (Sensor.processAllTimeSeriesFiles demoDateMillis demoParse
               demoFiles (Fin 1.5) [] available)]
    /\ Forall (fun table =>
                 Forall (fun row => Sensor.gas_concentration row = NaN)
                        (Sensor.data table))
              (Sensor.processAllTimeSeriesFiles demoDateMillis demoParse
                 demoFiles (Fin 1.5) [] available).
Proof.
  apply (@gas_failure_is_not_fatal demoDateMillis demoParse demoFiles
           (Some None) demoConfig).
  right. left. exists None, GasFlow.CsvRejected. split; reflexivity.
Defined.

(** *** The progress bar *)

Lemma seq_ascending_map (f : nat -> num) (a n : nat) (rest : list nat) :
  (forall c1 c2, (c1 <= c2)%nat -> (f c1 <=? f c2)%js = true) ->
  match rest with
  | [] => True
  | r :: _ => (a + n <= S r)%nat
  end ->
  ascending (map f rest) ->
  ascending (map f (seq a n ++ rest)).
Proof.
  intros Hf. revert a. induction n as [|n IH]; intros a Hrest Hasc; trivial.
  cbn [seq app map].
  assert (Htail : ascending (map f (seq (S a) n ++ rest))).
  { apply IH; trivial. destruct rest; trivial. lia. }
  destruct n as [|n].
  - cbn [seq app] in *. destruct rest as [|r rest]; [exact I|].
    cbn [map]. split; trivial. apply Hf. lia.
  - cbn [seq app map] in *. split; trivial. apply Hf. lia.
Qed.

Lemma reportedSteps_ascending (f : nat -> num) (step n total : nat)
    (finished : bool) :
  (forall c1 c2, (c1 <= c2)%nat -> (f c1 <=? f c2)%js = true) ->
  (step + n <= total)%nat ->
  ascending (map f (reportedSteps step n total finished)).
Proof.
  intros Hf Hle. unfold reportedSteps. destruct finished.
  - apply seq_ascending_map; trivial.
    + destruct n; cbn [seq app]; lia.
    + apply seq_ascending_map; trivial; cbn; trivial. lia.
  - apply seq_ascending_map; trivial; cbn; trivial.
Qed.

Lemma map_shift_seq (f : nat -> num) (k a n : nat) :
  map (fun c => f (k + c)%nat) (seq a n) = map f (seq (k + a) n).
Proof.
  revert a. induction n as [|n IH]; intro a; trivial.
  cbn [seq map]. rewrite IH. now rewrite Nat.add_succ_r.
Qed.

Section Progress.

Variable dateMillis : string -> option Z.
Variable parseFloat : string -> num.

(** The progress values of a run are those of [reportedSteps]. *)
Lemma analysis_progress (categorizedTimeSeriesFiles : list Sensor.FileItem)
    (gasFlowFile : option (option (list (list string))))
    (currentConfig : Run.AppConfig) :
  let n := List.length categorizedTimeSeriesFiles in
  let total :=
    (1 + n + match gasFlowFile with Some _ => 2 | None => 0 end)%nat in
  let step :=
    S (Run.overallStep (Run.gasStage parseFloat gasFlowFile currentConfig total)) in
  Run.progressValues
    (fst (Run.runTimeSeriesAnalysis dateMillis parseFloat
            categorizedTimeSeriesFiles gasFlowFile currentConfig))
  = map (fun c => Run.progressValue (Run.count c) (Run.count total))
        (reportedSteps step n total
           (negb (isNaN (TimeParsing.timeStringToMinutes
                           (Run.refTimeStr currentConfig)))))
  /\ (step + n <= total)%nat.
Proof.
  intros n total step.
  destruct (gasStage_spec parseFloat gasFlowFile currentConfig total)
    as (Hprog & _ & Hstep).
  fold step in Hprog. split.
  - unfold Run.runTimeSeriesAnalysis. fold n. fold total. fold step.
    unfold reportedSteps.
    destruct (isNaN (TimeParsing.timeStringToMinutes _)); cbn [fst negb].
    + rewrite progressValues_app, Hprog, app_nil_r.
      replace (seq 0 (S step)) with (seq 0 step ++ [step])
        by (now rewrite seq_S).
      now rewrite map_app.
    + rewrite !progressValues_app, Hprog.
      rewrite (progressValues_map
                 (fun completed =>
                    Run.progressValue (Run.count (step + completed))
                      (Run.count total))).
      replace (seq 0 (S step)) with (seq 0 step ++ [step])
        by (now rewrite seq_S).
      rewrite !map_app, <- !app_assoc. cbn [Run.progressValues map app].
      do 3 f_equal.
      rewrite (map_shift_seq
                 (fun c => Run.progressValue (Run.count c) (Run.count total))
                 step 1 n).
      now rewrite Nat.add_1_r.
  - subst step total. destruct gasFlowFile; lia.
Qed.

(** X22: every progress value reported by [runTimeSeriesAnalysis] is a
    percentage between 0 and 100, the values never decrease, and a run that
    returns true ends on 100. *)
Theorem progress_is_a_rising_percentage
    (categorizedTimeSeriesFiles : list Sensor.FileItem)
    (gasFlowFile : option (option (list (list string))))
    (currentConfig : Run.AppConfig) :
  let run := Run.runTimeSeriesAnalysis dateMillis parseFloat
               categorizedTimeSeriesFiles gasFlowFile currentConfig in
  Forall percent (Run.progressValues (fst run))
  /\ ascending (Run.progressValues (fst run))
  /\ (snd run = true ->
      Profile.lastOf (Run.progressValues (fst run)) = Some n100).
Proof.
  intro run.
  destruct (analysis_progress categorizedTimeSeriesFiles gasFlowFile
              currentConfig) as [Hprog Hle].
  fold run in Hprog. rewrite Hprog. split; [|split].
  - apply Forall_forall. intros v Hv. apply in_map_iff in Hv.
    destruct Hv as (c & <- & _). apply progressValue_percent.
  - apply reportedSteps_ascending; trivial.
    intros c1 c2 Hc. now apply progressValue_mono.
  - intro Hret.
    assert (Hdef : isNaN (TimeParsing.timeStringToMinutes
                            (Run.refTimeStr currentConfig)) = false).
    { subst run. unfold Run.runTimeSeriesAnalysis in Hret.
      destruct (isNaN (TimeParsing.timeStringToMinutes _)); trivial.
      discriminate. }
    rewrite Hdef. unfold reportedSteps. cbn [negb].
    rewrite !app_assoc, map_app. cbn [map]. rewrite lastOf_snoc.
    rewrite progressValue_full; trivial. lia.
Qed.

End Progress.

Lemma progress_is_a_rising_percentage_witness :
  Profile.lastOf
    (Run.progressValues
       (fst (Run.runTimeSeriesAnalysis demoDateMillis demoParse demoFiles
               (Some (Some demoGasRows)) demoConfig)))
  = Some n100.
Proof.
  apply (@progress_is_a_rising_percentage demoDateMillis demoParse demoFiles
           (Some (Some demoGasRows)) demoConfig).
  reflexivity.
Defined.

(** ** Sampling during an exposure event *)

Lemma blockOf_start (point : Point) :
  (conc point >? n0)%js = true -> blockOf [point] (Events.startEvent point).
Proof.
  intro Hpos. exists point, point. repeat split.
  constructor; [|constructor]. apply eq_refl_defined.
  eapply gt_defined. exact Hpos.
Qed.

Lemma blockOf_extend (block : list Point) (a : Event) (point : Point) :
  blockOf block a -> (conc point === concentration a)%js = true ->
  blockOf (block ++ [point])
          (mkEvent (startTime a) (concentration a) (time_min point)).
Proof.
  intros (first & final & Hhd & Hlast & Hs & He & Hall) Heq.
  exists first, point. cbn [startTime endTime concentration].
  repeat split; trivial.
  - destruct block; [discriminate | exact Hhd].
  - apply lastOf_snoc.
  - now apply Forall_snoc.
Qed.

Lemma blockOf_end_defined (profile pre block : list Point) (a : Event) :
  Forall timeDefined profile -> incl (pre ++ block) profile ->
  blockOf block a -> isNaN (endTime a) = false.
Proof.
  intros Hdef Hincl (first & final & _ & Hlast & _ & He & _).
  rewrite He. rewrite Forall_forall in Hdef. apply Hdef, Hincl.
  apply in_or_app. right. now apply lastOf_In.
Qed.

Lemma step_covers (profile seen rest : list Point) (point : Point)
    (st : Events.State) :
  Forall timeDefined profile ->
  profile = seen ++ point :: rest ->
  Forall (covers profile) (Events.events st) ->
  activeBlock seen st ->
  Forall (covers profile) (Events.events (Events.step st point))
  /\ activeBlock (seen ++ [point]) (Events.step st point).
Proof.
  intros Hdef Hsplit Hev Hact. unfold Events.step, activeBlock in *.
  assert (Hpoint : isNaN (time_min point) = false).
  { rewrite Forall_forall in Hdef. apply Hdef. rewrite Hsplit.
    apply in_or_app. right. now left. }
  destruct (Events.activeEvent st) as [a|] eqn:Ea.
  - destruct Hact as (pre & block & Hseen & Hblock).
    assert (Hend : isNaN (endTime a) = false).
    { apply (@blockOf_end_defined profile pre block a); trivial.
      rewrite Hsplit, Hseen. intros x Hx. apply in_or_app. now left. }
    assert (Hclosed : covers profile a).
    { exists pre, block, (point :: rest). split; trivial.
      now rewrite Hsplit, Hseen, <- app_assoc. }
    assert (Hnew : (conc point >? n0)%js = true ->
                   exists pre' block',
                     seen ++ [point] = pre' ++ block'
                     /\ blockOf block' (Events.startEvent point)).
    { intro Hpos. exists seen, [point]. split; trivial.
      now apply blockOf_start. }
    destruct (conc point === concentration a)%js eqn:Eeq; cbn [andb].
    + destruct (time_min point >? endTime a)%js eqn:Egt.
      * cbn [Events.events Events.activeEvent]. split; trivial.
        exists pre, (block ++ [point]). split.
        -- now rewrite Hseen, app_assoc.
        -- now apply blockOf_extend.
      * unfold gt in Egt.
        rewrite (not_lt_le _ _ Hend Hpoint Egt), orb_true_r.
        cbn [Events.events Events.activeEvent]. split.
        -- unfold Events.pushIfDuration.
           destruct (endTime a >? startTime a)%js; trivial.
           now apply Forall_snoc.
        -- destruct (conc point >? n0)%js; [now apply Hnew | exact I].
    + unfold ne. rewrite Eeq. cbn [negb orb Events.events Events.activeEvent].
      split.
      * unfold Events.pushIfDuration.
        destruct (endTime a >? startTime a)%js; trivial.
        now apply Forall_snoc.
      * destruct (conc point >? n0)%js; [now apply Hnew | exact I].
  - destruct (conc point >? n0)%js eqn:Hpos.
    + cbn [Events.events Events.activeEvent]. split; trivial.
      exists seen, [point]. split; trivial. now apply blockOf_start.
    + rewrite Ea. now split.
Qed.

Lemma loop_covers (profile : list Point) :
  Forall timeDefined profile ->
  forall rest seen st,
    profile = seen ++ rest ->
    Forall (covers profile) (Events.events st) ->
    activeBlock seen st ->
    Forall (covers profile) (Events.events (fold_left Events.step rest st))
    /\ activeBlock profile (fold_left Events.step rest st).
Proof.
  intros Hdef rest. induction rest as [|p rest IH]; intros seen st Hsplit Hev Hact.
  - rewrite app_nil_r in Hsplit. subst seen. now split.
  - destruct (@step_covers profile seen rest p st Hdef Hsplit Hev Hact)
      as [Hev' Hact'].
    apply (IH (seen ++ [p])); trivial. now rewrite <- app_assoc.
Qed.

Lemma identify_covers (profile : list Point) :
  Forall timeDefined profile ->
  Forall (covers profile) (Events.identifyGasExposureEvents profile).
Proof.
  intro Hdef. unfold Events.identifyGasExposureEvents.
  destruct profile as [|p profile]; [constructor|].
  destruct (@loop_covers (p :: profile) Hdef (p :: profile) []
              (Events.mkState [] None) eq_refl (Forall_nil _) I)
    as [Hev Hact].
  unfold Events.finish, activeBlock in *.
  destruct (Events.activeEvent _) as [a|]; trivial.
  destruct (endTime a >? startTime a)%js; trivial.
  destruct (match rev _ with [] => false | e :: _ => Events.sameEvent e a end);
    trivial.
  apply Forall_snoc; trivial.
  destruct Hact as (pre & block & Hsplit & Hblock).
  exists pre, block, []. split; trivial. now rewrite app_nil_r.
Qed.

Lemma lastOf_app (A : Type) (a b : list A) :
  Profile.lastOf (a ++ b)
  = match Profile.lastOf b with
    | Some x => Some x
    | None => Profile.lastOf a
    end.
Proof.
  induction a as [|x a IH]; simpl app.
  - now destruct (Profile.lastOf b).
  - rewrite !lastOf_cons_or, IH.
    destruct (Profile.lastOf b); trivial.
Qed.

Lemma sorted_app_follows (a b : list Point) (x y : Point) :
  StronglySorted follows (a ++ b) -> In x a -> In y b -> follows x y.
Proof.
  induction a as [|z a IH]; intros Hs Hx Hy; [contradiction|].
  inversion Hs as [|? ? Hs' Hall]; subst.
  destruct Hx as [->|Hx]; [|now apply IH].
  rewrite Forall_forall in Hall. apply Hall. apply in_or_app. now right.
Qed.

Lemma sorted_timeOrdered (l : list Point) :
  Sorted follows l -> Forall timeDefined l -> Sampler.timeOrdered l = true.
Proof.
  induction l as [|a l IH]; intros Hs Hd; trivial.
  inversion Hs as [|? ? Hs' Hhd]; subst.
  inversion Hd as [|? ? Ha Hd']; subst.
  cbn [Sampler.timeOrdered]. rewrite Ha, IH by trivial. cbn [negb andb].
  destruct l as [|b l]; trivial.
  inversion Hhd as [|? ? [Hle _]]; subst. now rewrite Hle.
Qed.

(** On a profile that can be sampled back, a query within an event returns
    the event's concentration. *)
Lemma sample_in_block (profile : list Point) (e : Event) (t : num) :
  StronglySorted follows profile -> Forall timeDefined profile ->
  covers profile e ->
  (startTime e <=? t)%js = true -> (t <=? endTime e)%js = true ->
  (Sampler.interpolateGasConcentration profile t === concentration e)%js
  = true.
Proof.
  intros Hs Hd (pre & block & post & Hsplit
                & first & final & Hhd & Hlast & Hst & Hen & Hall) Hlo Hhi.
  rewrite Hst in Hlo. rewrite Hen in Hhi.
  destruct block as [|b block]; [discriminate|].
  injection Hhd as ->.
  assert (Hfinal : In final (first :: block)) by now apply lastOf_In.
  destruct (le_defined _ _ Hlo) as [_ Ht].
  set (f := fun p : Point => (time_min p <=? t)%js).
  assert (Hlastf : exists x,
             Profile.lastOf (filter f profile) = Some x
             /\ (conc x === concentration e)%js = true).
  { rewrite Hsplit, !filter_app, !lastOf_app.
    destruct (Profile.lastOf (filter f post)) as [x|] eqn:Ex.
    - exists x. split; trivial.
      apply lastOf_In, filter_In in Ex. destruct Ex as [Hx Hfx].
      assert (Hfol : follows final x).
      { rewrite Hsplit, app_assoc in Hs.
        apply (@sorted_app_follows (pre ++ first :: block) post); trivial.
        apply in_or_app. now right. }
      destruct Hfol as [Hle Hconc].
      rewrite <- Hconc.
      + rewrite Forall_forall in Hall. now apply Hall.
      + apply le_antisym; trivial. unfold f in Hfx.
        eapply le_trans; eassumption.
    - cbn [filter]. unfold f at 1. rewrite Hlo. rewrite lastOf_cons_or.
      destruct (Profile.lastOf (filter f block)) as [x|] eqn:Eb.
      + exists x. split; trivial.
        apply lastOf_In, filter_In in Eb. destruct Eb as [Hx _].
        rewrite Forall_forall in Hall. apply Hall. now right.
      + exists first. split; trivial.
        rewrite Forall_forall in Hall. apply Hall. now left. }
  destruct Hlastf as (x & Hx & Hcx).
  unfold Sampler.interpolateGasConcentration. rewrite Ht.
  destruct profile as [|p0 rest] eqn:Ep; [destruct pre; discriminate|].
  assert (Hp0 : (time_min p0 <=? time_min first)%js = true).
  { destruct pre as [|q pre]; injection Hsplit as -> Hrest.
    - apply le_refl. apply (le_defined _ _ Hlo).
    - inversion Hs as [|? ? _ Hfor]; subst.
      rewrite Forall_forall in Hfor. apply Hfor.
      apply in_or_app. right. now left. }
  rewrite (le_not_lt _ _ (le_trans _ _ _ Hp0 Hlo)).
  rewrite scan_last_le.
  - fold f. now rewrite Hx.
  - apply sorted_timeOrdered; trivial. now apply StronglySorted_Sorted.
Qed.

(** X23: the two readers of a profile agree: whatever the additions,
    multiplications and divisions return, when the times the loop computes
    satisfy [0 <= 0 / 60] and, for every step that starts after [t]
    seconds, [t / 60 < t / 60 + 1 / 60 <= (t + durationSeconds) / 60],
    sampling the builder's profile at any time from
    the start to the end of one of its exposure events returns (by [===])
    that event's concentration. *)
Theorem sampling_within_event (plus times over : num -> num -> num)
    (gasFlowData : list FlowStep) (config : option Profile.Config)
    (e : Event) (t : num) :
  transitionAfterStart plus over gasFlowData = true ->
  In e (Events.identifyGasExposureEvents
          (ProfileWith.calculateGasConcVsTime plus times over gasFlowData
             config)) ->
  (startTime e <=? t)%js = true -> (t <=? endTime e)%js = true ->
  (Sampler.interpolateGasConcentration
     (ProfileWith.calculateGasConcVsTime plus times over gasFlowData config) t
   === concentration e)%js = true.
Proof.
  intros Hadv Hin Hlo Hhi.
  destruct (with_calculate_sorted plus times over gasFlowData config Hadv)
    as [Hs Hd].
  apply sample_in_block; trivial.
  pose proof (identify_covers Hd) as Hcov.
  rewrite Forall_forall in Hcov. now apply Hcov.
Qed.

Lemma sampling_within_event_witness :
  transitionAfterStart Binary64.add Binary64.div [fs 0 60; fs 100 120] = true
  /\ In (mkEvent (Binary64.add (Fin 1) (Binary64.div (Fin 1) (Fin 60)))
                 (Fin 10) (Fin 3))
        (Events.identifyGasExposureEvents
           (ProfileWith.calculateGasConcVsTime Binary64.add Binary64.mul
              Binary64.div [fs 0 60; fs 100 120] (cfg 500 50)))
  /\ (Sampler.interpolateGasConcentration
        (ProfileWith.calculateGasConcVsTime Binary64.add Binary64.mul
           Binary64.div [fs 0 60; fs 100 120] (cfg 500 50))
        (of_Z 2)
      === of_Z 10)%js = true.
Proof.
  split; [vm_compute; reflexivity|].
  split; [vm_compute; left; reflexivity|].
  apply (@sampling_within_event Binary64.add Binary64.mul Binary64.div
           [fs 0 60; fs 100 120] (cfg 500 50)
           (mkEvent (Binary64.add (Fin 1) (Binary64.div (Fin 1) (Fin 60)))
                    (Fin 10) (Fin 3))
           (of_Z 2)).
  - vm_compute. reflexivity.
  - vm_compute. left. reflexivity.
  - vm_compute. reflexivity.
  - vm_compute. reflexivity.
Defined.

(** ** Events in time order *)

Lemma chronological_snoc (evs : list Event) (e : Event) :
  chronological evs ->
  (forall final, Profile.lastOf evs = Some final ->
                 (endTime final <=? startTime e)%js = true) ->
  chronological (evs ++ [e]).
Proof.
  induction evs as [|a evs IH]; intros Hc Hl; [exact I|].
  destruct evs as [|b evs].
  - cbn [app chronological]. split; [now apply Hl | exact I].
  - destruct Hc as [Hab Hc]. cbn [app chronological]. split; trivial.
    apply IH; [exact Hc | exact Hl].
Qed.

Lemma sorted_head_le (p : Point) (rest : list Point) :
  StronglySorted follows (p :: rest) ->
  Forall (fun x => (time_min p <=? time_min x)%js = true) rest.
Proof.
  intro Hs. inversion Hs as [|? ? _ Hall]; subst.
  eapply Forall_impl; [|exact Hall]. intros x [Hle _]. exact Hle.
Qed.

Lemma step_inOrder (point : Point) (rest : list Point) (st : Events.State) :
  StronglySorted follows (point :: rest) ->
  isNaN (time_min point) = false ->
  inOrder (point :: rest) st -> inOrder rest (Events.step st point).
Proof.
  intros Hs Hdef (Hchr & Hlast & Hact).
  pose proof (sorted_head_le Hs) as Hrest.
  assert (Hnew : forall evs,
            chronological evs ->
            (forall final, Profile.lastOf evs = Some final ->
               Forall (fun p => (endTime final <=? time_min p)%js = true)
                      (point :: rest)) ->
            inOrder rest (Events.mkState evs
                            (if (conc point >? n0)%js
                             then Some (Events.startEvent point) else None))).
  { intros evs Hc Hl. split; [exact Hc|]. split.
    - intros final Hf. cbn [Events.events] in Hf.
      pose proof (Hl final Hf) as Hall.
      inversion Hall as [|? ? Hp Hr]; subst. split; trivial.
      cbn [Events.activeEvent]. destruct (conc point >? n0)%js; trivial.
    - cbn [Events.activeEvent]. destruct (conc point >? n0)%js; trivial.
      split; trivial. cbn. now apply le_refl. }
  unfold Events.step.
  destruct (Events.activeEvent st) as [a|] eqn:Ea.
  - destruct Hact as [Hse Hafter].
    inversion Hafter as [|? ? Hap Har]; subst.
    destruct ((conc point === concentration a) && (time_min point >? endTime a))%js.
    + split; [exact Hchr|]. split.
      * intros final Hf. destruct (Hlast final Hf) as [Hall Hfa].
        inversion Hall; subst. now split.
      * cbn [Events.activeEvent startTime endTime]. split; trivial.
        eapply le_trans; eassumption.
    + destruct ((conc point !== concentration a) || (time_min point <=? endTime a))%js.
      * apply Hnew.
        -- unfold Events.pushIfDuration.
           destruct (endTime a >? startTime a)%js; trivial.
           apply chronological_snoc; trivial.
           intros final Hf. now apply (Hlast final Hf).
        -- intros final Hf. unfold Events.pushIfDuration in Hf.
           destruct (endTime a >? startTime a)%js.
           ++ rewrite lastOf_snoc in Hf. injection Hf as <-. exact Hafter.
           ++ now apply (Hlast final Hf).
      * split; [exact Hchr|]. split.
        -- intros final Hf. destruct (Hlast final Hf) as [Hall Hfa].
           inversion Hall; subst. rewrite Ea. now split.
        -- rewrite Ea. now split.
  - pose proof (Hnew (Events.events st) Hchr
                  (fun final Hf => proj1 (Hlast final Hf))) as H.
    destruct (conc point >? n0)%js; trivial.
    destruct H as (H1 & H2 & H3). split; [exact H1|]. split.
    + intros final Hf. destruct (H2 final Hf) as [Hr _]. rewrite Ea. now split.
    + now rewrite Ea.
Qed.

Lemma loop_inOrder (rest : list Point) (st : Events.State) :
  StronglySorted follows rest -> Forall timeDefined rest ->
  inOrder rest st -> inOrder [] (fold_left Events.step rest st).
Proof.
  revert st. induction rest as [|p rest IH]; intros st Hs Hd Hin; trivial.
  inversion Hd as [|? ? Hp Hd']; subst.
  inversion Hs as [|? ? Hs' _]; subst.
  simpl. apply IH; trivial. now apply step_inOrder.
Qed.

Lemma identify_chronological (profile : list Point) :
  StronglySorted follows profile -> Forall timeDefined profile ->
  chronological (Events.identifyGasExposureEvents profile).
Proof.
  intros Hs Hd. unfold Events.identifyGasExposureEvents.
  destruct profile as [|p profile]; [exact I|].
  destruct (@loop_inOrder (p :: profile) (Events.mkState [] None) Hs Hd)
    as (Hchr & Hlast & Hact).
  { split; [exact I|]. split; [discriminate | exact I]. }
  unfold Events.finish.
  destruct (Events.activeEvent _) as [a|]; trivial.
  destruct (endTime a >? startTime a)%js; trivial.
  destruct (match rev _ with [] => false | e :: _ => Events.sameEvent e a end);
    trivial.
  apply chronological_snoc; trivial.
  intros final Hf. now apply (Hlast final Hf).
Qed.

(** X24: when every step lasts a finite time of at least one second
    (arithmetic being exact), the exposure events of the builder's profile
    come in time order and do not overlap: each event ends no later than
    the next one starts. *)
Theorem events_in_time_order (gasFlowData : list FlowStep)
    (config : option Profile.Config) :
  forallb atLeastOneSecond gasFlowData = true ->
  chronological
    (Events.identifyGasExposureEvents
       (Profile.calculateGasConcVsTime gasFlowData config)).
Proof.
  intro Hall.
  destruct (calculate_sorted gasFlowData config Hall) as [Hs Hd].
  now apply identify_chronological.
Qed.

Lemma events_in_time_order_witness :
  chronological
    (Events.identifyGasExposureEvents
       (Profile.calculateGasConcVsTime
          [fs 100 120; fs 0 60; fs 200 30] (cfg 500 50))).
Proof.
  apply (@events_in_time_order [fs 100 120; fs 0 60; fs 200 30] (cfg 500 50)).
  reflexivity.
Defined.

(** ** The baseline of a run *)




